(** * SASS playground: a shallow embedding of the pipeline and of the
      execution harness

    The development follows the Python sources module by module:
    [utils.py] (external tool invocation, directories), [compiler.py],
    [disassembler.py], [assembler.py] and [runner.py] (execution contexts,
    the benchmark protocol and the comparison of two runs).

    Python effects are explicit.  A computation is a function from a state
    to an outcome and a new state; an outcome is a value or a raised
    exception.  What lies outside the repository (the file system, the
    external command-line tools, the CUDA driver, the clock, the random
    generator, [json]) is an oracle that the definitions take as a
    parameter.  Floating-point numbers are IEEE 754 values of
    [SpecFloat]: binary64 for Python floats and [np.float64], binary32 for
    [np.float32]. *)

From Stdlib Require Import ZArith List String Ascii Bool Lia SpecFloat.
From Stdlib Require Import DecimalString DecimalPos DecimalZ.
From stdpp Require Import base option list gmap strings.

Local Open Scope string_scope.
Local Open Scope list_scope.

(** ** Python outcomes and exceptions *)

Module Py.

(** The exception classes that the sources raise, catch or let through.
    All of them derive from [Exception]. *)
Inductive ExcKind :=
| RuntimeError
| FileNotFoundError
| FileExistsError
| NotADirectoryError
| IsADirectoryError
| ValueError
| TypeError
| AttributeError
| KeyError
| IndexError
| NotImplementedError
| RecursionError
| JSONDecodeError
| OSError
| PermissionError
| OverflowError
| CudaError          (* pycuda.driver.Error *)
| CudaLogicError     (* pycuda.driver.LogicError *)
| CudaMemoryError    (* pycuda.driver.MemoryError *)
| CudaLaunchError    (* pycuda.driver.LaunchError *)
| OtherError.

(** An exception object: its class and [str(e)]. *)
Record PyExc := mkExc { exc_kind : ExcKind; exc_msg : string }.

Definition str_exc (e : PyExc) : string := exc_msg e.

#[global] Instance ExcKind_eq_dec : EqDecision ExcKind.
Proof. solve_decision. Defined.

(** The class that a class derives from, where that is not [Exception]
    itself. *)
Definition base (k : ExcKind) : option ExcKind :=
  match k with
  | NotImplementedError | RecursionError => Some RuntimeError
  | FileNotFoundError | FileExistsError | NotADirectoryError | IsADirectoryError
  | PermissionError => Some OSError
  | JSONDecodeError => Some ValueError
  | CudaLogicError | CudaMemoryError | CudaLaunchError => Some CudaError
  | _ => None
  end.

(** [isinstance(e, cls)], which is what an [except cls] clause asks. *)
Definition isinstance (e : PyExc) (cls : ExcKind) : bool :=
  bool_decide (exc_kind e = cls) ||
  match base (exc_kind e) with
  | Some b => bool_decide (b = cls)
  | None => false
  end.

Inductive Res (A : Type) :=
| Ok (a : A)
| Raise (e : PyExc).
Arguments Ok {A} a.
Arguments Raise {A} e.

Definition res_bind {A B} (r : Res A) (k : A -> Res B) : Res B :=
  match r with
  | Ok a => k a
  | Raise e => Raise e
  end.

(** Stateful computations that may raise.  The state reached before the
    exception is kept: effects are not rolled back. *)
Definition M (S A : Type) : Type := S -> Res A * S.

Definition ret {S A} (a : A) : M S A := fun s => (Ok a, s).

Definition raise {S A} (e : PyExc) : M S A := fun s => (Raise e, s).

Definition bind {S A B} (m : M S A) (k : A -> M S B) : M S B :=
  fun s =>
    match m s with
    | (Ok a, s') => k a s'
    | (Raise e, s') => (Raise e, s')
    end.

Definition lift_res {S A} (r : Res A) : M S A := fun s => (r, s).

Definition gets {S A} (f : S -> A) : M S A := fun s => (Ok (f s), s).

Definition modify {S} (f : S -> S) : M S unit := fun s => (Ok tt, f s).

(** [try: m except Exception as e: h e] *)
Definition try_except {S A} (m : M S A) (h : PyExc -> M S A) : M S A :=
  fun s =>
    match m s with
    | (Ok a, s') => (Ok a, s')
    | (Raise e, s') => h e s'
    end.

(** [try: m finally: f].  The finaliser always runs; when it raises, its
    exception replaces the outcome of [m]. *)
Definition try_finally {S A} (m : M S A) (f : M S unit) : M S A :=
  fun s =>
    match m s with
    | (r, s') =>
        match f s' with
        | (Ok _, s'') => (r, s'')
        | (Raise e, s'') => (Raise e, s'')
        end
    end.

End Py.

Export Py.

Declare Scope py_scope.
Delimit Scope py_scope with py.
Notation "x <- m ;; k" := (bind m (fun x => k))
  (at level 20, m at level 99, k at level 200, only parsing) : py_scope.
Notation "m ;; k" := (bind m (fun _ => k))
  (at level 100, k at level 200, only parsing, right associativity) : py_scope.
Local Open Scope py_scope.

(** ** IEEE 754 arithmetic *)

Module IEEE.

(** A floating-point value.  The same type serves both formats; the
    operations fix the format. *)
Definition float := spec_float.

(** binary64: Python [float], [np.float64]. *)
Definition f64_of_Z (z : Z) : float := binary_normalize 53 1024 z 0 false.
Definition f64_add : float -> float -> float := SFadd 53 1024.
Definition f64_sub : float -> float -> float := SFsub 53 1024.
Definition f64_mul : float -> float -> float := SFmul 53 1024.
Definition f64_div : float -> float -> float := SFdiv 53 1024.
Definition f64_ltb : float -> float -> bool := SFltb.

(** The literal [1e-6]: the binary64 value nearest to 10^-6. *)
Definition f64_1e_6 : float := Eval vm_compute in f64_div (f64_of_Z 1) (f64_of_Z 1000000).

(** binary32: [np.float32]. *)
Definition f32_add : float -> float -> float := SFadd 24 128.
Definition f32_sub : float -> float -> float := SFsub 24 128.
Definition f32_abs : float -> float := SFabs.

(** [float(x)] for [x : np.float32]: the same real number in binary64.
    The conversion is exact; only the representation is renormalised. *)
Definition f64_of_f32 (x : float) : float :=
  match x with
  | S754_finite s m e => binary_normalize 53 1024 (cond_Zopp s (Zpos m)) e s
  | _ => x
  end.

Definition is_nan (x : float) : bool :=
  match x with
  | S754_nan => true
  | _ => false
  end.

(** [np.maximum] and [np.minimum]: a NaN operand gives NaN. *)
Definition np_maximum (x y : float) : float :=
  if is_nan x then x else if is_nan y then y else if SFltb x y then y else x.

Definition np_minimum (x y : float) : float :=
  if is_nan x then x else if is_nan y then y else if SFltb y x then y else x.

(** [np.max] and [np.min] of a one-dimensional array; the empty array has
    no maximum and numpy raises [ValueError]. *)
Definition np_max (l : list float) : Res float :=
  match l with
  | [] => Raise (mkExc ValueError
      "zero-size array to reduction operation maximum which has no identity")
  | x :: l' => Ok (fold_left np_maximum l' x)
  end.

Definition np_min (l : list float) : Res float :=
  match l with
  | [] => Raise (mkExc ValueError
      "zero-size array to reduction operation minimum which has no identity")
  | x :: l' => Ok (fold_left np_minimum l' x)
  end.

(** Element-wise operations on arrays of equal length. *)
Fixpoint zip_with_f (f : float -> float -> float) (a b : list float) : list float :=
  match a, b with
  | x :: a', y :: b' => f x y :: zip_with_f f a' b'
  | _, _ => []
  end.

Definition np_add32 : list float -> list float -> list float := zip_with_f f32_add.
Definition np_sub32 : list float -> list float -> list float := zip_with_f f32_sub.
Definition np_abs32 : list float -> list float := List.map f32_abs.

End IEEE.

Export IEEE.

Arguments f64_of_Z : simpl never.
Arguments f64_of_f32 : simpl never.
Arguments f64_mul : simpl never.
Arguments f64_sub : simpl never.
Arguments f64_div : simpl never.
Arguments f64_ltb : simpl never.
Arguments f32_add : simpl never.
Arguments f32_sub : simpl never.
Arguments f32_abs : simpl never.
Arguments np_max : simpl never.
Arguments np_min : simpl never.

(** ** [pathlib]: pure POSIX paths *)

Module Pathlib.

(** A path is its list of components; [is_abs] tells whether it starts at
    the root.  [Path(s)] drops empty components and ["."]. *)
Record Path := mkPath { is_abs : bool; parts : list string }.

Fixpoint split_slash (s : string) (cur : string) : list string :=
  match s with
  | EmptyString => [cur]
  | String c s' =>
      if Ascii.eqb c "/" then cur :: split_slash s' EmptyString
      else split_slash s' (cur +:+ String c EmptyString)
  end.

Definition keep_component (c : string) : bool :=
  negb (String.eqb c "" || String.eqb c ".").

Definition starts_with_slash (s : string) : bool :=
  match s with
  | String c _ => Ascii.eqb c "/"
  | EmptyString => false
  end.

Definition of_string (s : string) : Path :=
  mkPath (starts_with_slash s) (List.filter keep_component (split_slash s EmptyString)).

Fixpoint join_slash (l : list string) : string :=
  match l with
  | [] => ""
  | [c] => c
  | c :: l' => c +:+ "/" +:+ join_slash l'
  end.

(** [str(p)] *)
Definition to_string (p : Path) : string :=
  match parts p with
  | [] => if is_abs p then "/" else "."
  | l => (if is_abs p then "/" else "") +:+ join_slash l
  end.

(** [p.name]: the final component, or the empty string. *)
Definition name (p : Path) : string := List.last (parts p) "".

(** [s.rfind('.')] *)
Fixpoint rfind_dot (s : string) (i : nat) (acc : option nat) : option nat :=
  match s with
  | EmptyString => acc
  | String c s' => rfind_dot s' (S i) (if Ascii.eqb c "." then Some i else acc)
  end.

(** [p.suffix]: from the last dot of the name, unless that dot is the first
    or the last character. *)
Definition suffix (p : Path) : string :=
  let nm := name p in
  match rfind_dot nm 0 None with
  | Some i =>
      if (0 <? i)%nat && (i <? String.length nm - 1)%nat
      then String.substring i (String.length nm - i) nm
      else ""
  | None => ""
  end.

(** [p.stem]: the name without its suffix. *)
Definition stem (p : Path) : string :=
  let nm := name p in
  match rfind_dot nm 0 None with
  | Some i =>
      if (0 <? i)%nat && (i <? String.length nm - 1)%nat
      then String.substring 0 i nm
      else nm
  | None => nm
  end.

(** [p / s] *)
Definition joinpath (p : Path) (s : string) : Path :=
  let q := of_string s in
  if is_abs q then q else mkPath (is_abs p) (parts p ++ parts q).

(** [p.parent] *)
Definition parent (p : Path) : Path := mkPath (is_abs p) (List.removelast (parts p)).

(** The ancestors of [p] and [p] itself, shortest first. *)
Fixpoint prefixes_from (abs : bool) (done todo : list string) : list Path :=
  match todo with
  | [] => []
  | c :: todo' => mkPath abs (done ++ [c]) :: prefixes_from abs (done ++ [c]) todo'
  end.

Definition prefixes (p : Path) : list Path := prefixes_from (is_abs p) [] (parts p).

End Pathlib.

(** ** The operating system: files and external processes *)

Module OS.

Import Pathlib.

Inductive Entry :=
| Dir
| File (content : string).

(** The file system maps [str(path)] to what is stored there; [stdout]
    collects what [print] wrote. *)
Record World := mkWorld { fs : gmap string Entry; stdout : list string }.

Definition set_fs (f : gmap string Entry) (w : World) : World := mkWorld f (stdout w).

(** The outcome of spawning a process: it ran and exited, or it could not
    be started (a missing executable gives [FileNotFoundError]). *)
Inductive ProcResult :=
| Exited (returncode : Z) (out err : string)
| SpawnFailed (e : PyExc).

(** What [os.mkdir(p)] finds in the tree of entries. *)
Inductive Found :=
| NothingThere      (* the parent is a directory and [p] is free *)
| ParentMissing
| ParentNotDir
| AlreadyThere.

(** A refusal of the system that the tree of entries does not show:
    [PermissionError] (no right to write or to search), or a plain
    [OSError] (a read-only or full device, a name that is too long). *)
Inductive Refusal :=
| PermissionDenied (msg : string)
| OtherOSError (msg : string).

Definition refusal_exc (r : Refusal) : PyExc :=
  match r with
  | PermissionDenied msg => mkExc PermissionError msg
  | OtherOSError msg => mkExc OSError msg
  end.

(** The machine.  [exec]: given the working directory, the argument list
    and the file system, what a process does.  [mkdir_rejects]: the
    exception with which [os.mkdir] rejects a path before it asks the
    system (an embedded null byte gives [ValueError]).  [mkdir_refuses]:
    the refusal of the system for a path, given what the tree holds
    there; which of several errors the system reports first is up to the
    system. *)
Record Tools := mkTools {
  exec : option string -> list string -> gmap string Entry -> ProcResult * gmap string Entry;
  mkdir_rejects : string -> option PyExc;
  mkdir_refuses : string -> Found -> option Refusal
}.

Definition print (s : string) : M World unit :=
  modify (fun w => mkWorld (fs w) (stdout w ++ [s])).

Definition exists_ (p : Path) : M World bool :=
  gets (fun w => bool_decide (is_Some (fs w !! to_string p))).

Definition is_dir_entry (o : option Entry) : bool :=
  match o with
  | Some Dir => true
  | _ => false
  end.

(** The directory that holds [p] is there: either [p] has a single
    component (the current directory or the root holds it) or its parent
    is a directory of the file system. *)
Definition parent_is_dir (f : gmap string Entry) (p : Path) : bool :=
  match parts (parent p) with
  | [] => true
  | _ => is_dir_entry (f !! to_string (parent p))
  end.

(** The directories above [p], outermost first. *)
Definition ancestors (p : Path) : list Path := prefixes (parent p).

(** Walking down [dirs]: each of them has to be a directory. *)
Fixpoint walk (f : gmap string Entry) (dirs : list Path) : Found :=
  match dirs with
  | [] => NothingThere
  | q :: rest =>
      match f !! to_string q with
      | Some Dir => walk f rest
      | Some (File _) => ParentNotDir
      | None => ParentMissing
      end
  end.

(** The current directory and the root are always there. *)
Definition find (f : gmap string Entry) (p : Path) : Found :=
  match parts p with
  | [] => AlreadyThere
  | _ =>
      match walk f (ancestors p) with
      | NothingThere =>
          match f !! to_string p with
          | Some _ => AlreadyThere
          | None => NothingThere
          end
      | found => found
      end
  end.

(** [p.is_dir()] *)
Definition is_dir_in (f : gmap string Entry) (p : Path) : bool :=
  match parts p with
  | [] => true
  | _ =>
      match walk f (ancestors p) with
      | NothingThere => is_dir_entry (f !! to_string p)
      | _ => false
      end
  end.

Definition is_dir (p : Path) : M World bool :=
  gets (fun w => is_dir_in (fs w) p).

(** [os.mkdir(p)] *)
Definition os_mkdir (T : Tools) (p : Path) : M World unit :=
  fun w =>
    match mkdir_rejects T (to_string p) with
    | Some e => (Raise e, w)
    | None =>
        match mkdir_refuses T (to_string p) (find (fs w) p) with
        | Some r => (Raise (refusal_exc r), w)
        | None =>
            match find (fs w) p with
            | NothingThere => (Ok tt, set_fs (<[to_string p := Dir]> (fs w)) w)
            | ParentMissing =>
                (Raise (mkExc FileNotFoundError
                   ("[Errno 2] No such file or directory: '" +:+ to_string p +:+ "'")), w)
            | ParentNotDir =>
                (Raise (mkExc NotADirectoryError
                   ("[Errno 20] Not a directory: '" +:+ to_string p +:+ "'")), w)
            | AlreadyThere =>
                (Raise (mkExc FileExistsError
                   ("[Errno 17] File exists: '" +:+ to_string p +:+ "'")), w)
            end
        end
    end.

(** The second [except] clause of [Path.mkdir] with [exist_ok=True]: an
    [OSError] is dropped when the path is a directory. *)
Definition unless_is_dir (p : Path) (e : PyExc) : M World unit :=
  if isinstance e OSError then
    d <- is_dir p ;;
    if (d : bool) then ret tt else raise e
  else raise e.

(** [p.mkdir(parents=False, exist_ok=True)] *)
Definition mkdir_exist_ok (T : Tools) (p : Path) : M World unit :=
  try_except (os_mkdir T p)
    (fun e =>
       if isinstance e FileNotFoundError then raise e
       else unless_is_dir p e).

(** [p.mkdir(parents=True, exist_ok=True)].  [up] holds [p.parent],
    [p.parent.parent] and so on; the last of them is the current
    directory or the root, which is its own parent. *)
Fixpoint mkdir_parents (T : Tools) (p : Path) (up : list Path) : M World unit :=
  try_except (os_mkdir T p)
    (fun e =>
       if isinstance e FileNotFoundError then
         match up with
         | [] => raise e
         | q :: up' =>
             mkdir_parents T q up' ;;
             mkdir_exist_ok T p
         end
       else unless_is_dir p e).

(** [p.parents], nearest first. *)
Definition parents (p : Path) : list Path :=
  match parts p with
  | [] => []
  | _ => rev (mkPath (is_abs p) [] :: ancestors p)
  end.

Definition mkdir_parents_exist_ok (T : Tools) (p : Path) : M World unit :=
  mkdir_parents T p (parents p).

(** [p.write_text(text)] *)
Definition write_text (p : Path) (text : string) : M World unit :=
  fun w =>
    if negb (parent_is_dir (fs w) p) then
      (Raise (mkExc FileNotFoundError
         ("[Errno 2] No such file or directory: '" +:+ to_string p +:+ "'")), w)
    else if is_dir_entry (fs w !! to_string p) then
      (Raise (mkExc IsADirectoryError
         ("[Errno 21] Is a directory: '" +:+ to_string p +:+ "'")), w)
    else (Ok tt, set_fs (<[to_string p := File text]> (fs w)) w).

(** [shutil.copy2(src, dst)]: a directory as destination receives the file
    under the name of the source. *)
Definition copy2 (src dst : Path) : M World unit :=
  fun w =>
    match fs w !! to_string src with
    | None =>
        (Raise (mkExc FileNotFoundError
           ("[Errno 2] No such file or directory: '" +:+ to_string src +:+ "'")), w)
    | Some Dir =>
        (Raise (mkExc IsADirectoryError
           ("[Errno 21] Is a directory: '" +:+ to_string src +:+ "'")), w)
    | Some (File content) =>
        let dst' := if is_dir_entry (fs w !! to_string dst)
                    then joinpath dst (name src) else dst in
        write_text dst' content w
    end.

(** [subprocess.run(cmd, cwd=cwd, capture_output=True, text=True,
    check=True)]: with [check=True] a non-zero exit status raises
    [CalledProcessError], which is kept apart from the other exceptions
    because [run_command] catches exactly that class. *)
Inductive SubprocessOutcome :=
| Completed (out err : string)
| CalledProcessError (returncode : Z) (out err : string)
| SpawnError (e : PyExc).

Definition subprocess_run (T : Tools) (cmd : list string) (cwd : option string)
  : World -> SubprocessOutcome * World :=
  fun w =>
    match exec T cwd cmd (fs w) with
    | (Exited rc out err, f) =>
        if (rc =? 0)%Z then (Completed out err, set_fs f w)
        else (CalledProcessError rc out err, set_fs f w)
    | (SpawnFailed e, f) => (SpawnError e, set_fs f w)
    end.

End OS.

(** ** [utils.py] *)

Module Utils.

Import Pathlib OS.

(** [str(n)] for a Python integer. *)
Definition str_int (z : Z) : string := NilZero.string_of_int (Z.to_int z).

Definition ensure_dir (T : Tools) (path : string) : M World Path :=
  let path := of_string path in
  mkdir_parents_exist_ok T path ;;
  ret path.

(** The f-string of [run_command]; character 10 is the line feed. *)
Definition command_failed_message (returncode : Z) (stderr : string) : string :=
  "Command failed with exit code " +:+ str_int returncode +:+ ":" +:+
  String "010"%char stderr.

Definition run_command (T : Tools) (cmd : list string) (cwd : option string)
  : M World (string * string) :=
  fun w =>
    match subprocess_run T cmd cwd w with
    | (Completed out err, w') => (Ok (out, err), w')
    | (CalledProcessError rc _ err, w') =>
        (Raise (mkExc RuntimeError (command_failed_message rc err)), w')
    | (SpawnError e, w') => (Raise e, w')
    end.

(** [check_cuda_installation] tells a failing tool and a missing tool
    apart from everything else: [except (RuntimeError, FileNotFoundError)]
    answers [False] for these classes and their subclasses and lets any
    other exception through. *)
Definition check_cuda_installation (T : Tools) : M World bool :=
  try_except
    (run_command T ["nvcc"; "--version"] None ;; ret true)
    (fun e =>
       if isinstance e RuntimeError || isinstance e FileNotFoundError
       then ret false
       else raise e).

End Utils.

(** ** [compiler.py] *)

Module Compiler.

Import Pathlib OS Utils.

Definition _compile_cuda (T : Tools) (cuda_file output_dir : Path) : M World (Path * Path) :=
  let stem := stem cuda_file in
  let ptx_file := joinpath output_dir (stem +:+ ".ptx") in
  let cubin_file := joinpath output_dir (stem +:+ ".cubin") in
  run_command T
    ["nvcc"; "-ptx"; to_string cuda_file; "-o"; to_string ptx_file;
     "-arch=sm_86"; "-O3"] None ;;
  run_command T
    ["nvcc"; "-cubin"; to_string cuda_file; "-o"; to_string cubin_file;
     "-arch=sm_86"; "-O3"] None ;;
  ret (ptx_file, cubin_file).

Definition _compile_triton (triton_file output_dir : Path) : M World (Path * Path) :=
  raise (mkExc NotImplementedError "Triton compilation not yet implemented").

Definition compile (T : Tools) (input_file output_dir : string) : M World (Path * Path) :=
  let input_path := of_string input_file in
  output_dir <- ensure_dir T output_dir ;;
  print "firass" ;;
  print (to_string input_path) ;;
  if String.eqb (suffix input_path) ".cu" then
    _compile_cuda T input_path output_dir
  else if String.eqb (suffix input_path) ".py" then
    _compile_triton input_path output_dir
  else
    raise (mkExc ValueError ("Unsupported file type: " +:+ suffix input_path)).

End Compiler.

(** ** [assembler.py] *)

Module Assembler.

Import Pathlib OS Utils.

Definition assemble (T : Tools) (cuasm_file output_dir : string) : M World Path :=
  let cuasm_path := of_string cuasm_file in
  output_dir <- ensure_dir T output_dir ;;
  let cubin_file := joinpath output_dir (stem cuasm_path +:+ "_new.cubin") in
  found <- exists_ cuasm_path ;;
  if negb found then
    raise (mkExc FileNotFoundError
      ("Could not find " +:+ to_string cuasm_path +:+ ". Please run disassemble first."))
  else
    run_command T
      ["cuasm"; "--asm2bin"; to_string cuasm_path; "-o"; to_string cubin_file] None ;;
    ret cubin_file.

End Assembler.

(** ** [disassembler.py] *)

Module Disassembler.

Import Pathlib OS Utils.

Definition disassemble (T : Tools) (cubin_file output_dir : string) : M World Path :=
  let cubin_path := of_string cubin_file in
  output_dir <- ensure_dir T output_dir ;;
  let sass_file := joinpath output_dir (stem cubin_path +:+ ".sass") in
  let cuasm_file := joinpath output_dir (stem cubin_path +:+ ".cuasm") in
  so <- run_command T ["nvdisasm"; "-g"; "-c"; to_string cubin_path] None ;;
  let sass_text := fst so in
  write_text sass_file sass_text ;;
  copy2 cubin_path (joinpath output_dir (stem cubin_path +:+ ".original.cubin")) ;;
  run_command T
    ["cuasm"; "--bin2asm"; to_string cubin_path; "-o"; to_string cuasm_file] None ;;
  ret cuasm_file.

End Disassembler.

(** ** [runner.py] *)

Module Runner.

Import Pathlib.

(** *** Data of a run *)

Record Timing := mkTiming {
  mean_ms : float;
  std_ms : float;
  min_ms : float;
  max_ms : float
}.

Record Correctness := mkCorrectness {
  max_error : float;
  passed : bool
}.

Record Sample := mkSample {
  sample_idx : nat;
  sample_a : float;
  sample_b : float;
  sample_out : float;
  sample_expected : float;
  sample_error : float
}.

Record Stats := mkStats {
  speedup : float;
  speedup_percent : float;
  original_ms : float;
  modified_ms : float;
  both_correct : bool
}.

(** The dictionary that [_compare_results] returns has one of two shapes. *)
Inductive Comparison :=
| CmpError (error : string)
| CmpStats (stats : Stats).

(** The [results] dictionary.  A key that may be absent, or a
    sub-dictionary that may be empty, is an [option]. *)
Record Results := mkResults {
  kernel : string;
  kernel_name : string;
  success : bool;
  error : option string;
  timing : option Timing;
  correctness : option Correctness;
  samples : option (list Sample);
  test_size : option Z;
  comparison : option Comparison
}.

(** *** The outside world of the runner *)

(** A parsed JSON document, as far as [run] looks into it: an object with
    its members in order, or something else.  Of a member's value only
    the integer matters; [JInt] also stands for the JSON booleans, which
    Python treats as the integers 1 and 0. *)
Inductive JsonValue :=
| JInt (z : Z)
| JNotInt.

Inductive Json :=
| JObject (items : list (string * JsonValue))
| JNotObject.

(** The calls that leave the interpreter, in the order [run] makes them.
    A call is logged when it is made, whether or not it then fails. *)
Inductive Event :=
| EvCudaInit
| EvDevice (ordinal : nat)
| EvMakeContext
| EvCtxPush (ctx : nat)
| EvCtxPop (ctx : nat)
| EvOpenRead (path : string)
| EvModuleFromBuffer
| EvGetFunction (name : string)
| EvRandomRand (n : Z)
| EvMemAlloc (nbytes : Z)
| EvMemcpyHtoD (dst : nat) (src : list float)
| EvLaunch (a_gpu b_gpu c_gpu : nat) (n : Z) (block_x grid_x : Z)
| EvSynchronize
| EvPerfCounter
| EvMemcpyDtoH (src : nat)
| EvFree (buf : nat).

(** What the outside answers.  Call number [t] is the [t]-th call of the
    whole process. *)
Record Env := mkEnv {
  (** the exception that call number [t] raises, if it fails *)
  fails : nat -> option PyExc;
  (** [json.loads] *)
  json_loads : string -> Res Json;
  (** element [i] of the [float32] array drawn by call number [t] *)
  random_rand : nat -> nat -> float;
  (** the clock reading of call number [t] *)
  perf_counter_at : nat -> float;
  (** element [i] of the output buffer as call number [t] copies it back *)
  device_output : nat -> nat -> float;
  (** [np.mean] and [np.std] of a list of Python floats *)
  np_mean : list float -> float;
  np_std : list float -> float;
  (** [np.int32(z)] for a [z] that does not fit in 32 bits: NumPy 2
      raises [OverflowError], NumPy 1 wraps around *)
  int32_out_of_range : Z -> Res Z
}.

Record World := mkWorld {
  tick : nat;                        (* calls made so far *)
  trace : list Event;
  stdout : list string;
  next_alloc : nat;                  (* identity of the next DeviceAllocation *)
  live : list nat;                   (* device buffers allocated and not freed *)
  thread_local : gmap nat nat;       (* KernelRunner._thread_local: worker to context *)
  contexts_to_cleanup : list nat;    (* KernelRunner._contexts_to_cleanup *)
  next_ctx : nat;                    (* identity of the next Context object *)
  cleanup_registered : bool;         (* KernelRunner._cleanup_registered *)
  atexit_handlers : nat              (* registrations of _cleanup_all_contexts *)
}.

Definition initial_world : World := mkWorld 0 [] [] 0 [] ∅ [] 0 false 0.

Definition called (ev : Event) (w : World) : World :=
  mkWorld (S (tick w)) (trace w ++ [ev]) (stdout w) (next_alloc w) (live w)
    (thread_local w) (contexts_to_cleanup w) (next_ctx w)
    (cleanup_registered w) (atexit_handlers w).

Definition set_allocs (nxt : nat) (l : list nat) (w : World) : World :=
  mkWorld (tick w) (trace w) (stdout w) nxt l
    (thread_local w) (contexts_to_cleanup w) (next_ctx w)
    (cleanup_registered w) (atexit_handlers w).

Definition set_contexts (tl : gmap nat nat) (cs : list nat) (nxt : nat) (w : World) : World :=
  mkWorld (tick w) (trace w) (stdout w) (next_alloc w) (live w)
    tl cs nxt (cleanup_registered w) (atexit_handlers w).

Definition set_atexit (reg : bool) (k : nat) (w : World) : World :=
  mkWorld (tick w) (trace w) (stdout w) (next_alloc w) (live w)
    (thread_local w) (contexts_to_cleanup w) (next_ctx w) reg k.

Definition print (s : string) : M World unit :=
  modify (fun w =>
    mkWorld (tick w) (trace w) (stdout w ++ [s]) (next_alloc w) (live w)
      (thread_local w) (contexts_to_cleanup w) (next_ctx w)
      (cleanup_registered w) (atexit_handlers w)).

(** One call to the outside: it is logged, the call counter advances, and
    the oracle says whether it raises.  [k] computes the value and the
    effect of a call that succeeds from the call number. *)
Definition call {A} (E : Env) (ev : Event) (k : nat -> World -> A * World) : M World A :=
  fun w =>
    let w' := called ev w in
    match fails E (tick w) with
    | Some e => (Raise e, w')
    | None => let (a, w'') := k (tick w) w' in (Ok a, w'')
    end.

Definition call_ (E : Env) (ev : Event) : M World unit :=
  call E ev (fun _ w => (tt, w)).

(** *** The CUDA driver *)

Definition mem_alloc (E : Env) (nbytes : Z) : M World nat :=
  call E (EvMemAlloc nbytes)
    (fun _ w => (next_alloc w, set_allocs (S (next_alloc w)) (next_alloc w :: live w) w)).

Definition free (E : Env) (buf : nat) : M World unit :=
  call E (EvFree buf)
    (fun _ w => (tt, set_allocs (next_alloc w) (List.filter (fun h => negb (h =? buf)%nat) (live w)) w)).

Definition memcpy_htod (E : Env) (dst : nat) (src : list float) : M World unit :=
  call_ E (EvMemcpyHtoD dst src).

Definition memcpy_dtoh (E : Env) (src : nat) (n : Z) : M World (list float) :=
  call E (EvMemcpyDtoH src)
    (fun t w => (List.map (device_output E t) (seq 0 (Z.to_nat n)), w)).

Definition synchronize (E : Env) : M World unit := call_ E EvSynchronize.

Definition perf_counter (E : Env) : M World float :=
  call E EvPerfCounter (fun t w => (perf_counter_at E t, w)).

Definition make_context (E : Env) : M World nat :=
  call E EvMakeContext
    (fun _ w => (next_ctx w,
                 set_contexts (thread_local w) (contexts_to_cleanup w) (S (next_ctx w)) w)).

(** [np.random.rand(n).astype(np.float32)] *)
Definition random_rand32 (E : Env) (n : Z) : M World (list float) :=
  if (n <? 0)%Z then
    raise (mkExc ValueError "negative dimensions are not allowed")
  else
    call E (EvRandomRand n)
      (fun t w => (List.map (random_rand E t) (seq 0 (Z.to_nat n)), w)).

(** *** Execution contexts *)

(** [KernelRunner.__init__] *)
Definition __init__ : M World unit :=
  fun w =>
    if negb (cleanup_registered w)
    then (Ok tt, set_atexit true (S (atexit_handlers w)) w)
    else (Ok tt, w).

(** The loop of [_cleanup_all_contexts]: a failing [pop] is swallowed. *)
Fixpoint pop_all (E : Env) (ctxs : list nat) : M World unit :=
  match ctxs with
  | [] => ret tt
  | ctx :: rest =>
      try_except (call_ E (EvCtxPop ctx)) (fun _ => ret tt) ;;
      pop_all E rest
  end.

Definition _cleanup_all_contexts (E : Env) : M World unit :=
  ctxs <- gets contexts_to_cleanup ;;
  pop_all E ctxs ;;
  modify (fun w => set_contexts (thread_local w) [] (next_ctx w) w).

(** Interpreter shutdown runs every registered exit handler. *)
Fixpoint run_exit_handlers (E : Env) (k : nat) : M World unit :=
  match k with
  | O => ret tt
  | S k' => try_except (_cleanup_all_contexts E) (fun _ => ret tt) ;; run_exit_handlers E k'
  end.

Definition process_exit (E : Env) : M World unit :=
  k <- gets atexit_handlers ;;
  run_exit_handlers E k.

(** [_ensure_cuda_context], run by thread [worker]. *)
Definition _ensure_cuda_context (E : Env) (worker : nat) : M World unit :=
  tl <- gets thread_local ;;
  match tl !! worker with
  | None =>
      call_ E EvCudaInit ;;
      call_ E (EvDevice 0) ;;
      ctx <- make_context E ;;
      modify (fun w => set_contexts (<[worker := ctx]> (thread_local w))
                         (contexts_to_cleanup w) (next_ctx w) w) ;;
      modify (fun w => set_contexts (thread_local w)
                         (contexts_to_cleanup w ++ [ctx]) (next_ctx w) w)
  | Some ctx =>
      try_except (call_ E (EvCtxPush ctx))
        (fun e =>
           match exc_kind e with
           | CudaLogicError => ret tt
           | _ => raise e
           end)
  end.

(** *** Comparison of two runs *)

(** [d["timing"]["mean_ms"]] and [d["correctness"]["passed"]]: an empty
    sub-dictionary has no such key. *)
Definition get_mean_ms (r : Results) : Res float :=
  match timing r with
  | Some t => Ok (mean_ms t)
  | None => Raise (mkExc KeyError "'mean_ms'")
  end.

Definition get_passed (r : Results) : Res bool :=
  match correctness r with
  | Some c => Ok (passed c)
  | None => Raise (mkExc KeyError "'passed'")
  end.

Definition _compare_results (new_results old_results : Results) : Res Comparison :=
  if negb (success new_results && success old_results) then
    Ok (CmpError "One or both kernels failed")
  else
    res_bind (get_mean_ms old_results) (fun old_ms =>
    res_bind (get_mean_ms new_results) (fun new_ms =>
    let speedup := f64_div old_ms new_ms in
    res_bind (get_passed new_results) (fun new_passed =>
    res_bind (if new_passed then get_passed old_results else Ok false) (fun both =>
    Ok (CmpStats
          (mkStats speedup
                   (f64_mul (f64_sub speedup (f64_of_Z 1)) (f64_of_Z 100))
                   old_ms new_ms both)))))).

(** *** Loading and running a kernel *)

(** [parse_kernel_args] of [runner.py] *)
Definition parse_kernel_args (E : Env) (args_str : string) : M World Json :=
  lift_res (json_loads E args_str).

(** [args.get("n", 1024)] *)
Fixpoint dict_get (items : list (string * JsonValue)) (key : string) (default : JsonValue)
  : JsonValue :=
  match items with
  | [] => default
  | (k, v) :: rest => if String.eqb k key then v else dict_get rest key default
  end.

Definition args_get_n (args : Json) : Res JsonValue :=
  match args with
  | JObject items => Ok (dict_get items "n" (JInt 1024))
  | JNotObject => Raise (mkExc AttributeError "object has no attribute 'get'")
  end.

(** Arithmetic on [n] and [np.random.rand(n)] need an integer. *)
Definition as_int (v : JsonValue) : Res Z :=
  match v with
  | JInt z => Ok z
  | JNotInt => Raise (mkExc TypeError "object cannot be interpreted as an integer")
  end.

Definition _load_cubin (E : Env) (cubin_path : Path) : M World unit :=
  print "Loading CUBIN file..." ;;
  call_ E (EvOpenRead (to_string cubin_path)) ;;
  try_except
    (call_ E EvModuleFromBuffer ;;
     print "CUBIN loaded successfully!")
    (fun e =>
       print ("CUBIN load failed: " +:+ str_exc e) ;;
       raise e).

Definition _get_first_kernel_name (module : unit) : string := "vector_add".

(** The local variables of [run] when it reaches its [try] statement. *)
Record Locals := mkLocals {
  cubin_path : Path;
  l_kernel_name : string;
  n : Z;
  block_size : Z;
  grid_size : Z;
  a : list float;
  b : list float;
  a_gpu : nat;
  b_gpu : nat;
  c_gpu : nat
}.

(** [kernel(a_gpu, b_gpu, c_gpu, np.int32(n), block=..., grid=...)] *)
(** [np.int32(z)] *)
Definition np_int32 (E : Env) (z : Z) : Res Z :=
  if (-2147483648 <=? z)%Z && (z <? 2147483648)%Z then Ok z
  else int32_out_of_range E z.

(** [kernel(a_gpu, b_gpu, c_gpu, np.int32(n), block=..., grid=...)]: the
    arguments are evaluated before the call. *)
Definition launch (E : Env) (L : Locals) : M World unit :=
  n32 <- lift_res (np_int32 E (n L)) ;;
  call_ E (EvLaunch (a_gpu L) (b_gpu L) (c_gpu L) n32 (block_size L) (grid_size L)).

(** The literal ['{"n": 1024}']; character 34 is the double quote. *)
Definition default_args : string :=
  "{" +:+ String "034"%char "n" +:+ String "034"%char ": 1024}".

(** [args_str or default_args] *)
Definition args_or_default (args_str : option string) : string :=
  match args_str with
  | Some s => if String.eqb s "" then default_args else s
  | None => default_args
  end.

(** Lines 62 to 89: everything before the [results] dictionary. *)
Definition run_prelude (E : Env) (worker : nat) (cubin_file : string)
  (args_str : option string) : M World Locals :=
  _ensure_cuda_context E worker ;;
  let cubin_path := of_string cubin_file in
  args <- parse_kernel_args E (args_or_default args_str) ;;
  print ("Loading CUBIN: " +:+ to_string cubin_path) ;;
  module <- _load_cubin E cubin_path ;;
  let kernel_name := _get_first_kernel_name module in
  print ("Kernel name: " +:+ kernel_name) ;;
  call_ E (EvGetFunction kernel_name) ;;
  nv <- lift_res (args_get_n args) ;;
  n <- lift_res (as_int nv) ;;
  let block_size := 256%Z in
  let grid_size := ((n + block_size - 1) / block_size)%Z in
  a <- random_rand32 E n ;;
  b <- random_rand32 E n ;;
  a_gpu <- mem_alloc E (4 * n) ;;
  b_gpu <- mem_alloc E (4 * n) ;;
  c_gpu <- mem_alloc E (4 * n) ;;
  memcpy_htod E a_gpu a ;;
  memcpy_htod E b_gpu b ;;
  ret (mkLocals cubin_path kernel_name n block_size grid_size a b a_gpu b_gpu c_gpu).

Definition initial_results (L : Locals) : Results :=
  mkResults (name (cubin_path L)) (l_kernel_name L) false None None None None None None.

(** The timed loop: [k] more iterations, [times] collected so far. *)
Fixpoint benchmark (E : Env) (L : Locals) (k : nat) (times : list float)
  : M World (list float) :=
  match k with
  | O => ret times
  | S k' =>
      start <- perf_counter E ;;
      launch E L ;;
      synchronize E ;;
      stop <- perf_counter E ;;
      benchmark E L k' (times ++ [f64_sub stop start])
  end.

(** [x[i]] on an array *)
Definition index (x : list float) (i : nat) : Res float :=
  match x !! i with
  | Some v => Ok v
  | None => Raise (mkExc IndexError "index out of bounds")
  end.

(** The sample rows for the indices [idxs]. *)
Fixpoint make_samples (a b c expected : list float) (idxs : list nat) : Res (list Sample) :=
  match idxs with
  | [] => Ok []
  | i :: rest =>
      res_bind (index a i) (fun ai =>
      res_bind (index b i) (fun bi =>
      res_bind (index c i) (fun ci =>
      res_bind (index expected i) (fun ei =>
      res_bind (make_samples a b c expected rest) (fun tl =>
      Ok (mkSample i (f64_of_f32 ai) (f64_of_f32 bi) (f64_of_f32 ci) (f64_of_f32 ei)
            (f64_of_f32 (f32_abs (f32_sub ci ei))) :: tl))))))
  end.

(** The [try] block works on the world and on the local dictionary
    [results], which [update] changes in place. *)
Definition TryState : Type := Results * World.

Definition in_world {A} (m : M World A) : M TryState A :=
  fun s =>
    match m (snd s) with
    | (r, w') => (r, (fst s, w'))
    end.

Definition update_success (t : Timing) (c : Correctness) (ss : list Sample) (n : Z)
  (r : Results) : Results :=
  mkResults (kernel r) (kernel_name r) true (error r) (Some t) (Some c) (Some ss)
    (Some n) (comparison r).

Definition update_failure (msg : string) (r : Results) : Results :=
  mkResults (kernel r) (kernel_name r) false (Some msg) (timing r) (correctness r)
    (samples r) (test_size r) (comparison r).

Definition set_comparison (c : Comparison) (r : Results) : Results :=
  mkResults (kernel r) (kernel_name r) (success r) (error r) (timing r) (correctness r)
    (samples r) (test_size r) (Some c).

Definition update (f : Results -> Results) : M TryState unit :=
  modify (fun s => (f (fst s), snd s)).

(** [if compare_with:] *)
Definition truthy (compare_with : option string) : option string :=
  match compare_with with
  | Some p => if String.eqb p "" then None else Some p
  | None => None
  end.

(** Lines 101 to 151: the body of the [try] statement.  [self_run] is the
    recursive call [self.run(compare_with, args_str)]. *)
Definition run_try (E : Env) (self_run : string -> option string -> M World Results)
  (L : Locals) (args_str compare_with : option string) : M TryState unit :=
  in_world (launch E L) ;;
  in_world (synchronize E) ;;
  times <- in_world (benchmark E L 100 []) ;;
  c <- in_world (memcpy_dtoh E (c_gpu L) (n L)) ;;
  let expected := np_add32 (a L) (b L) in
  max_error <- lift_res (np_max (np_abs32 (np_sub32 c expected))) ;;
  let sample_count := Z.min 5 (n L) in
  samples <- lift_res (make_samples (a L) (b L) c expected (seq 0 (Z.to_nat sample_count))) ;;
  tmin <- lift_res (np_min times) ;;
  tmax <- lift_res (np_max times) ;;
  update (update_success
            (mkTiming (f64_mul (np_mean E times) (f64_of_Z 1000))
                      (f64_mul (np_std E times) (f64_of_Z 1000))
                      (f64_mul tmin (f64_of_Z 1000))
                      (f64_mul tmax (f64_of_Z 1000)))
            (mkCorrectness (f64_of_f32 max_error) (f64_ltb (f64_of_f32 max_error) f64_1e_6))
            samples (n L)) ;;
  match truthy compare_with with
  | Some other =>
      compare_results <- in_world (self_run other args_str) ;;
      results <- gets fst ;;
      cmp <- lift_res (_compare_results results compare_results) ;;
      update (set_comparison cmp)
  | None => ret tt
  end.

(** The [except Exception as e] clause. *)
Definition run_except (e : PyExc) : M TryState unit :=
  update (update_failure (str_exc e)).

(** The [finally] clause. *)
Definition run_finally (E : Env) (L : Locals) : M World unit :=
  free E (a_gpu L) ;;
  free E (b_gpu L) ;;
  free E (c_gpu L).

(** Run a block that owns the local dictionary, starting from [r0]. *)
Definition with_results {A} (r0 : Results) (m : M TryState A) : M World (A * Results) :=
  fun w =>
    match m (r0, w) with
    | (Ok x, (r, w')) => (Ok (x, r), w')
    | (Raise e, (_, w')) => (Raise e, w')
    end.

Definition run_open (E : Env) (self_run : string -> option string -> M World Results)
  (worker : nat) (cubin_file : string) (args_str compare_with : option string)
  : M World Results :=
  L <- run_prelude E worker cubin_file args_str ;;
  xr <- with_results (initial_results L)
          (try_finally
             (try_except (run_try E self_run L args_str compare_with) run_except)
             (in_world (run_finally E L))) ;;
  ret (snd xr).

(** The recursive call passes no [compare_with], so the call it starts
    never recurses again: [run] unfolds to two levels. *)
Definition run_inner (E : Env) (worker : nat) (cubin_file : string)
  (args_str : option string) : M World Results :=
  run_open E (fun _ _ => raise (mkExc RecursionError "unreachable")) worker
    cubin_file args_str None.

Definition run (E : Env) (worker : nat) (cubin_file : string)
  (args_str compare_with : option string) : M World Results :=
  run_open E (run_inner E worker) worker cubin_file args_str compare_with.

End Runner.

(** ** Concrete oracles

    Small closed instances of the outside world, on which the definitions
    above compute. *)

Module Demo.

Import Pathlib Runner.

(** [json.loads] on the two argument strings that the examples use. *)
Definition args_n4 : string := "{" +:+ String "034"%char "n" +:+ String "034"%char ": 4}".

Definition demo_json_loads (s : string) : Res Json :=
  if String.eqb s default_args then Ok (JObject [("n", JInt 1024)])
  else if String.eqb s args_n4 then Ok (JObject [("n", JInt 4)])
  else Raise (mkExc JSONDecodeError "Expecting value: line 1 column 1 (char 0)").

(** Inputs that are multiples of 1/8 in [0, 1). *)
Definition demo_random (t i : nat) : float :=
  binary_normalize 24 128 (Z.of_nat ((t + i) mod 8)) (-3) false.

(** The clock advances by 2^-10 seconds per call. *)
Definition demo_clock (t : nat) : float :=
  binary_normalize 53 1024 (Z.of_nat t) (-10) false.

(** A kernel that adds correctly: the copy back at call [t] follows the
    draws of [a] and [b] by 409 and 408 calls. *)
Definition good_output (t i : nat) : float :=
  f32_add (demo_random (t - 409) i) (demo_random (t - 408) i).

(** A kernel that leaves the output buffer at zero. *)
Definition zero_output (t i : nat) : float := S754_zero false.

Definition sum64 (l : list float) : float := fold_left f64_add l (S754_zero false).

Definition demo_mean (l : list float) : float :=
  f64_div (sum64 l) (f64_of_Z (Z.of_nat (length l))).

Definition demo_std (l : list float) : float :=
  let m := demo_mean l in
  SFsqrt 53 1024 (demo_mean (List.map (fun x => f64_mul (f64_sub x m) (f64_sub x m)) l)).

Definition no_failure (t : nat) : option PyExc := None.

(** Call number [k] fails with [e]; every other call succeeds. *)
Definition fails_at (k : nat) (e : PyExc) (t : nat) : option PyExc :=
  if (t =? k)%nat then Some e else None.

(** NumPy 2: a size that does not fit is an error. *)
Definition int32_overflow (z : Z) : Res Z :=
  Raise (mkExc OverflowError "Python integer out of bounds for int32").

Definition good_env : Env :=
  mkEnv no_failure demo_json_loads demo_random demo_clock good_output demo_mean demo_std int32_overflow.

Definition env_failing_at (k : nat) (e : PyExc) : Env :=
  mkEnv (fails_at k e) demo_json_loads demo_random demo_clock good_output demo_mean demo_std int32_overflow.


(** Two literal run results: a baseline that took 2.0 ms on average and a
    candidate that took 1.0 ms. *)
Definition result_with_mean (nm : string) (ms : Z) (ok : bool) : Results :=
  mkResults nm "vector_add" true None
    (Some (mkTiming (f64_of_Z ms) (S754_zero false) (f64_of_Z ms) (f64_of_Z ms)))
    (Some (mkCorrectness (S754_zero false) ok))
    (Some []) (Some 1024%Z) None.

Definition baseline_2ms : Results := result_with_mean "vec.original.cubin" 2 true.
Definition candidate_1ms : Results := result_with_mean "vec_new.cubin" 1 true.

(** A run whose kernel launch failed. *)
Definition failed_result : Results :=
  mkResults "vec_new.cubin" "vector_add" false (Some "cuLaunchKernel failed")
    None None None None None.

(** The external tools as they behave on a machine where they are
    installed: [nvdisasm] and [cuasm] refuse an input file that is not
    there and exit with status 1; any other program is missing. *)
Definition is_file (f : gmap string OS.Entry) (p : string) : bool :=
  match f !! p with
  | Some (OS.File _) => true
  | _ => false
  end.

Definition demo_exec (cwd : option string) (cmd : list string) (f : gmap string OS.Entry)
  : OS.ProcResult * gmap string OS.Entry :=
  match cmd with
  | ["nvdisasm"; "-g"; "-c"; p] =>
      if is_file f p then (OS.Exited 0 "        /*0000*/  MOV R1, c[0x0][0x28] ;" "", f)
      else (OS.Exited 1 "" ("nvdisasm fatal   : Could not open input file '" +:+ p +:+ "'"), f)
  | ["cuasm"; "--bin2asm"; p; "-o"; q] =>
      if is_file f p then (OS.Exited 0 "" "", <[q := OS.File "// cuasm"]> f)
      else (OS.Exited 1 "" ("IOError: cannot open " +:+ p), f)
  | ["cuasm"; "--asm2bin"; p; "-o"; q] =>
      if is_file f p then (OS.Exited 0 "" "", <[q := OS.File "cubin"]> f)
      else (OS.Exited 1 "" ("IOError: cannot open " +:+ p), f)
  | prog :: _ =>
      (OS.SpawnFailed (mkExc FileNotFoundError
         ("[Errno 2] No such file or directory: '" +:+ prog +:+ "'")), f)
  | [] => (OS.SpawnFailed (mkExc IndexError "list index out of range"), f)
  end.

Definition demo_tools : OS.Tools := OS.mkTools demo_exec (fun _ => None) (fun _ _ => None).

(** A working directory that holds a compiled kernel and a text file. *)
Definition demo_fs : gmap string OS.Entry :=
  <["build" := OS.Dir]> (<["build/vec.cubin" := OS.File "cubin"]>
    (<["notes.txt" := OS.File "hello"]> ∅)).

Definition demo_os : OS.World := OS.mkWorld demo_fs [].

(** The first release at exit fails. *)
Definition pop_fails_env : Env :=
  env_failing_at 7 (mkExc CudaLogicError "cuCtxPopCurrent failed: invalid device context").

(** A runner is created; worker 0 acquires a context, worker 1 acquires
    one, worker 0 acquires again. *)
Definition two_workers : World :=
  snd (_ensure_cuda_context pop_fails_env 0
    (snd (_ensure_cuda_context pop_fails_env 1
      (snd (_ensure_cuda_context pop_fails_env 0
        (snd (__init__ initial_world))))))).

(** The device runs out of memory at the second allocation. *)
Definition oom_env : Env :=
  env_failing_at 9 (mkExc CudaMemoryError "cuMemAlloc failed: out of memory").

(** The first host-to-device copy fails. *)
Definition htod_fails_env : Env :=
  env_failing_at 11 (mkExc CudaLogicError "cuMemcpyHtoD failed: invalid argument").

(** The file is not a loadable kernel image. *)
Definition bad_cubin_env : Env :=
  env_failing_at 4
    (mkExc CudaLogicError "cuModuleLoadDataEx failed: device kernel image is invalid").

(** The warmup launch fails. *)
Definition launch_fails_env : Env :=
  env_failing_at 13 (mkExc CudaLaunchError "cuLaunchKernel failed: launch failed").

(** A machine that also has [nvcc]. *)
Definition toolkit_exec (cwd : option string) (cmd : list string)
  (f : gmap string OS.Entry) : OS.ProcResult * gmap string OS.Entry :=
  match cmd with
  | ["nvcc"; "--version"] =>
      (OS.Exited 0 "nvcc: NVIDIA (R) Cuda compiler driver" "", f)
  | ["nvcc"; mode; src; "-o"; dst; _; _] =>
      if is_file f src then (OS.Exited 0 "" "", <[dst := OS.File mode]> f)
      else (OS.Exited 1 "" ("nvcc fatal   : Could not open input file '" +:+ src +:+ "'"), f)
  | _ => demo_exec cwd cmd f
  end.

Definition toolkit : OS.Tools := OS.mkTools toolkit_exec (fun _ => None) (fun _ _ => None).

(** A machine whose [cuasm] always fails. *)
Definition cuasm_fails_exec (cwd : option string) (cmd : list string)
  (f : gmap string OS.Entry) : OS.ProcResult * gmap string OS.Entry :=
  match cmd with
  | "cuasm" :: _ => (OS.Exited 2 "" "cuasm: unsupported SM version", f)
  | _ => demo_exec cwd cmd f
  end.

Definition cuasm_fails_tools : OS.Tools := OS.mkTools cuasm_fails_exec (fun _ => None) (fun _ _ => None).

(** A working directory with a CUDA source and an edited CuASM text. *)
Definition source_fs : gmap string OS.Entry :=
  <["vector_add.cu" := OS.File "__global__ void vector_add()"]>
    (<["build/vec.cuasm" := OS.File "// edited"]> demo_fs).

Definition source_os : OS.World := OS.mkWorld source_fs [].

(** [json.loads] that also knows a negative and a fractional size. *)
Definition args_negative : string :=
  "{" +:+ String "034"%char "n" +:+ String "034"%char ": -4}".
Definition args_fraction : string :=
  "{" +:+ String "034"%char "n" +:+ String "034"%char ": 2.5}".

Definition args_extra : string :=
  "{" +:+ String "034"%char "m" +:+ String "034"%char ": 7, "
  +:+ String "034"%char "n" +:+ String "034"%char ": 1024}".

Definition demo_json_loads_sizes (s : string) : Res Json :=
  if String.eqb s args_extra then Ok (JObject [("m", JInt 7); ("n", JInt 1024)])
  else if String.eqb s args_negative then Ok (JObject [("n", JInt (-4))])
  else if String.eqb s args_fraction then Ok (JObject [("n", JNotInt)])
  else demo_json_loads s.

Definition odd_sizes_env : Env :=
  mkEnv no_failure demo_json_loads_sizes demo_random demo_clock good_output
    demo_mean demo_std int32_overflow.

(** A file system whose names have at most twelve characters: the
    system refuses a longer name once the parent is there. *)
Definition short_names_refuses (s : string) (found : OS.Found) : option OS.Refusal :=
  match found with
  | OS.NothingThere =>
      if (12 <? String.length (Pathlib.name (Pathlib.of_string s)))%nat
      then Some (OS.OtherOSError ("[Errno 36] File name too long: '" +:+ s +:+ "'"))
      else None
  | _ => None
  end.

Definition short_names_tools : OS.Tools :=
  OS.mkTools demo_exec (fun _ => None) short_names_refuses.

(** A machine on which [nvcc] is there and may not be run. *)
Definition locked_exec (cwd : option string) (cmd : list string)
  (f : gmap string OS.Entry) : OS.ProcResult * gmap string OS.Entry :=
  match cmd with
  | "nvcc" :: _ =>
      (OS.SpawnFailed (mkExc PermissionError "[Errno 13] Permission denied: 'nvcc'"), f)
  | _ => demo_exec cwd cmd f
  end.

Definition locked_tools : OS.Tools :=
  OS.mkTools locked_exec (fun _ => None) (fun _ _ => None).

End Demo.

(** ** [main.py] *)

Module Main.

Import Py Pathlib.

(** How a command ends: its body returns; it raises [click.Abort]; or
    [click.Path(exists=True)] rejects an argument before the body runs. *)
Inductive Outcome := Completed | Aborted | UsageError.

(** The exit status that [click] gives the process. *)
Definition exit_status (o : Outcome) : Z :=
  match o with
  | Completed => 0
  | Aborted => 1
  | UsageError => 2
  end.

(** [click.Path(exists=True)] *)
Definition path_exists (path : string) (w : OS.World) : bool :=
  match OS.exists_ (of_string path) w with
  | (Ok found, _) => found
  | (Raise _, _) => false
  end.

Definition compile (T : OS.Tools) (input_file output_dir : string)
  : OS.World -> Outcome * OS.World :=
  fun w =>
    if negb (path_exists input_file w) then (UsageError, w) else
    match (Utils.ensure_dir T output_dir ;;
           files <- Compiler.compile T input_file output_dir ;;
           OS.print "[green]Successfully compiled:[/green]" ;;
           OS.print ("PTX: " +:+ to_string (fst files)) ;;
           OS.print ("CUBIN: " +:+ to_string (snd files)))%py w with
    | (Ok _, w') => (Completed, w')
    | (Raise e, w') =>
        (Aborted, snd (OS.print ("[red]Error during compilation:[/red] " +:+ str_exc e) w'))
    end.

Definition disasm (T : OS.Tools) (cubin_file output_dir : string)
  : OS.World -> Outcome * OS.World :=
  fun w =>
    if negb (path_exists cubin_file w) then (UsageError, w) else
    match (Utils.ensure_dir T output_dir ;;
           sass_file <- Disassembler.disassemble T cubin_file output_dir ;;
           OS.print ("[green]Successfully disassembled to SASS:[/green] "
                     +:+ to_string sass_file))%py w with
    | (Ok _, w') => (Completed, w')
    | (Raise e, w') =>
        (Aborted, snd (OS.print ("[red]Error during disassembly:[/red] " +:+ str_exc e) w'))
    end.

Definition assemble (T : OS.Tools) (sass_file output_dir : string)
  : OS.World -> Outcome * OS.World :=
  fun w =>
    if negb (path_exists sass_file w) then (UsageError, w) else
    match (Utils.ensure_dir T output_dir ;;
           cubin_file <- Assembler.assemble T sass_file output_dir ;;
           OS.print ("[green]Successfully assembled to CUBIN:[/green] "
                     +:+ to_string cubin_file))%py w with
    | (Ok _, w') => (Completed, w')
    | (Raise e, w') =>
        (Aborted, snd (OS.print ("[red]Error during assembly:[/red] " +:+ str_exc e) w'))
    end.

(** The [run] command, on the main thread.  [on_disk] tells which paths
    [click] finds; [render] is how the console shows [results]. *)
Definition run (E : Runner.Env) (on_disk : string -> bool)
  (render : Runner.Results -> string)
  (cubin_file : string) (args compare_with : option string)
  : Runner.World -> Outcome * Runner.World :=
  fun w =>
    if negb (on_disk cubin_file) then (UsageError, w) else
    if negb (match compare_with with Some c => on_disk c | None => true end)
    then (UsageError, w) else
    match (Runner.__init__ ;;
           results <- Runner.run E 0 cubin_file args compare_with ;;
           Runner.print "[green]Kernel execution results:[/green]" ;;
           Runner.print (render results))%py w with
    | (Ok _, w') => (Completed, w')
    | (Raise e, w') =>
        (Aborted,
         snd (Runner.print ("[red]Error during kernel execution:[/red] " +:+ str_exc e) w'))
    end.

End Main.

(** ** [ui.py] *)

Module Ui.

Import Py Pathlib.

Definition BUILD_DIR : Path := of_string "build".

(** [assemble_from_cuasm]: the two strings it returns are the path of the
    new binary and a status line. *)
Definition assemble_from_cuasm (T : OS.Tools) (cuasm_path_str cuasm_text : string)
  : OS.World -> (string * string) * OS.World :=
  fun w =>
    let cuasm_path := of_string cuasm_path_str in
    match (OS.write_text cuasm_path cuasm_text ;;
           Assembler.assemble T (to_string cuasm_path) (to_string BUILD_DIR))%py w with
    | (Ok cubin, w') => ((to_string cubin, "Assembled successfully"), w')
    | (Raise e, w') => (("", "Assembly error: " +:+ str_exc e), w')
    end.

End Ui.

(** ** Vocabulary of the properties *)

(** A string without a colon. *)
Definition no_colon (s : string) : Prop :=
  forall i, String.get i s <> Some ":"%char.

(** A computation respects a relation on states when every run of it,
    whatever its outcome, takes a state to a related one. *)
Definition respects {S A : Type} (R : S -> S -> Prop) (m : M S A) : Prop :=
  forall s, R s (snd (m s)).

(** The relation on the states of a [try] block that looks at the world
    only. *)
Definition on_world (R : Runner.World -> Runner.World -> Prop)
  : Runner.TryState -> Runner.TryState -> Prop :=
  fun s s' => R (snd s) (snd s').

(** What must hold of the class attributes of [KernelRunner] between
    calls: the registered contexts are distinct objects, each is the
    context of exactly one worker, every worker's context is registered,
    and the exit handler is registered once as soon as an instance
    exists. *)
Record ctx_inv (w : Runner.World) : Prop := mkCtxInv {
  inv_nodup : NoDup (Runner.contexts_to_cleanup w);
  inv_fresh : forall c, c ∈ Runner.contexts_to_cleanup w -> c < Runner.next_ctx w;
  inv_worker_registered :
    forall wk c, Runner.thread_local w !! wk = Some c -> c ∈ Runner.contexts_to_cleanup w;
  inv_registered_worker :
    forall c, c ∈ Runner.contexts_to_cleanup w ->
              exists wk, Runner.thread_local w !! wk = Some c;
  inv_not_shared :
    forall wk1 wk2 c, Runner.thread_local w !! wk1 = Some c ->
                      Runner.thread_local w !! wk2 = Some c -> wk1 = wk2;
  inv_atexit :
    Runner.atexit_handlers w = if Runner.cleanup_registered w then 1 else 0;
  inv_instance :
    Runner.contexts_to_cleanup w <> [] -> Runner.cleanup_registered w = true
}.

(** The invariant is kept by code that runs on an instance. *)
Definition keeps_ctx_inv (w w' : Runner.World) : Prop :=
  ctx_inv w -> Runner.cleanup_registered w = true ->
  ctx_inv w' /\ Runner.cleanup_registered w' = true.

(** The trace only grows. *)
Definition extends_trace (w w' : Runner.World) : Prop :=
  exists evs, Runner.trace w' = Runner.trace w ++ evs.

(** One step of a process that uses [KernelRunner]: an instance is
    created, or a worker calls a method of an existing instance. *)
Inductive runner_step (E : Runner.Env) : Runner.World -> Runner.World -> Prop :=
| step_init w :
    runner_step E w (snd (Runner.__init__ w))
| step_ensure w worker :
    Runner.cleanup_registered w = true ->
    runner_step E w (snd (Runner._ensure_cuda_context E worker w))
| step_run w worker cubin_file args_str compare_with :
    Runner.cleanup_registered w = true ->
    runner_step E w (snd (Runner.run E worker cubin_file args_str compare_with w)).

(** The states a process can be in before it exits. *)
Definition reachable (E : Runner.Env) (w : Runner.World) : Prop :=
  rtc (runner_step E) Runner.initial_world w.

(** The events that the trace of [w'] adds to the trace of [w]. *)
Definition new_events (w w' : Runner.World) : list Runner.Event :=
  drop (length (Runner.trace w)) (Runner.trace w').

Definition is_pop_of (c : nat) (ev : Runner.Event) : bool :=
  match ev with
  | Runner.EvCtxPop c' => (c' =? c)%nat
  | _ => false
  end.

(** How often context [c] is released by the events [evs]. *)
Definition releases (c : nat) (evs : list Runner.Event) : nat :=
  length (List.filter (is_pop_of c) evs).

(** The world after the calls [evs], none of which changed anything
    else. *)
Definition advance (evs : list Runner.Event) (w : Runner.World) : Runner.World :=
  Runner.mkWorld (length evs + Runner.tick w) (Runner.trace w ++ evs)
    (Runner.stdout w) (Runner.next_alloc w) (Runner.live w)
    (Runner.thread_local w) (Runner.contexts_to_cleanup w) (Runner.next_ctx w)
    (Runner.cleanup_registered w) (Runner.atexit_handlers w).

(** A computation that only makes calls: whatever its outcome, the calls
    it made are an initial part of [evs] and nothing else changed; when it
    returns it made all of them, and [post] holds of the state it started
    in and of its value. *)
Definition emits {A : Type} (c : M Runner.World A) (evs : list Runner.Event)
  (post : Runner.World -> A -> Prop) : Prop :=
  forall w res w',
    c w = (res, w') ->
    exists own,
      w' = advance own w /\ own `prefix_of` evs /\
      forall x, res = Ok x -> own = evs /\ post w x.

(** The reference output of a run: [expected = a + b]. *)
Definition expected_of (L : Runner.Locals) : list float :=
  np_add32 (Runner.a L) (Runner.b L).

(** [r1] is [r0] after the [results.update] of a run whose output buffer
    came back as [c]. *)
Definition measured (E : Runner.Env) (L : Runner.Locals) (c : list float)
  (r0 r1 : Runner.Results) : Prop :=
  exists times m ss tmin tmax,
    np_max (np_abs32 (np_sub32 c (expected_of L))) = Ok m /\
    Runner.make_samples (Runner.a L) (Runner.b L) c (expected_of L)
      (seq 0 (Z.to_nat (Z.min 5 (Runner.n L)))) = Ok ss /\
    np_min times = Ok tmin /\
    np_max times = Ok tmax /\
    r1 = Runner.update_success
           (Runner.mkTiming (f64_mul (Runner.np_mean E times) (f64_of_Z 1000))
              (f64_mul (Runner.np_std E times) (f64_of_Z 1000))
              (f64_mul tmin (f64_of_Z 1000))
              (f64_mul tmax (f64_of_Z 1000)))
           (Runner.mkCorrectness (f64_of_f32 m) (f64_ltb (f64_of_f32 m) f64_1e_6))
           ss (Runner.n L) r0.

(** The calls that set up a context. *)
Definition is_context_event (ev : Runner.Event) : bool :=
  match ev with
  | Runner.EvCudaInit | Runner.EvDevice _ | Runner.EvMakeContext
  | Runner.EvCtxPush _ => true
  | _ => false
  end.

(** The calls of the prelude of a run once the context is there, for a
    problem of size [n] whose buffers are [h], [h + 1] and [h + 2]. *)
Definition prelude_events (cubin_file : string) (n : Z) (h : nat) (a b : list float)
  : list Runner.Event :=
  [Runner.EvOpenRead (Pathlib.to_string (Pathlib.of_string cubin_file));
   Runner.EvModuleFromBuffer;
   Runner.EvGetFunction "vector_add";
   Runner.EvRandomRand n;
   Runner.EvRandomRand n;
   Runner.EvMemAlloc (4 * n);
   Runner.EvMemAlloc (4 * n);
   Runner.EvMemAlloc (4 * n);
   Runner.EvMemcpyHtoD h a;
   Runner.EvMemcpyHtoD (S h) b].

(** A launch whose size argument is [m], the value of [np.int32(n)]. *)
Definition launch_event (L : Runner.Locals) (m : Z) : Runner.Event :=
  Runner.EvLaunch (Runner.a_gpu L) (Runner.b_gpu L) (Runner.c_gpu L) m
    (Runner.block_size L) (Runner.grid_size L).

(** One timed iteration, and [k] of them. *)
Definition timed_iteration (L : Runner.Locals) (m : Z) : list Runner.Event :=
  [Runner.EvPerfCounter; launch_event L m; Runner.EvSynchronize; Runner.EvPerfCounter].

Fixpoint timed_events (L : Runner.Locals) (m : Z) (k : nat) : list Runner.Event :=
  match k with
  | O => []
  | S k' => timed_iteration L m ++ timed_events L m k'
  end.

(** The elapsed times of [k] iterations whose first clock reading is call
    number [t]: each iteration reads the clock at its first and at its
    fourth call. *)
Fixpoint recorded_times (E : Runner.Env) (t : nat) (k : nat) : list float :=
  match k with
  | O => []
  | S k' =>
      f64_sub (Runner.perf_counter_at E (3 + t)) (Runner.perf_counter_at E t)
      :: recorded_times E (4 + t) k'
  end.

(** The calls of the [try] block before the copy back: warmup and
    barrier, then 100 timed iterations. *)
Definition kernel_events (L : Runner.Locals) (m : Z) : list Runner.Event :=
  [launch_event L m; Runner.EvSynchronize] ++ timed_events L m 100.

(** The calls of the [try] block up to the copy back. *)
Definition protocol_events (L : Runner.Locals) (m : Z) : list Runner.Event :=
  kernel_events L m ++ [Runner.EvMemcpyDtoH (Runner.c_gpu L)].

(** The calls of the [finally] clause. *)
Definition free_events (L : Runner.Locals) : list Runner.Event :=
  [Runner.EvFree (Runner.a_gpu L); Runner.EvFree (Runner.b_gpu L);
   Runner.EvFree (Runner.c_gpu L)].

Definition is_launch (ev : Runner.Event) : bool :=
  match ev with
  | Runner.EvLaunch _ _ _ _ _ _ => true
  | _ => false
  end.

Definition is_dtoh (ev : Runner.Event) : bool :=
  match ev with
  | Runner.EvMemcpyDtoH _ => true
  | _ => false
  end.

Definition is_htod (ev : Runner.Event) : bool :=
  match ev with
  | Runner.EvMemcpyHtoD _ _ => true
  | _ => false
  end.

Definition is_free (ev : Runner.Event) : bool :=
  match ev with
  | Runner.EvFree _ => true
  | _ => false
  end.

(** How many events of a kind a list holds. *)
Definition count_events (p : Runner.Event -> bool) (evs : list Runner.Event) : nat :=
  length (List.filter p evs).

(** A computation that, whatever its outcome, adds to the log neither a
    launch nor a copy back. *)
Definition quiet {A : Type} (c : M Runner.World A) : Prop :=
  forall w res w',
    c w = (res, w') ->
    exists evs,
      Runner.trace w' = Runner.trace w ++ evs /\
      count_events is_launch evs = 0 /\ count_events is_dtoh evs = 0.

(** What [run] returns when the [try] block ended with [tres] and left
    [r2] in [results]: the [except] clause marks a failure. *)
Definition final_results (tres : Res unit) (r2 : Runner.Results) : Runner.Results :=
  match tres with
  | Ok _ => r2
  | Raise e => Runner.update_failure (str_exc e) r2
  end.

(** ** Vocabulary of the further properties *)

(** A string that contains a slash. *)
Fixpoint has_slash (s : string) : bool :=
  match s with
  | EmptyString => false
  | String c s' => Ascii.eqb c "/" || has_slash s'
  end.

(** A string that [Path] keeps as one component: no slash, not empty, not
    a single dot. *)
Definition is_component (c : string) : Prop :=
  has_slash c = false /\ c <> "" /\ c <> ".".

Definition is_alloc (ev : Runner.Event) : bool :=
  match ev with
  | Runner.EvMemAlloc _ => true
  | _ => false
  end.

(** [f'] holds everything that [f] holds, and what it holds besides are
    directories. *)
Definition grows (f f' : gmap string OS.Entry) : Prop :=
  (forall k v, f !! k = Some v -> f' !! k = Some v) /\
  (forall k, f !! k = None -> f' !! k = None \/ f' !! k = Some OS.Dir).

(** * Properties *)

(** ** Making directories *)

Section Mkdir.

Import Pathlib OS.

Variable T : Tools.

Lemma grows_refl (f : gmap string Entry) : grows f f.
Proof. split; auto. Qed.

Lemma grows_trans (f1 f2 f3 : gmap string Entry) :
  grows f1 f2 -> grows f2 f3 -> grows f1 f3.
Proof.
  intros [K1 A1] [K2 A2]. split.
  - auto.
  - intros k Hk. destruct (A1 k Hk) as [H | H]; [auto | right; auto].
Qed.

Lemma grows_insert (f : gmap string Entry) (k : string) :
  f !! k = None -> grows f (<[k := Dir]> f).
Proof.
  intros Hk. split.
  - intros k' v Hv. rewrite lookup_insert_ne; [exact Hv |].
    intros <-. rewrite Hk in Hv. discriminate.
  - intros k' Hk'. destruct (decide (k = k')) as [<- | Hne].
    + right. apply lookup_insert_eq.
    + left. now rewrite lookup_insert_ne.
Qed.

Lemma walk_grows (f f' : gmap string Entry) (dirs : list Path) :
  grows f f' -> walk f dirs = NothingThere -> walk f' dirs = NothingThere.
Proof.
  intros [Hkeep _]. induction dirs as [| q rest IH]; [reflexivity |].
  simpl. destruct (f !! to_string q) as [[| content] |] eqn:Hq; try discriminate.
  rewrite (Hkeep _ _ Hq). exact IH.
Qed.

Lemma is_dir_grows (p : Path) (f f' : gmap string Entry) :
  is_dir_in f p = true -> grows f f' -> is_dir_in f' p = true.
Proof.
  unfold is_dir_in. intros H Hg.
  destruct (parts p); [reflexivity |].
  destruct (walk f (ancestors p)) eqn:Hw; try discriminate.
  rewrite (walk_grows _ _ _ Hg Hw).
  destruct (f !! to_string p) as [[| content] |] eqn:Hp; try discriminate.
  now rewrite (proj1 Hg _ _ Hp).
Qed.

Lemma is_dir_lookup (p : Path) (f : gmap string Entry) :
  is_dir_in f p = true -> parts p <> [] -> f !! to_string p = Some Dir.
Proof.
  unfold is_dir_in. intros H Hne.
  destruct (parts p); [contradiction |].
  destruct (walk f (ancestors p)); try discriminate.
  now destruct (f !! to_string p) as [[| content] |].
Qed.

Lemma is_dir_find (p : Path) (f : gmap string Entry) :
  is_dir_in f p = true -> find f p = AlreadyThere.
Proof.
  unfold is_dir_in, find. intros H.
  destruct (parts p); [reflexivity |].
  destruct (walk f (ancestors p)); try discriminate.
  now destruct (f !! to_string p) as [[| content] |].
Qed.

(** [os.mkdir] makes one directory or changes nothing. *)
Lemma os_mkdir_inv (p : Path) (w w' : World) (res : Res unit) :
  os_mkdir T p w = (res, w') ->
  stdout w' = stdout w /\ grows (fs w) (fs w') /\
  (res = Ok tt -> is_dir_in (fs w') p = true) /\
  (forall e, res = Raise e -> w' = w).
Proof.
  unfold os_mkdir.
  destruct (mkdir_rejects T (to_string p)) as [e |].
  { intros [= <- <-]. repeat split; auto using grows_refl. discriminate. }
  destruct (mkdir_refuses T (to_string p) (find (fs w) p)) as [r |].
  { intros [= <- <-]. repeat split; auto using grows_refl. discriminate. }
  destruct (find (fs w) p) eqn:Hfind;
    try (intros [= <- <-]; repeat split; auto using grows_refl; discriminate).
  intros [= <- <-]. cbn [stdout fs set_fs].
  unfold find in Hfind.
  destruct (parts p) as [| c l] eqn:Hparts; [discriminate |].
  destruct (walk (fs w) (ancestors p)) eqn:Hwalk; try discriminate.
  destruct (fs w !! to_string p) eqn:Hp; [discriminate |].
  pose proof (grows_insert (fs w) (to_string p) Hp) as Hg.
  split; [reflexivity | split; [exact Hg | split; [| discriminate]]].
  intros _. unfold is_dir_in. rewrite Hparts.
  rewrite (walk_grows _ _ _ Hg Hwalk), lookup_insert_eq. reflexivity.
Qed.

Lemma unless_is_dir_inv (p : Path) (e : PyExc) (w w' : World) (res : Res unit) :
  unless_is_dir p e w = (res, w') ->
  w' = w /\ (res = Ok tt -> is_dir_in (fs w) p = true).
Proof.
  unfold unless_is_dir, bind, is_dir, gets. destruct (isinstance e OSError).
  - destruct (is_dir_in (fs w) p); intros [= <- <-];
      (split; [reflexivity | auto; discriminate]).
  - intros [= <- <-]. split; [reflexivity | discriminate].
Qed.

Lemma mkdir_exist_ok_inv (p : Path) (w w' : World) (res : Res unit) :
  mkdir_exist_ok T p w = (res, w') ->
  stdout w' = stdout w /\ grows (fs w) (fs w') /\
  (res = Ok tt -> is_dir_in (fs w') p = true).
Proof.
  unfold mkdir_exist_ok, try_except.
  destruct (os_mkdir T p w) as [[[] | e] wm] eqn:Hm;
    destruct (os_mkdir_inv _ _ _ _ Hm) as (Hout & Hg & Hdir & Hsame).
  - intros [= <- <-]. auto.
  - rewrite (Hsame e eq_refl). destruct (isinstance e FileNotFoundError).
    + intros [= <- <-]. repeat split; auto using grows_refl. discriminate.
    + intros H. apply unless_is_dir_inv in H as [-> Hd].
      repeat split; auto using grows_refl.
Qed.

Lemma mkdir_parents_eq (p : Path) (up : list Path) :
  mkdir_parents T p up
  = try_except (os_mkdir T p)
      (fun e =>
         if isinstance e FileNotFoundError then
           match up with
           | [] => raise e
           | q :: up' => bind (mkdir_parents T q up') (fun _ => mkdir_exist_ok T p)
           end
         else unless_is_dir p e).
Proof. destruct up; reflexivity. Qed.

(** Whatever its outcome, [mkdir] with [parents=True] prints nothing,
    keeps every entry and adds directories only; when it returns, the
    path is a directory. *)
Lemma mkdir_parents_inv (up : list Path) (p : Path) (w w' : World) (res : Res unit) :
  mkdir_parents T p up w = (res, w') ->
  stdout w' = stdout w /\ grows (fs w) (fs w') /\
  (res = Ok tt -> is_dir_in (fs w') p = true).
Proof.
  revert p w w' res. induction up as [| q up' IH]; intros p w w' res;
    rewrite mkdir_parents_eq; unfold try_except;
    destruct (os_mkdir T p w) as [[[] | e] wm] eqn:Hm;
    destruct (os_mkdir_inv _ _ _ _ Hm) as (Hout & Hg & Hdir & Hsame);
    try (intros [= <- <-]; now auto).
  - rewrite (Hsame e eq_refl). destruct (isinstance e FileNotFoundError).
    + intros [= <- <-]. repeat split; auto using grows_refl. discriminate.
    + intros H. apply unless_is_dir_inv in H as [-> Hd].
      repeat split; auto using grows_refl.
  - rewrite (Hsame e eq_refl). destruct (isinstance e FileNotFoundError).
    + unfold bind.
      destruct (mkdir_parents T q up' w) as [[[] | e'] wa] eqn:Ha;
        destruct (IH _ _ _ _ Ha) as (Hout1 & Hg1 & _).
      * intros H. destruct (mkdir_exist_ok_inv _ _ _ _ H) as (Hout2 & Hg2 & Hd2).
        split; [congruence | split; [eauto using grows_trans | exact Hd2]].
      * intros [= <- <-]. split; [exact Hout1 | split; [exact Hg1 | discriminate]].
    + intros H. apply unless_is_dir_inv in H as [-> Hd].
      repeat split; auto using grows_refl.
Qed.

Lemma isinstance_refusal (r : Refusal) :
  isinstance (refusal_exc r) FileNotFoundError = false /\
  isinstance (refusal_exc r) OSError = true.
Proof. destruct r; split; reflexivity. Qed.

(** A directory that [mkdir] has made or found is found again. *)
Lemma mkdir_parents_again (up : list Path) (p : Path) (w w1 : World) :
  mkdir_parents T p up w = (Ok tt, w1) ->
  mkdir_parents T p up w1 = (Ok tt, w1).
Proof.
  intros H. destruct (mkdir_parents_inv _ _ _ _ _ H) as (_ & _ & Hdir).
  specialize (Hdir eq_refl).
  assert (Hfound : forall e,
            isinstance e OSError = true -> unless_is_dir p e w1 = (Ok tt, w1)).
  { intros e Hos. unfold unless_is_dir, bind, is_dir, gets. now rewrite Hos, Hdir. }
  rewrite mkdir_parents_eq in H |- *. unfold try_except in H |- *.
  unfold os_mkdir in H |- *.
  destruct (mkdir_rejects T (to_string p)) as [e |] eqn:Hrej.
  - destruct (isinstance e FileNotFoundError) eqn:Hfnf.
    + destruct up as [| q up']; [discriminate H |].
      unfold bind in H.
      destruct (mkdir_parents T q up' w) as [[[] | e'] wa]; [| discriminate H].
      unfold mkdir_exist_ok, try_except, os_mkdir in H.
      rewrite Hrej, Hfnf in H. discriminate H.
    + destruct (isinstance e OSError) eqn:Hos; [now apply Hfound |].
      unfold unless_is_dir in H. rewrite Hos in H. discriminate H.
  - rewrite (is_dir_find _ _ Hdir).
    destruct (mkdir_refuses T (to_string p) AlreadyThere) as [r |].
    + destruct (isinstance_refusal r) as [-> Hos]. now apply Hfound.
    + now apply Hfound.
Qed.

(** [ensure_dir] prints nothing, keeps every entry and adds directories
    only, whatever its outcome. *)
Lemma ensure_dir_frame (path : string) (w w1 : World) (res : Res Path) :
  Utils.ensure_dir T path w = (res, w1) ->
  stdout w1 = stdout w /\ grows (fs w) (fs w1).
Proof.
  unfold Utils.ensure_dir, bind, mkdir_parents_exist_ok, ret.
  destruct (mkdir_parents T (of_string path) (parents (of_string path)) w)
    as [[[] | e] wm] eqn:Hm;
    destruct (mkdir_parents_inv _ _ _ _ _ Hm) as (Hout & Hg & _);
    intros [= <- <-]; auto.
Qed.

(** [ensure_dir] that returns: the path is the one it was given and is a
    directory, and a second call finds it. *)
Lemma ensure_dir_ok (path : string) (w w1 : World) (d : Path) :
  Utils.ensure_dir T path w = (Ok d, w1) ->
  d = of_string path /\
  stdout w1 = stdout w /\
  grows (fs w) (fs w1) /\
  (parts d <> [] -> fs w1 !! to_string d = Some Dir) /\
  Utils.ensure_dir T path w1 = (Ok d, w1).
Proof.
  intros H. destruct (ensure_dir_frame _ _ _ _ H) as [Hout Hg].
  revert H. unfold Utils.ensure_dir, bind, mkdir_parents_exist_ok, ret.
  destruct (mkdir_parents T (of_string path) (parents (of_string path)) w)
    as [[[] | e] wm] eqn:Hm; [| discriminate].
  intros [= <- <-].
  destruct (mkdir_parents_inv _ _ _ _ _ Hm) as (_ & _ & Hdir).
  split; [reflexivity | split; [exact Hout | split; [exact Hg | split]]].
  - apply is_dir_lookup. now apply Hdir.
  - now rewrite (mkdir_parents_again _ _ _ _ Hm).
Qed.

End Mkdir.


(** ** Comparison of two runs *)

Section CompareResults.

Import Runner.

(** A result that reports success carries its timing and correctness
    dictionaries: this is the shape [run] produces. *)
Lemma compare_results_populated (new_results old_results : Results) tn to cn co :
  success new_results = true -> success old_results = true ->
  timing new_results = Some tn -> timing old_results = Some to ->
  correctness new_results = Some cn -> correctness old_results = Some co ->
  _compare_results new_results old_results =
    Ok (CmpStats
          (mkStats (f64_div (mean_ms to) (mean_ms tn))
             (f64_mul (f64_sub (f64_div (mean_ms to) (mean_ms tn)) (f64_of_Z 1))
                (f64_of_Z 100))
             (mean_ms to) (mean_ms tn) (passed cn && passed co))).
Proof.
  intros Hn Ho Htn Hto Hcn Hco.
  unfold _compare_results, get_mean_ms, get_passed.
  rewrite Hn, Ho, Htn, Hto, Hcn, Hco. simpl.
  destruct (passed cn); reflexivity.
Qed.

(** C1.  For two run results that both report success, the comparison
    has speedup = baseline mean / candidate mean (binary64 division),
    speedup_percent = (speedup - 1) * 100 and both_correct = the
    conjunction of the two [passed] flags; with a baseline mean of 2.0 ms
    and a candidate mean of 1.0 ms the speedup is 2.0 and the percentage
    is 100.0. *)
Theorem compare_results_speedup (new_results old_results : Results) tn to cn co :
  success new_results = true -> success old_results = true ->
  timing new_results = Some tn -> timing old_results = Some to ->
  correctness new_results = Some cn -> correctness old_results = Some co ->
  exists st,
    _compare_results new_results old_results = Ok (CmpStats st) /\
    speedup st = f64_div (mean_ms to) (mean_ms tn) /\
    speedup_percent st = f64_mul (f64_sub (speedup st) (f64_of_Z 1)) (f64_of_Z 100) /\
    both_correct st = (passed cn && passed co) /\
    (mean_ms to = f64_of_Z 2 -> mean_ms tn = f64_of_Z 1 ->
     speedup st = f64_of_Z 2 /\ speedup_percent st = f64_of_Z 100).
Proof.
  intros Hn Ho Htn Hto Hcn Hco.
  eexists. split.
  - apply compare_results_populated; eassumption.
  - simpl. split; [reflexivity |]. split; [reflexivity |].
    split; [reflexivity |].
    intros H2 H1. rewrite H2, H1. split; reflexivity.
Qed.

Lemma compare_results_speedup_witness :
  exists st,
    _compare_results Demo.candidate_1ms Demo.baseline_2ms = Ok (CmpStats st) /\
    speedup st = f64_of_Z 2 /\ speedup_percent st = f64_of_Z 100 /\
    both_correct st = true.
Proof.
  destruct (compare_results_speedup Demo.candidate_1ms Demo.baseline_2ms
              _ _ _ _ eq_refl eq_refl eq_refl eq_refl eq_refl eq_refl)
    as (st & Hc & Hs & Hp & Hb & H21).
  exists st. destruct (H21 eq_refl eq_refl) as [H2 H100].
  repeat split; assumption.
Defined.

(** The failure message as the source spells it. *)
Lemma compare_results_failed_message :
  _compare_results Demo.failed_result Demo.baseline_2ms
    <> Ok (CmpError "one or both kernels failed")
  /\ _compare_results Demo.failed_result Demo.baseline_2ms
    = Ok (CmpError "One or both kernels failed").
Proof. split; [discriminate | reflexivity]. Qed.

(** C2 (amended).  When at least one of the two results reports failure,
    the comparison returns normally, and what it returns is the error
    payload with the message "One or both kernels failed": it carries no
    speedup. *)
Theorem compare_results_failed (new_results old_results : Results) :
  success new_results = false \/ success old_results = false ->
  _compare_results new_results old_results = Ok (CmpError "One or both kernels failed")
  /\ (forall st, _compare_results new_results old_results <> Ok (CmpStats st))
  /\ (forall e, _compare_results new_results old_results <> Raise e).
Proof.
  intros H.
  assert (Hr : _compare_results new_results old_results
               = Ok (CmpError "One or both kernels failed")).
  { unfold _compare_results. destruct H as [H | H]; rewrite H.
    - reflexivity.
    - rewrite andb_false_r. reflexivity. }
  rewrite Hr. repeat split; intros; discriminate.
Qed.

Lemma compare_results_failed_witness :
  _compare_results Demo.failed_result Demo.baseline_2ms
    = Ok (CmpError "One or both kernels failed").
Proof.
  apply (compare_results_failed Demo.failed_result Demo.baseline_2ms).
  left. reflexivity.
Defined.

End CompareResults.

(** ** External tools *)

Section ExternalTools.

Import Pathlib OS Utils.

(** *** The failure message determines the exit code and the diagnostics *)

Lemma no_colon_cons c s : c <> ":"%char -> no_colon s -> no_colon (String c s).
Proof.
  intros Hc Hs [| i]; simpl.
  - intros [= ->]. now apply Hc.
  - apply Hs.
Qed.

Lemma no_colon_tail c s : no_colon (String c s) -> c <> ":"%char /\ no_colon s.
Proof.
  intros H. split.
  - intros ->. now apply (H 0%nat).
  - intros i. apply (H (S i)).
Qed.

Lemma no_colon_digits (d : Decimal.uint) : no_colon (NilEmpty.string_of_uint d).
Proof.
  induction d; simpl; try (apply no_colon_cons; [discriminate | assumption]).
  intros i. destruct i; discriminate.
Qed.

Lemma no_colon_str_int (z : Z) : no_colon (str_int z).
Proof.
  unfold str_int, NilZero.string_of_int, NilZero.string_of_uint.
  destruct (Z.to_int z) as [d | d].
  - destruct d; try apply no_colon_digits.
    apply no_colon_cons; [discriminate |]. intros i. destruct i; discriminate.
  - apply no_colon_cons; [discriminate |].
    destruct d; try apply no_colon_digits.
    apply no_colon_cons; [discriminate |]. intros i. destruct i; discriminate.
Qed.

(** Two strings without a colon, each followed by a colon and a rest:
    equal wholes have equal parts. *)
Lemma split_at_colon (s1 s2 x y : string) :
  no_colon s1 -> no_colon s2 ->
  s1 +:+ String ":" x = s2 +:+ String ":" y -> s1 = s2 /\ x = y.
Proof.
  revert s2. induction s1 as [| c s1 IH]; intros [| c2 s2] H1 H2; simpl; intros E.
  - now inversion E.
  - inversion E; subst. apply no_colon_tail in H2. now destruct H2.
  - inversion E; subst. apply no_colon_tail in H1. now destruct H1.
  - inversion E; subst.
    apply no_colon_tail in H1, H2.
    destruct (IH s2) as [-> ->]; tauto.
Qed.

Lemma to_int_not_nil (z : Z) : Z.to_int z <> Decimal.Pos Decimal.Nil /\
                               Z.to_int z <> Decimal.Neg Decimal.Nil.
Proof.
  destruct z; simpl; split; try discriminate;
    intros [= H]; now apply DecimalPos.Unsigned.to_uint_nonnil in H.
Qed.

Lemma str_int_inj (z1 z2 : Z) : str_int z1 = str_int z2 -> z1 = z2.
Proof.
  unfold str_int. intros E.
  assert (Some (Z.to_int z1) = Some (Z.to_int z2)) as [= E'].
  { destruct (to_int_not_nil z1), (to_int_not_nil z2).
    rewrite <- (NilZero.isi (Z.to_int z1)), <- (NilZero.isi (Z.to_int z2)) by assumption.
    now rewrite E. }
  rewrite <- (DecimalZ.of_to z1), <- (DecimalZ.of_to z2). now rewrite E'.
Qed.

Lemma command_failed_message_inj rc1 rc2 err1 err2 :
  command_failed_message rc1 err1 = command_failed_message rc2 err2 ->
  rc1 = rc2 /\ err1 = err2.
Proof.
  unfold command_failed_message. simpl. intros E.
  injection E as E.
  apply split_at_colon in E; try apply no_colon_str_int.
  destruct E as [E1 E2]. split.
  - now apply str_int_inj.
  - now injection E2.
Qed.

(** *** [run_command] *)

(** The command is not part of the failure: two different commands that
    exit with the same status and the same diagnostics raise the same
    exception. *)
Lemma run_command_error_omits_command :
  ["nvdisasm"; "-g"; "-c"; "gone.cubin"] <> ["nvdisasm"; "-g"; "-c"; "lost.cubin"]
  /\ (let T := mkTools (fun _ _ f => (Exited 1 "" "fatal", f)) (fun _ => None) (fun _ _ => None) in
      fst (run_command T ["nvdisasm"; "-g"; "-c"; "gone.cubin"] None Demo.demo_os)
      = fst (run_command T ["nvdisasm"; "-g"; "-c"; "lost.cubin"] None Demo.demo_os)
      /\ fst (run_command T ["nvdisasm"; "-g"; "-c"; "gone.cubin"] None Demo.demo_os)
      = Raise (mkExc RuntimeError (command_failed_message 1 "fatal"))).
Proof. split; [discriminate | split; reflexivity]. Qed.

(** C7 (amended).  [run_command] returns [(stdout, stderr)] when the
    process exits with status zero.  A non-zero status becomes a
    [RuntimeError] whose message is built from the exit status and the
    captured standard error, and from nothing else; the status and the
    diagnostics can be read back from it.  A process that cannot be
    started leaves [run_command] with the exception of the spawn: for a
    missing executable that is [FileNotFoundError], of another class than
    the [RuntimeError] of a failing invocation. *)
Theorem run_command_outcomes (T : Tools) (cmd : list string) (cwd : option string)
  (w : World) :
  (forall out err f,
     exec T cwd cmd (fs w) = (Exited 0 out err, f) ->
     run_command T cmd cwd w = (Ok (out, err), set_fs f w)) /\
  (forall rc out err f,
     exec T cwd cmd (fs w) = (Exited rc out err, f) -> rc <> 0%Z ->
     run_command T cmd cwd w
     = (Raise (mkExc RuntimeError (command_failed_message rc err)), set_fs f w)) /\
  (forall rc1 rc2 err1 err2,
     command_failed_message rc1 err1 = command_failed_message rc2 err2 ->
     rc1 = rc2 /\ err1 = err2) /\
  (forall e f,
     exec T cwd cmd (fs w) = (SpawnFailed e, f) ->
     run_command T cmd cwd w = (Raise e, set_fs f w)) /\
  (forall msg f,
     exec T cwd cmd (fs w) = (SpawnFailed (mkExc FileNotFoundError msg), f) ->
     exists e, fst (run_command T cmd cwd w) = Raise e /\
               exc_kind e = FileNotFoundError /\ exc_kind e <> RuntimeError).
Proof.
  unfold run_command, subprocess_run.
  split; [| split; [| split; [| split]]].
  - intros out err f ->. reflexivity.
  - intros rc out err f -> Hrc.
    destruct (Z.eqb_spec rc 0) as [-> | _]; [now destruct Hrc | reflexivity].
  - intros rc1 rc2 err1 err2. apply command_failed_message_inj.
  - intros e f ->. reflexivity.
  - intros msg f ->. eexists. split; [reflexivity |]. split; [reflexivity |].
    discriminate.
Qed.

Lemma run_command_outcomes_witness :
  run_command Demo.demo_tools ["nvdisasm"; "-g"; "-c"; "build/vec.cubin"] None Demo.demo_os
  = (Ok ("        /*0000*/  MOV R1, c[0x0][0x28] ;", ""), Demo.demo_os)
  /\ run_command Demo.demo_tools ["nvdisasm"; "-g"; "-c"; "gone.cubin"] None Demo.demo_os
  = (Raise (mkExc RuntimeError
       (command_failed_message 1
          "nvdisasm fatal   : Could not open input file 'gone.cubin'")), Demo.demo_os)
  /\ run_command Demo.demo_tools ["nvcc"; "--version"] None Demo.demo_os
  = (Raise (mkExc FileNotFoundError "[Errno 2] No such file or directory: 'nvcc'"),
     Demo.demo_os).
Proof.
  split; [| split].
  - apply (proj1 (run_command_outcomes Demo.demo_tools _ None Demo.demo_os)).
    reflexivity.
  - apply (proj1 (proj2 (run_command_outcomes Demo.demo_tools _ None Demo.demo_os))
             1%Z "").
    + reflexivity.
    + discriminate.
  - apply (proj1 (proj2 (proj2 (proj2
             (run_command_outcomes Demo.demo_tools _ None Demo.demo_os))))).
    reflexivity.
Defined.

(** *** [ensure_dir] *)

Lemma ensure_dir_ok_path (T : Tools) (path : string) (w w1 : World) (d : Path) :
  ensure_dir T path w = (Ok d, w1) -> d = of_string path /\ stdout w1 = stdout w.
Proof. intros H. destruct (ensure_dir_ok T _ _ _ _ H) as (Hd & Hout & _). auto. Qed.

(** *** [Compiler.compile] *)

Import Compiler.




(** *** Missing input artefacts *)

Import Assembler Disassembler.

(** X17.  [assemble] looks for its input before it calls the tool: a missing
    input raises [FileNotFoundError], and nothing but the output directory
    has been created. *)
Lemma assemble_missing_input (T : Tools) (cuasm_file output_dir : string)
  (w w1 : World) (d : Path) :
  ensure_dir T output_dir w = (Ok d, w1) ->
  fs w1 !! to_string (of_string cuasm_file) = None ->
  assemble T cuasm_file output_dir w
  = (Raise (mkExc FileNotFoundError
      ("Could not find " +:+ to_string (of_string cuasm_file)
       +:+ ". Please run disassemble first.")), w1).
Proof.
  intros Hdir Hnone. unfold assemble, bind. rewrite Hdir.
  unfold exists_, gets. rewrite Hnone. simpl negb.
  rewrite bool_decide_eq_false_2; [reflexivity |].
  intros [x Hx]. discriminate.
Qed.

(** X18.  [disassemble] calls [nvdisasm] straight away: whatever the tool
    reports for the input is what the caller gets. *)
Lemma disassemble_tool_failure (T : Tools) (cubin_file output_dir : string)
  (w w1 : World) (d : Path) rc out err f :
  ensure_dir T output_dir w = (Ok d, w1) ->
  exec T None ["nvdisasm"; "-g"; "-c"; to_string (of_string cubin_file)] (fs w1)
  = (Exited rc out err, f) ->
  rc <> 0%Z ->
  disassemble T cubin_file output_dir w
  = (Raise (mkExc RuntimeError (command_failed_message rc err)), set_fs f w1).
Proof.
  intros Hdir Hexec Hrc. unfold disassemble, bind. rewrite Hdir.
  unfold run_command, subprocess_run. rewrite Hexec.
  destruct (Z.eqb_spec rc 0) as [-> | _]; [contradiction | reflexivity].
Qed.

(** C8.  The cubin is missing and [nvdisasm] is installed: [disassemble]
    raises the [RuntimeError] of the failing tool, where [assemble], for a
    missing input of its own, raises [FileNotFoundError]. *)
Theorem disassemble_missing_input :
  Demo.demo_fs !! "build/missing.cubin" = None
  /\ disassemble Demo.demo_tools "build/missing.cubin" "build" Demo.demo_os
  = (Raise (mkExc RuntimeError
       (command_failed_message 1
          "nvdisasm fatal   : Could not open input file 'build/missing.cubin'")),
     Demo.demo_os)
  /\ assemble Demo.demo_tools "build/missing.cuasm" "build" Demo.demo_os
  = (Raise (mkExc FileNotFoundError
       "Could not find build/missing.cuasm. Please run disassemble first."),
     Demo.demo_os).
Proof. vm_compute. repeat split. Qed.

End ExternalTools.

(** ** Relations that every computation of the runner respects *)

Section Respects.

Context {S : Type} (R : S -> S -> Prop).
Hypothesis R_refl : forall s, R s s.
Hypothesis R_trans : forall s1 s2 s3, R s1 s2 -> R s2 s3 -> R s1 s3.

Lemma respects_ret {A} (x : A) : respects R (ret x).
Proof. intros s. apply R_refl. Qed.

Lemma respects_raise {A} e : respects R (raise (A := A) e).
Proof. intros s. apply R_refl. Qed.

Lemma respects_lift_res {A} (r : Res A) : respects R (lift_res r).
Proof. intros s. apply R_refl. Qed.

Lemma respects_gets {A} (f : S -> A) : respects R (gets f).
Proof. intros s. apply R_refl. Qed.

Lemma respects_bind {A B} (m : M S A) (k : A -> M S B) :
  respects R m -> (forall x, respects R (k x)) -> respects R (bind m k).
Proof.
  intros Hm Hk s. unfold bind. specialize (Hm s).
  destruct (m s) as [[x | e] s']; simpl in *.
  - eapply R_trans; [exact Hm | apply Hk].
  - exact Hm.
Qed.

Lemma respects_try_except {A} (m : M S A) (h : PyExc -> M S A) :
  respects R m -> (forall e, respects R (h e)) -> respects R (try_except m h).
Proof.
  intros Hm Hh s. unfold try_except. specialize (Hm s).
  destruct (m s) as [[x | e] s']; simpl in *.
  - exact Hm.
  - eapply R_trans; [exact Hm | apply Hh].
Qed.

Lemma respects_try_finally {A} (m : M S A) (f : M S unit) :
  respects R m -> respects R f -> respects R (try_finally m f).
Proof.
  intros Hm Hf s. unfold try_finally. specialize (Hm s).
  destruct (m s) as [r s']; simpl in *. specialize (Hf s').
  destruct (f s') as [[[] | e] s'']; simpl in *; eapply R_trans; eassumption.
Qed.

End Respects.

Section RunnerRespects.

Import Pathlib Runner.

Variable E : Env.
Variable R : World -> World -> Prop.
Hypothesis R_refl : forall w, R w w.
Hypothesis R_trans : forall w1 w2 w3, R w1 w2 -> R w2 w3 -> R w1 w3.
Hypothesis R_called : forall ev w, R w (called ev w).
Hypothesis R_set_allocs : forall nxt l w, R w (set_allocs nxt l w).
Hypothesis R_print : forall s w, R w (snd (print s w)).
Hypothesis R_ensure : forall worker, respects R (_ensure_cuda_context E worker).

Lemma on_world_refl (s : TryState) : on_world R s s.
Proof. apply R_refl. Qed.

Lemma on_world_trans (s1 s2 s3 : TryState) :
  on_world R s1 s2 -> on_world R s2 s3 -> on_world R s1 s3.
Proof. unfold on_world. apply R_trans. Qed.

Lemma respects_call {A} ev (k : nat -> World -> A * World) :
  (forall t w, R w (snd (k t w))) -> respects R (call E ev k).
Proof.
  intros Hk w. unfold call.
  destruct (fails E (tick w)); simpl.
  - apply R_called.
  - specialize (Hk (tick w) (called ev w)).
    destruct (k (tick w) (called ev w)) as [x w'']. simpl in *.
    eapply R_trans; [apply R_called | exact Hk].
Qed.

Lemma respects_call_ ev : respects R (call_ E ev).
Proof. apply respects_call. intros; apply R_refl. Qed.

Lemma respects_print s : respects R (print s).
Proof. intros w. apply R_print. Qed.

Lemma respects_in_world {A} (m : M World A) :
  respects R m -> respects (on_world R) (in_world m).
Proof.
  intros Hm [r w]. unfold in_world, on_world. simpl.
  specialize (Hm w). destruct (m w) as [x w']. exact Hm.
Qed.

Lemma respects_update f : respects (on_world R) (update f).
Proof. intros [r w]. apply R_refl. Qed.

Lemma respects_with_results {A} r0 (m : M TryState A) :
  respects (on_world R) m -> respects R (with_results r0 m).
Proof.
  intros Hm w. unfold with_results. specialize (Hm (r0, w)).
  destruct (m (r0, w)) as [[x | e] [r w']]; exact Hm.
Qed.

(** One tactic discharges the structural cases. *)
Ltac respects_tac :=
  repeat match goal with
    | |- respects R (ret _) => apply respects_ret; assumption
    | |- respects R (raise _) => apply respects_raise; assumption
    | |- respects R (lift_res _) => apply respects_lift_res; assumption
    | |- respects R (gets _) => apply respects_gets; assumption
    | |- respects R (print _) => apply respects_print
    | |- respects R (call_ _ _) => apply respects_call_
    | |- respects R (_ensure_cuda_context _ _) => apply R_ensure
    | |- respects R (bind _ _) => apply (respects_bind R R_trans); [| intros]
    | |- respects R (try_except _ _) => apply (respects_try_except R R_trans); [| intros]
    | |- respects R (try_finally _ _) => apply (respects_try_finally R R_trans)
    | |- respects R (with_results _ _) => apply respects_with_results
    | |- respects R (call _ _ _) =>
        apply respects_call; intros; simpl; first [apply R_refl | apply R_set_allocs]
    | |- respects (on_world R) (update _) => apply respects_update
    | |- respects (on_world R) (in_world _) => apply respects_in_world
    | |- respects (on_world R) (ret _) => apply (respects_ret (on_world R) on_world_refl)
    | |- respects (on_world R) (raise _) =>
        apply (respects_raise (on_world R) on_world_refl)
    | |- respects (on_world R) (lift_res _) =>
        apply (respects_lift_res (on_world R) on_world_refl)
    | |- respects (on_world R) (gets _) =>
        apply (respects_gets (on_world R) on_world_refl)
    | |- respects (on_world R) (bind _ _) =>
        apply (respects_bind (on_world R) on_world_trans); [| intros]
    | |- respects (on_world R) (try_except _ _) =>
        apply (respects_try_except (on_world R) on_world_trans); [| intros]
    | |- respects (on_world R) (try_finally _ _) =>
        apply (respects_try_finally (on_world R) on_world_trans)
    end.

Lemma respects_mem_alloc nbytes : respects R (mem_alloc E nbytes).
Proof. unfold mem_alloc. respects_tac. Qed.

Lemma respects_free buf : respects R (free E buf).
Proof. unfold free. respects_tac. Qed.

Lemma respects_memcpy_dtoh src n : respects R (memcpy_dtoh E src n).
Proof. unfold memcpy_dtoh. respects_tac. Qed.

Lemma respects_perf_counter : respects R (perf_counter E).
Proof. unfold perf_counter. respects_tac. Qed.

Lemma respects_random_rand32 n : respects R (random_rand32 E n).
Proof. unfold random_rand32. destruct (n <? 0)%Z; respects_tac. Qed.

Lemma respects_load_cubin p : respects R (_load_cubin E p).
Proof. unfold _load_cubin. respects_tac. Qed.

Lemma respects_run_prelude worker cubin_file args_str :
  respects R (run_prelude E worker cubin_file args_str).
Proof.
  unfold run_prelude, parse_kernel_args, memcpy_htod.
  respects_tac;
    first [apply respects_load_cubin | apply respects_random_rand32
          | apply respects_mem_alloc].
Qed.

Lemma respects_benchmark L k times : respects R (benchmark E L k times).
Proof.
  revert times. induction k as [| k IH]; intros times; simpl.
  - respects_tac.
  - unfold launch, synchronize.
    respects_tac; first [apply respects_perf_counter | apply IH].
Qed.

Lemma respects_run_finally L : respects R (run_finally E L).
Proof. unfold run_finally. respects_tac; apply respects_free. Qed.

Lemma respects_run_try self_run L args_str compare_with :
  (forall f a, respects R (self_run f a)) ->
  respects (on_world R) (run_try E self_run L args_str compare_with).
Proof.
  intros Hself. unfold run_try, launch, synchronize.
  respects_tac;
    try first [apply respects_benchmark | apply respects_memcpy_dtoh].
  destruct (truthy compare_with); respects_tac. apply Hself.
Qed.

Lemma respects_run_open self_run worker cubin_file args_str compare_with :
  (forall f a, respects R (self_run f a)) ->
  respects R (run_open E self_run worker cubin_file args_str compare_with).
Proof.
  intros Hself. unfold run_open, run_except.
  respects_tac.
  - apply respects_run_prelude.
  - apply respects_run_try, Hself.
  - apply respects_run_finally.
Qed.

Lemma respects_run_inner worker cubin_file args_str :
  respects R (run_inner E worker cubin_file args_str).
Proof. apply respects_run_open. intros. now apply respects_raise. Qed.

Lemma respects_run worker cubin_file args_str compare_with :
  respects R (run E worker cubin_file args_str compare_with).
Proof. apply respects_run_open. intros. apply respects_run_inner. Qed.

End RunnerRespects.

(** ** Execution contexts *)

Section Contexts.

Import Runner.

Variable E : Env.

(** The invariant reads the class attributes only. *)
Lemma ctx_inv_same_attributes (w w' : World) :
  thread_local w' = thread_local w ->
  contexts_to_cleanup w' = contexts_to_cleanup w ->
  next_ctx w' = next_ctx w ->
  cleanup_registered w' = cleanup_registered w ->
  atexit_handlers w' = atexit_handlers w ->
  ctx_inv w -> ctx_inv w'.
Proof.
  intros Htl Hcs Hnx Hreg Hat [H1 H2 H3 H4 H5 H6 H7].
  constructor; rewrite ?Htl, ?Hcs, ?Hnx, ?Hreg, ?Hat; assumption.
Qed.

Lemma keeps_refl (w : World) : keeps_ctx_inv w w.
Proof. intros H1 H2. now split. Qed.

Lemma keeps_trans (w1 w2 w3 : World) :
  keeps_ctx_inv w1 w2 -> keeps_ctx_inv w2 w3 -> keeps_ctx_inv w1 w3.
Proof. intros H12 H23 Hi Hr. destruct (H12 Hi Hr). now apply H23. Qed.

Lemma keeps_same_attributes (w w' : World) :
  thread_local w' = thread_local w ->
  contexts_to_cleanup w' = contexts_to_cleanup w ->
  next_ctx w' = next_ctx w ->
  cleanup_registered w' = cleanup_registered w ->
  atexit_handlers w' = atexit_handlers w ->
  keeps_ctx_inv w w'.
Proof.
  intros Htl Hcs Hnx Hreg Hat Hi Hr. split.
  - now apply (ctx_inv_same_attributes w).
  - now rewrite Hreg.
Qed.

Lemma keeps_called ev w : keeps_ctx_inv w (called ev w).
Proof. now apply keeps_same_attributes. Qed.

Lemma keeps_set_allocs nxt l w : keeps_ctx_inv w (set_allocs nxt l w).
Proof. now apply keeps_same_attributes. Qed.

Lemma keeps_print s w : keeps_ctx_inv w (snd (print s w)).
Proof. now apply keeps_same_attributes. Qed.

(** Registering a fresh context for a worker that has none. *)
Lemma ctx_inv_register (w w' : World) (worker : nat) :
  ctx_inv w -> cleanup_registered w = true ->
  thread_local w !! worker = None ->
  thread_local w' = <[worker := next_ctx w]> (thread_local w) ->
  contexts_to_cleanup w' = contexts_to_cleanup w ++ [next_ctx w] ->
  next_ctx w' = S (next_ctx w) ->
  cleanup_registered w' = cleanup_registered w ->
  atexit_handlers w' = atexit_handlers w ->
  ctx_inv w'.
Proof.
  intros [Hnd Hfr Hwr Hrw Hns Hat Hin] Hreg Hnone Htl Hcs Hnx Hreg' Hat'.
  constructor; rewrite ?Htl, ?Hcs, ?Hnx, ?Hreg', ?Hat'; try assumption.
  - apply NoDup_app. split; [assumption | split].
    + intros c Hc Hc'. apply list_elem_of_singleton in Hc'. subst c.
      apply Hfr in Hc. lia.
    + apply NoDup_singleton.
  - intros c Hc. apply elem_of_app in Hc as [Hc | Hc].
    + apply Hfr in Hc. lia.
    + apply list_elem_of_singleton in Hc. lia.
  - intros wk c Hl. apply elem_of_app.
    destruct (decide (wk = worker)) as [-> | Hne].
    + rewrite lookup_insert_eq in Hl. injection Hl as <-. right. constructor.
    + rewrite lookup_insert_ne in Hl by congruence. left. eapply Hwr; eassumption.
  - intros c Hc. apply elem_of_app in Hc as [Hc | Hc].
    + destruct (Hrw c Hc) as [wk Hwk]. exists wk.
      rewrite lookup_insert_ne; [assumption | congruence].
    + apply list_elem_of_singleton in Hc. subst c. exists worker.
      apply lookup_insert_eq.
  - intros wk1 wk2 c H1 H2.
    destruct (decide (wk1 = worker)) as [-> | Hne1];
      destruct (decide (wk2 = worker)) as [-> | Hne2]; try reflexivity.
    + rewrite lookup_insert_eq in H1. injection H1 as <-.
      rewrite lookup_insert_ne in H2 by congruence.
      apply Hwr, Hfr in H2. lia.
    + rewrite lookup_insert_eq in H2. injection H2 as <-.
      rewrite lookup_insert_ne in H1 by congruence.
      apply Hwr, Hfr in H1. lia.
    + rewrite lookup_insert_ne in H1, H2 by congruence. eapply Hns; eassumption.
  - intros _. now rewrite Hreg.
Qed.

Lemma keeps_ensure (worker : nat) :
  respects keeps_ctx_inv (_ensure_cuda_context E worker).
Proof.
  intros w.
  unfold _ensure_cuda_context, bind, gets. simpl.
  destruct (thread_local w !! worker) as [ctx |] eqn:Htl.
  - unfold try_except, call_, call.
    destruct (fails E (tick w)) as [e |]; simpl.
    + destruct (exc_kind e); simpl; now apply keeps_called.
    + now apply keeps_called.
  - unfold call_, call, make_context, call, modify. simpl.
    destruct (fails E (tick w)); simpl; [now apply keeps_called |].
    destruct (fails E (S (tick w))); simpl;
      [now apply (keeps_same_attributes w) |].
    destruct (fails E (S (S (tick w)))); simpl;
      [now apply (keeps_same_attributes w) |].
    intros Hinv Hreg. split; [| assumption].
    now apply (ctx_inv_register w _ worker).
Qed.

Lemma keeps_run worker cubin_file args_str compare_with :
  respects keeps_ctx_inv (run E worker cubin_file args_str compare_with).
Proof.
  apply (respects_run E keeps_ctx_inv keeps_refl keeps_trans keeps_called
           keeps_set_allocs keeps_print keeps_ensure).
Qed.

Lemma ctx_inv_initial : ctx_inv initial_world.
Proof.
  constructor; simpl; try (intros; set_solver).
  constructor.
Qed.

Lemma ctx_inv_init (w : World) : ctx_inv w -> ctx_inv (snd (__init__ w)).
Proof.
  intros Hinv. unfold __init__.
  destruct (cleanup_registered w) eqn:Hreg; simpl; [assumption |].
  destruct Hinv as [H1 H2 H3 H4 H5 H6 H7].
  constructor; simpl; try assumption.
  - rewrite H6, Hreg. reflexivity.
  - reflexivity.
Qed.

Lemma runner_step_ctx_inv (w w' : World) :
  runner_step E w w' -> ctx_inv w -> ctx_inv w'.
Proof.
  intros Hstep Hinv. destruct Hstep as [w | w worker Hreg | w worker f a c Hreg].
  - now apply ctx_inv_init.
  - now apply (keeps_ensure worker w).
  - now apply (keeps_run worker f a c w).
Qed.

Lemma reachable_ctx_inv (w : World) : reachable E w -> ctx_inv w.
Proof.
  unfold reachable. revert w.
  apply (rtc_ind_r (fun w => ctx_inv w)).
  - apply ctx_inv_initial.
  - intros w1 w2 _ Hstep IH. eapply runner_step_ctx_inv; eassumption.
Qed.

(** *** Acquiring twice *)

Lemma ensure_existing (w : World) (worker ctx : nat) :
  thread_local w !! worker = Some ctx ->
  thread_local (snd (_ensure_cuda_context E worker w)) = thread_local w /\
  contexts_to_cleanup (snd (_ensure_cuda_context E worker w)) = contexts_to_cleanup w /\
  next_ctx (snd (_ensure_cuda_context E worker w)) = next_ctx w.
Proof.
  intros Htl. unfold _ensure_cuda_context, bind, gets. simpl. rewrite Htl.
  unfold try_except, call_, call.
  destruct (fails E (tick w)) as [e |]; simpl; [destruct (exc_kind e) |]; auto.
Qed.

Lemma ensure_ok_has_context (w w1 : World) (worker : nat) :
  _ensure_cuda_context E worker w = (Ok tt, w1) ->
  is_Some (thread_local w1 !! worker).
Proof.
  unfold _ensure_cuda_context, bind, gets. simpl.
  destruct (thread_local w !! worker) as [ctx |] eqn:Htl.
  - unfold try_except, call_, call.
    destruct (fails E (tick w)) as [e |]; simpl;
      [destruct (exc_kind e) |]; simpl; intros [= <-]; simpl; rewrite Htl; eauto.
  - unfold call_, call, make_context, call, modify. simpl.
    destruct (fails E (tick w)); simpl; [discriminate |].
    destruct (fails E (S (tick w))); simpl; [discriminate |].
    destruct (fails E (S (S (tick w)))); simpl; [discriminate |].
    intros [= <-]. simpl. rewrite lookup_insert_eq. eauto.
Qed.

(** As many contexts are registered as there are workers that hold one. *)
Lemma ctx_inv_one_per_worker (w : World) :
  ctx_inv w -> length (contexts_to_cleanup w) = size (thread_local w).
Proof.
  intros [Hnd _ Hwr Hrw Hns _ _].
  rewrite <- (length_map_to_list (thread_local w)).
  rewrite <- (length_fmap snd (map_to_list (thread_local w))).
  apply Permutation_length, NoDup_Permutation.
  - assumption.
  - apply NoDup_fmap_2_strong; [| apply NoDup_map_to_list].
    intros [wk1 c1] [wk2 c2] H1 H2. simpl. intros <-.
    apply elem_of_map_to_list in H1, H2.
    f_equal. eapply Hns; eassumption.
  - intros c. rewrite list_elem_of_fmap. split.
    + intros Hc. destruct (Hrw c Hc) as [wk Hwk].
      exists (wk, c). split; [reflexivity |]. now apply elem_of_map_to_list.
    + intros [[wk c'] [-> Hin]]. apply elem_of_map_to_list in Hin.
      eapply Hwr; eassumption.
Qed.

(** *** Teardown *)

Lemma advance_advance (l1 l2 : list Event) (w : World) :
  advance l2 (advance l1 w) = advance (l1 ++ l2) w.
Proof.
  unfold advance. simpl. rewrite length_app, <- app_assoc. f_equal. lia.
Qed.

Lemma pop_all_spec (ctxs : list nat) (w : World) :
  pop_all E ctxs w = (Ok tt, advance (List.map EvCtxPop ctxs) w).
Proof.
  revert w. induction ctxs as [| c rest IH]; intros w.
  - simpl. unfold ret, advance. simpl. rewrite app_nil_r. now destruct w.
  - cbn [pop_all]. unfold bind, try_except, call_, call.
    assert (Hw : called (EvCtxPop c) w = advance [EvCtxPop c] w) by reflexivity.
    destruct (fails E (tick w)); simpl; rewrite Hw, IH, advance_advance; reflexivity.
Qed.

Lemma cleanup_all_contexts_spec (w : World) :
  _cleanup_all_contexts E w
  = (Ok tt, set_contexts (thread_local w) [] (next_ctx w)
              (advance (List.map EvCtxPop (contexts_to_cleanup w)) w)).
Proof.
  unfold _cleanup_all_contexts, bind, gets, modify.
  rewrite pop_all_spec. reflexivity.
Qed.

Lemma new_events_advance (evs : list Event) (w w' : World) :
  trace w' = trace w ++ evs -> new_events w w' = evs.
Proof. unfold new_events. intros ->. apply drop_app_length. Qed.

Lemma releases_pops_in (c : nat) (ctxs : list nat) :
  NoDup ctxs -> c ∈ ctxs -> releases c (List.map EvCtxPop ctxs) = 1.
Proof.
  unfold releases. induction ctxs as [| c' rest IH]; intros Hnd Hin.
  - inversion Hin.
  - apply NoDup_cons in Hnd as [Hnotin Hnd]. simpl.
    destruct (Nat.eqb_spec c' c) as [-> | Hne]; simpl.
    + f_equal. clear IH Hin Hnd. induction rest as [| d rest IH]; [reflexivity |].
      simpl. apply not_elem_of_cons in Hnotin as [Hne Hnotin].
      destruct (Nat.eqb_spec d c) as [-> | _]; [congruence | now apply IH].
    + apply IH; [assumption |]. apply elem_of_cons in Hin as [-> | Hin]; congruence.
Qed.

Lemma releases_pops_out (c : nat) (ctxs : list nat) :
  c ∉ ctxs -> releases c (List.map EvCtxPop ctxs) = 0.
Proof.
  unfold releases. induction ctxs as [| d rest IH]; intros Hnotin; [reflexivity |].
  simpl. apply not_elem_of_cons in Hnotin as [Hne Hnotin].
  destruct (Nat.eqb_spec d c) as [-> | _]; [congruence | now apply IH].
Qed.

Lemma process_exit_spec (w : World) :
  ctx_inv w ->
  exists w', process_exit E w = (Ok tt, w') /\
             contexts_to_cleanup w' = [] /\
             trace w' = trace w ++ List.map EvCtxPop (contexts_to_cleanup w).
Proof.
  intros Hinv. unfold process_exit, bind, gets.
  rewrite (inv_atexit w Hinv).
  destruct (cleanup_registered w) eqn:Hreg.
  - cbn [run_exit_handlers]. unfold bind, try_except, ret.
    rewrite cleanup_all_contexts_spec. eexists. split; [reflexivity |].
    split; reflexivity.
  - cbn [run_exit_handlers]. unfold ret. exists w.
    assert (Hnil : contexts_to_cleanup w = []).
    { destruct (contexts_to_cleanup w) eqn:Hc; [reflexivity |].
      pose proof (inv_instance w Hinv) as Hi. rewrite Hc in Hi.
      rewrite Hi in Hreg; [discriminate | discriminate]. }
    rewrite Hnil. simpl. rewrite app_nil_r. auto.
Qed.

(** C9.  In every state that a process can reach by creating runners,
    acquiring contexts and running kernels on any number of workers:
    a worker that has acquired a context registers nothing when it
    acquires again; there are as many registered contexts as workers that
    hold one, and no context is registered twice; and process exit
    returns normally, whichever releases fail, empties the registry, and
    pops every registered context exactly once and nothing else. *)
Theorem contexts_acquired_once_released_once (w : World) :
  reachable E w ->
  (forall worker w1,
     _ensure_cuda_context E worker w = (Ok tt, w1) ->
     contexts_to_cleanup (snd (_ensure_cuda_context E worker w1))
     = contexts_to_cleanup w1 /\
     thread_local (snd (_ensure_cuda_context E worker w1)) = thread_local w1) /\
  length (contexts_to_cleanup w) = size (thread_local w) /\
  NoDup (contexts_to_cleanup w) /\
  exists w',
    process_exit E w = (Ok tt, w') /\
    contexts_to_cleanup w' = [] /\
    new_events w w' = List.map EvCtxPop (contexts_to_cleanup w) /\
    (forall c, c ∈ contexts_to_cleanup w -> releases c (new_events w w') = 1) /\
    (forall c, c ∉ contexts_to_cleanup w -> releases c (new_events w w') = 0).
Proof.
  intros Hreach. pose proof (reachable_ctx_inv w Hreach) as Hinv.
  split; [| split; [| split]].
  - intros worker w1 Hok.
    destruct (ensure_ok_has_context _ _ _ Hok) as [ctx Hctx].
    destruct (ensure_existing w1 worker ctx Hctx) as (Htl & Hcs & _). auto.
  - now apply ctx_inv_one_per_worker.
  - apply (inv_nodup w Hinv).
  - destruct (process_exit_spec w Hinv) as (w' & Hexit & Hnil & Htrace).
    exists w'. apply new_events_advance in Htrace.
    rewrite Htrace. repeat split; try assumption.
    + intros c Hc. apply releases_pops_in; [apply (inv_nodup w Hinv) | assumption].
    + intros c Hc. now apply releases_pops_out.
Qed.

End Contexts.

Lemma two_workers_reachable : reachable Demo.pop_fails_env Demo.two_workers.
Proof.
  unfold reachable, Demo.two_workers.
  eapply rtc_l; [apply step_init |].
  eapply rtc_l; [apply (step_ensure _ _ 0); vm_compute; reflexivity |].
  eapply rtc_l; [apply (step_ensure _ _ 1); vm_compute; reflexivity |].
  eapply rtc_l; [apply (step_ensure _ _ 0); vm_compute; reflexivity |].
  apply rtc_refl.
Qed.

Lemma two_workers_registry : Runner.contexts_to_cleanup Demo.two_workers = [0; 1].
Proof. vm_compute. reflexivity. Qed.

Lemma contexts_acquired_once_released_once_witness :
  reachable Demo.pop_fails_env Demo.two_workers /\
  Runner.contexts_to_cleanup Demo.two_workers = [0; 1] /\
  exists w',
    Runner.process_exit Demo.pop_fails_env Demo.two_workers = (Ok tt, w') /\
    new_events Demo.two_workers w' = [Runner.EvCtxPop 0; Runner.EvCtxPop 1] /\
    releases 0 (new_events Demo.two_workers w') = 1 /\
    releases 1 (new_events Demo.two_workers w') = 1.
Proof.
  split; [exact two_workers_reachable | split; [exact two_workers_registry |]].
  destruct (contexts_acquired_once_released_once Demo.pop_fails_env
              Demo.two_workers two_workers_reachable)
    as (_ & _ & _ & w' & Hexit & _ & Hnew & Hin & _).
  rewrite two_workers_registry in Hnew, Hin.
  exists w'. split; [exact Hexit | split; [exact Hnew | split]].
  - apply Hin. apply list_elem_of_here.
  - apply Hin. apply list_elem_of_further, list_elem_of_here.
Defined.

(** ** The benchmark run *)

Section MonadInversion.

Context {S : Type}.

Lemma bind_inv {A B} (m : M S A) (k : A -> M S B) (s s' : S) (res : Res B) :
  bind m k s = (res, s') ->
  (exists e, m s = (Raise e, s') /\ res = Raise e) \/
  (exists y sm, m s = (Ok y, sm) /\ k y sm = (res, s')).
Proof.
  unfold bind. destruct (m s) as [[y | e] sm].
  - intros H. right. eauto.
  - intros [= <- <-]. left. eauto.
Qed.

Lemma bind_ok_inv {A B} (m : M S A) (k : A -> M S B) (s s' : S) (x : B) :
  bind m k s = (Ok x, s') ->
  exists y sm, m s = (Ok y, sm) /\ k y sm = (Ok x, s').
Proof.
  intros H. apply bind_inv in H as [(e & _ & [=]) | H]. exact H.
Qed.

Lemma lift_res_inv {A} (x res : Res A) (s s' : S) :
  lift_res x s = (res, s') -> res = x /\ s' = s.
Proof. unfold lift_res. now intros [= <- <-]. Qed.

End MonadInversion.

Section RunInversion.

Import Pathlib Runner.

Variable E : Env.

Lemma in_world_inv {A} (m : M World A) r w res r' w' :
  in_world m (r, w) = (res, (r', w')) -> r' = r /\ m w = (res, w').
Proof.
  unfold in_world. simpl. destruct (m w) as [x w'']. now intros [= <- <- <-].
Qed.

Lemma call_ok_inv {A} ev (k : nat -> World -> A * World) w x w' :
  call E ev k w = (Ok x, w') ->
  fails E (tick w) = None /\ k (tick w) (called ev w) = (x, w').
Proof.
  unfold call. destruct (fails E (tick w)); [discriminate |].
  destruct (k (tick w) (called ev w)). now intros [= <- <-].
Qed.

Lemma call_raise_inv {A} ev (k : nat -> World -> A * World) w e w' :
  call E ev k w = (Raise e, w') ->
  fails E (tick w) = Some e /\ w' = called ev w.
Proof.
  unfold call. destruct (fails E (tick w)).
  - now intros [= <- <-].
  - destruct (k (tick w) (called ev w)). discriminate.
Qed.

Lemma call_ok ev {A} (k : nat -> World -> A * World) w :
  fails E (tick w) = None ->
  call E ev k w = (Ok (fst (k (tick w) (called ev w))), snd (k (tick w) (called ev w))).
Proof. unfold call. intros ->. now destruct (k (tick w) (called ev w)). Qed.

Lemma call_raise ev {A} (k : nat -> World -> A * World) w e :
  fails E (tick w) = Some e -> call E ev k w = (Raise e, called ev w).
Proof. unfold call. now intros ->. Qed.

(** One step through a [try] block: the first computation of a [bind]
    either raised, leaving [results] as it was, or went on. *)
Ltac try_block_world H Hm :=
  let e := fresh "e" in
  let y := fresh "y" in
  let r := fresh "r" in
  let w := fresh "w" in
  apply bind_inv in H as [(e & Hm & ->) | (y & [r w] & Hm & H)];
  [ left; exists e; apply in_world_inv in Hm; tauto
  | apply in_world_inv in Hm as [-> Hm] ].

Ltac try_block_pure H Hm :=
  let e := fresh "e" in
  let y := fresh "y" in
  let r := fresh "r" in
  let w := fresh "w" in
  apply bind_inv in H as [(e & Hm & ->) | (y & [r w] & Hm & H)];
  [ left; exists e; apply lift_res_inv in Hm as [_ [= <- _]]; tauto
  | apply lift_res_inv in Hm as [Hm [= -> ->]] ].

(** What the [try] block leaves in [results]: nothing when it raised
    before the update, and otherwise the measurements, with or without a
    comparison. *)
Lemma run_try_inv self_run L args_str compare_with r0 w1 res r2 w2 :
  run_try E self_run L args_str compare_with (r0, w1) = (res, (r2, w2)) ->
  (exists e, res = Raise e /\ r2 = r0) \/
  (exists c t r1,
     c = List.map (device_output E t) (seq 0 (Z.to_nat (n L))) /\
     measured E L c r0 r1 /\
     (r2 = r1 \/ exists cv, r2 = set_comparison cv r1)).
Proof.
  unfold run_try. intros H.
  try_block_world H Hlaunch.
  try_block_world H Hsync.
  try_block_world H Hbench.
  try_block_world H Hdtoh.
  try_block_pure H Hmax.
  try_block_pure H Hsamples.
  try_block_pure H Hmin.
  try_block_pure H Htmax.
  apply bind_inv in H as [(ex & Hupd & _) | (u & [ru wu] & Hupd & Hrest)];
    [discriminate Hupd |].
  unfold update, modify in Hupd. cbn [fst snd] in Hupd.
  injection Hupd as <- <-.
  right.
  apply call_ok_inv in Hdtoh as [_ Hc]. injection Hc as <- <-.
  exists (List.map (device_output E (tick w3)) (seq 0 (Z.to_nat (n L)))), (tick w3).
  eexists. split; [reflexivity |]. split.
  { exists y1, y3, y4, y5, y6. unfold expected_of.
    split; [now symmetry |]. split; [now symmetry |].
    split; [now symmetry |]. split; [now symmetry | reflexivity]. }
  destruct (truthy compare_with) as [other |].
  - apply bind_inv in Hrest as [(e & Hm & _) | (cr & [rc wc] & Hm & Hrest)].
    { apply in_world_inv in Hm as [-> _]. now left. }
    apply in_world_inv in Hm as [-> _].
    apply bind_inv in Hrest as [(e & Hm & _) | (rs & [rg wg] & Hm & Hrest)];
      [discriminate Hm |].
    unfold gets in Hm. cbn [fst snd] in Hm. injection Hm as <- <- <-.
    apply bind_inv in Hrest as [(e & Hm & _) | (cv & [rl wl] & Hm & Hrest)].
    { apply lift_res_inv in Hm as [_ Hs]. injection Hs as <- _. now left. }
    apply lift_res_inv in Hm as [_ Hs]. injection Hs as -> ->.
    unfold update, modify in Hrest. cbn [fst snd] in Hrest.
    injection Hrest as _ <- _. right. now exists cv.
  - unfold ret in Hrest. injection Hrest as _ <- _. now left.
Qed.

(** *** The shape of [run] *)

Lemma run_open_prelude_raise self_run worker cubin_file args_str compare_with w e w1 :
  run_prelude E worker cubin_file args_str w = (Raise e, w1) ->
  run_open E self_run worker cubin_file args_str compare_with w = (Raise e, w1).
Proof. intros H. unfold run_open, bind. now rewrite H. Qed.

Lemma run_open_eq self_run worker cubin_file args_str compare_with
  w L w1 tres r2 w2 fres w3 :
  run_prelude E worker cubin_file args_str w = (Ok L, w1) ->
  run_try E self_run L args_str compare_with (initial_results L, w1)
  = (tres, (r2, w2)) ->
  run_finally E L w2 = (fres, w3) ->
  run_open E self_run worker cubin_file args_str compare_with w
  = (match fres with
     | Ok _ => Ok (final_results tres r2)
     | Raise e => Raise e
     end, w3).
Proof.
  intros Hpre Htry Hfin. unfold run_open, bind. rewrite Hpre.
  unfold with_results, try_finally, try_except. rewrite Htry.
  destruct tres as [[] | e]; unfold run_except, update, modify, in_world;
    cbn [fst snd]; rewrite Hfin; destruct fres as [[] | e']; reflexivity.
Qed.

(** The context step leaves the device buffers alone and only makes
    context calls. *)
Lemma ensure_frame (worker : nat) (w : World) :
  let w0 := snd (_ensure_cuda_context E worker w) in
  live w0 = live w /\ next_alloc w0 = next_alloc w /\
  exists evs, trace w0 = trace w ++ evs /\ forallb is_context_event evs = true.
Proof.
  unfold _ensure_cuda_context, bind, gets. simpl.
  destruct (thread_local w !! worker) as [ctx |].
  - unfold try_except, call_, call.
    destruct (fails E (tick w)) as [e |]; simpl;
      [destruct (exc_kind e) |]; simpl; repeat split;
      exists [EvCtxPush ctx]; split; reflexivity.
  - unfold call_, call, make_context, call, modify. simpl.
    destruct (fails E (tick w)); simpl;
      [repeat split; exists [EvCudaInit]; split; reflexivity |].
    destruct (fails E (S (tick w))); simpl;
      [repeat split; exists [EvCudaInit; EvDevice 0]; rewrite <- app_assoc;
       split; reflexivity |].
    destruct (fails E (S (S (tick w)))); simpl;
      repeat split; exists [EvCudaInit; EvDevice 0; EvMakeContext];
      rewrite <- !app_assoc; split; reflexivity.
Qed.

Ltac ok_step_as H Hm y :=
  let w := fresh "w" in
  apply bind_ok_inv in H as (y & w & Hm & H).

Ltac ok_step H Hm :=
  let y := fresh "y" in ok_step_as H Hm y.

Lemma print_inv s w y w' :
  print s w = (Ok y, w') ->
  tick w' = tick w /\ trace w' = trace w /\ live w' = live w /\
  next_alloc w' = next_alloc w.
Proof. unfold print, modify. now intros [= _ <-]. Qed.

Lemma call__ok_inv ev w y w' :
  call_ E ev w = (Ok y, w') -> w' = called ev w.
Proof. intros H. apply call_ok_inv in H as [_ H]. now injection H. Qed.

Lemma random_rand32_ok_inv n w x w' :
  random_rand32 E n w = (Ok x, w') ->
  (0 <= n)%Z /\ x = List.map (random_rand E (tick w)) (seq 0 (Z.to_nat n)) /\
  w' = called (EvRandomRand n) w.
Proof.
  unfold random_rand32. destruct (Z.ltb_spec n 0); [discriminate |].
  intros H'. apply call_ok_inv in H' as [_ H']. injection H' as <- <-. auto.
Qed.

Lemma mem_alloc_ok_inv nbytes w h w' :
  mem_alloc E nbytes w = (Ok h, w') ->
  h = next_alloc w /\
  w' = set_allocs (S (next_alloc w)) (next_alloc w :: live w)
         (called (EvMemAlloc nbytes) w).
Proof.
  unfold mem_alloc. intros H. apply call_ok_inv in H as [_ H].
  simpl in H. now injection H as <- <-.
Qed.

Lemma load_cubin_ok_inv p w y w' :
  _load_cubin E p w = (Ok y, w') ->
  tick w' = 2 + tick w /\
  trace w' = trace w ++ [EvOpenRead (to_string p); EvModuleFromBuffer] /\
  live w' = live w /\ next_alloc w' = next_alloc w.
Proof.
  unfold _load_cubin. intros H.
  ok_step H Hp1. ok_step H Hopen.
  unfold try_except in H.
  destruct (bind (call_ E EvModuleFromBuffer)
              (fun _ => print "CUBIN loaded successfully!") w1)
    as [[u | e] wm] eqn:Hm.
  - injection H as _ <-. ok_step Hm Hmod.
    apply print_inv in Hp1 as (T1 & R1 & L1 & N1).
    apply call__ok_inv in Hopen, Hmod. subst.
    apply print_inv in Hm as (T2 & R2 & L2 & N2).
    rewrite T2, R2, L2, N2. simpl. rewrite T1, R1, L1, N1, <- app_assoc. auto.
  - apply bind_inv in H as [(e' & _ & [=]) | (u & wp & _ & [=])].
Qed.

(** A prelude that completes: what it computed and what it did. *)
Lemma run_prelude_inv worker cubin_file args_str w L w1 :
  run_prelude E worker cubin_file args_str w = (Ok L, w1) ->
  exists w0 items,
    _ensure_cuda_context E worker w = (Ok tt, w0) /\
    json_loads E (args_or_default args_str) = Ok (JObject items) /\
    dict_get items "n" (JInt 1024) = JInt (n L) /\
    (0 <= n L)%Z /\
    L = mkLocals (of_string cubin_file) "vector_add" (n L) 256
          ((n L + 256 - 1) / 256)
          (List.map (random_rand E (3 + tick w0)) (seq 0 (Z.to_nat (n L))))
          (List.map (random_rand E (4 + tick w0)) (seq 0 (Z.to_nat (n L))))
          (next_alloc w0) (S (next_alloc w0)) (S (S (next_alloc w0))) /\
    trace w1
    = trace w0 ++ prelude_events cubin_file (n L) (next_alloc w0) (a L) (b L) /\
    tick w1 = 10 + tick w0 /\
    live w1 = S (S (next_alloc w0)) :: S (next_alloc w0) :: next_alloc w0 :: live w0 /\
    next_alloc w1 = 3 + next_alloc w0.
Proof.
  unfold run_prelude, parse_kernel_args, memcpy_htod. intros H.
  ok_step_as H Hens u. destruct u.
  ok_step_as H Hjson args. ok_step H Hp1. ok_step H Hload.
  ok_step H Hp2. ok_step H Hget. ok_step_as H Hargs nv. ok_step_as H Hint nz.
  ok_step_as H Ha va. ok_step_as H Hb vb.
  ok_step_as H Hag ha. ok_step_as H Hbg hb. ok_step_as H Hcg hc.
  ok_step H Hha. ok_step H Hhb.
  unfold ret in H. injection H as <- <-.
  apply lift_res_inv in Hjson as [Hjson ->].
  apply lift_res_inv in Hargs as [Hargs ->].
  apply lift_res_inv in Hint as [Hint ->].
  apply print_inv in Hp1 as (T1 & R1 & L1 & N1).
  apply load_cubin_ok_inv in Hload as (T2 & R2 & L2 & N2).
  apply print_inv in Hp2 as (T3 & R3 & L3 & N3).
  apply call__ok_inv in Hget.
  apply random_rand32_ok_inv in Ha as (Hn & -> & Hwa).
  apply random_rand32_ok_inv in Hb as (_ & -> & Hwb).
  apply mem_alloc_ok_inv in Hag as (-> & Hwag).
  apply mem_alloc_ok_inv in Hbg as (-> & Hwbg).
  apply mem_alloc_ok_inv in Hcg as (-> & Hwcg).
  apply call__ok_inv in Hha, Hhb.
  unfold args_get_n in Hargs. destruct args as [items |]; [| discriminate].
  injection Hargs as Hargs.
  unfold as_int in Hint. destruct nv as [z |]; [| discriminate].
  injection Hint as Hint. subst z.
  exists w0, items. subst. simpl.
  rewrite T3, T2, T1, R3, R2, R1, L3, L2, L1, N3, N2, N1.
  repeat split; try assumption; try reflexivity; try (symmetry; assumption).
  rewrite <- !app_assoc. reflexivity.
Qed.

End RunInversion.

(** ** Reference output, tolerance and samples *)

Section Correctness.

Import Pathlib Runner.

Lemma zip_with_f_length f (x y : list float) :
  length x = length y -> length (zip_with_f f x y) = length x.
Proof.
  revert y. induction x as [| u x IH]; intros [| v y]; simpl; try congruence.
  intros [= H]. now rewrite IH.
Qed.

Lemma zip_with_f_lookup f (x y : list float) (i : nat) (u v : float) :
  x !! i = Some u -> y !! i = Some v ->
  zip_with_f f x y !! i = Some (f u v).
Proof.
  revert y i. induction x as [| u' x IH]; intros [| v' y] [| i]; simpl;
    try discriminate.
  - now intros [= ->] [= ->].
  - apply IH.
Qed.

Lemma make_samples_length (a b c e : list float) (idxs : list nat) (ss : list Sample) :
  make_samples a b c e idxs = Ok ss -> length ss = length idxs.
Proof.
  revert ss. induction idxs as [| i rest IH]; intros ss; simpl.
  - now intros [= <-].
  - unfold res_bind.
    destruct (index a i); [| discriminate]. destruct (index b i); [| discriminate].
    destruct (index c i); [| discriminate]. destruct (index e i); [| discriminate].
    destruct (make_samples a b c e rest) as [tl |]; [| discriminate].
    intros [= <-]. simpl. f_equal. now apply IH.
Qed.

Lemma index_ok (x : list float) (i : nat) (v : float) :
  index x i = Ok v -> x !! i = Some v.
Proof. unfold index. destruct (x !! i); now intros [= ->]. Qed.

Lemma make_samples_lookup (a b c e : list float) (idxs : list nat) (ss : list Sample)
  (k : nat) (s : Sample) :
  make_samples a b c e idxs = Ok ss -> ss !! k = Some s ->
  exists i ai bi ci ei,
    idxs !! k = Some i /\
    a !! i = Some ai /\ b !! i = Some bi /\ c !! i = Some ci /\ e !! i = Some ei /\
    s = mkSample i (f64_of_f32 ai) (f64_of_f32 bi) (f64_of_f32 ci) (f64_of_f32 ei)
          (f64_of_f32 (f32_abs (f32_sub ci ei))).
Proof.
  revert ss k. induction idxs as [| i rest IH]; intros ss k; simpl.
  - intros [= <-]. discriminate.
  - unfold res_bind.
    destruct (index a i) as [ai |] eqn:Ha; [| discriminate].
    destruct (index b i) as [bi |] eqn:Hb; [| discriminate].
    destruct (index c i) as [ci |] eqn:Hc; [| discriminate].
    destruct (index e i) as [ei |] eqn:He; [| discriminate].
    destruct (make_samples a b c e rest) as [tl |] eqn:Htl; [| discriminate].
    intros [= <-]. destruct k as [| k]; simpl.
    + intros [= <-]. exists i, ai, bi, ci, ei.
      repeat split; auto using index_ok.
    + intros Hk. destruct (IH tl k eq_refl Hk) as (j & H). now exists j.
Qed.

(** The maximum that [np.max] returns is an element of the array. *)
Lemma np_max_elem (l : list float) (m : float) : np_max l = Ok m -> m ∈ l.
Proof.
  unfold np_max. destruct l as [| x l]; [discriminate |]. intros [= <-].
  assert (H : forall l x, fold_left np_maximum l x ∈ x :: l).
  { clear. induction l as [| y l IH]; intros x; simpl; [left |].
    specialize (IH (np_maximum x y)).
    apply elem_of_cons in IH as [-> | IH].
    - unfold np_maximum.
      destruct (is_nan x); [left |].
      destruct (is_nan y); [right; left |].
      destruct (SFltb x y); [right; left | left].
    - right. now right. }
  apply H.
Qed.

Variable E : Env.

(** A run that reports success went through the update of [results]. *)
Lemma run_success_inv worker cubin_file args_str compare_with w L w1 r w' :
  run_prelude E worker cubin_file args_str w = (Ok L, w1) ->
  run E worker cubin_file args_str compare_with w = (Ok r, w') ->
  success r = true ->
  exists c t r1,
    c = List.map (device_output E t) (seq 0 (Z.to_nat (n L))) /\
    measured E L c (initial_results L) r1 /\
    (r = r1 \/ exists cv, r = set_comparison cv r1).
Proof.
  intros Hpre Hrun Hsucc. unfold run in Hrun.
  destruct (run_try E (run_inner E worker) L args_str compare_with
              (initial_results L, w1)) as [tres [r2 w2]] eqn:Htry.
  destruct (run_finally E L w2) as [fres w3] eqn:Hfin.
  rewrite (run_open_eq E _ _ _ _ _ _ _ _ _ _ _ _ _ Hpre Htry Hfin) in Hrun.
  destruct fres as [[] | e]; [| discriminate].
  injection Hrun as <- <-.
  destruct tres as [[] | e]; simpl in Hsucc; [| discriminate].
  apply run_try_inv in Htry as [(e & [=] & _) | H]. exact H.
Qed.

(** Every result of [run] that reports success has its timing and its
    correctness dictionaries filled in. *)
Lemma run_success_populated worker cubin_file args_str compare_with w r w' :
  run E worker cubin_file args_str compare_with w = (Ok r, w') ->
  success r = true ->
  is_Some (timing r) /\ is_Some (correctness r).
Proof.
  intros Hrun Hsucc.
  destruct (run_prelude E worker cubin_file args_str w) as [[L | e] w1] eqn:Hpre.
  - destruct (run_success_inv _ _ _ _ _ _ _ _ _ Hpre Hrun Hsucc)
      as (c & t & r1 & _ & (ts & m & ss & tmin & tmax & _ & _ & _ & _ & ->) & Hr).
    destruct Hr as [-> | [cv ->]]; simpl; eauto.
  - unfold run in Hrun.
    rewrite (run_open_prelude_raise E _ _ _ _ _ _ _ _ Hpre) in Hrun. discriminate.
Qed.

(** C5.  For a run that reports success with problem size [n]: the
    inputs and the reference have [n] elements and
    [expected[i] = a[i] + b[i]] in binary32 for every [i]; [max_error] is
    the maximum over [abs(c - expected)] for the buffer [c] that came
    back from the device, and [passed] is the comparison
    [max_error < 1e-6]; [samples] has [min(5, n)] rows, and row [i]
    carries index [i], [a[i]], [b[i]], [c[i]], [expected[i]] and
    [abs(c[i] - expected[i])]. *)
Theorem run_correctness_and_samples worker cubin_file args_str compare_with
  w L w1 r w' :
  run_prelude E worker cubin_file args_str w = (Ok L, w1) ->
  run E worker cubin_file args_str compare_with w = (Ok r, w') ->
  success r = true ->
  length (a L) = Z.to_nat (n L) /\
  length (b L) = Z.to_nat (n L) /\
  length (expected_of L) = Z.to_nat (n L) /\
  (forall i ai bi,
     a L !! i = Some ai -> b L !! i = Some bi ->
     expected_of L !! i = Some (f32_add ai bi)) /\
  exists c t dev ss,
    c = List.map (device_output E t) (seq 0 (Z.to_nat (n L))) /\
    np_max (np_abs32 (np_sub32 c (expected_of L))) = Ok dev /\
    correctness r
    = Some (mkCorrectness (f64_of_f32 dev) (f64_ltb (f64_of_f32 dev) f64_1e_6)) /\
    test_size r = Some (n L) /\
    samples r = Some ss /\
    length ss = Z.to_nat (Z.min 5 (n L)) /\
    (forall i s,
       ss !! i = Some s ->
       exists ai bi ci ei,
         a L !! i = Some ai /\ b L !! i = Some bi /\
         c !! i = Some ci /\ expected_of L !! i = Some ei /\
         sample_idx s = i /\
         sample_a s = f64_of_f32 ai /\ sample_b s = f64_of_f32 bi /\
         sample_out s = f64_of_f32 ci /\ sample_expected s = f64_of_f32 ei /\
         sample_error s = f64_of_f32 (f32_abs (f32_sub ci ei))).
Proof.
  intros Hpre Hrun Hsucc.
  destruct (run_prelude_inv E _ _ _ _ _ _ Hpre)
    as (w0 & items & _ & _ & _ & Hn & HL & _).
  assert (Hla : length (a L) = Z.to_nat (n L)).
  { rewrite HL. simpl. now rewrite length_map, length_seq. }
  assert (Hlb : length (b L) = Z.to_nat (n L)).
  { rewrite HL. simpl. now rewrite length_map, length_seq. }
  split; [exact Hla | split; [exact Hlb |]].
  split.
  { unfold expected_of, np_add32. rewrite zip_with_f_length; congruence. }
  split.
  { intros i ai bi. apply zip_with_f_lookup. }
  destruct (run_success_inv _ _ _ _ _ _ _ _ _ Hpre Hrun Hsucc)
    as (c & t & r1 & Hc & (ts & m & ss & tmin & tmax & Hm & Hss & _ & _ & Hr1) & Hr).
  exists c, t, m, ss. split; [exact Hc | split; [exact Hm |]].
  assert (Hfields : correctness r
            = Some (mkCorrectness (f64_of_f32 m) (f64_ltb (f64_of_f32 m) f64_1e_6))
            /\ test_size r = Some (n L) /\ samples r = Some ss).
  { destruct Hr as [-> | [cv ->]]; rewrite Hr1; simpl; auto. }
  destruct Hfields as (Hcr & Hts & Hsm).
  split; [exact Hcr | split; [exact Hts | split; [exact Hsm |]]].
  split.
  { rewrite (make_samples_length _ _ _ _ _ _ Hss). apply length_seq. }
  intros i s Hs.
  destruct (make_samples_lookup _ _ _ _ _ _ _ _ Hss Hs)
    as (j & ai & bi & ci & ei & Hj & Ha & Hb & Hci & Hei & ->).
  apply lookup_seq in Hj as [Hj _]. simpl in Hj. subst j.
  exists ai, bi, ci, ei. simpl. repeat split; assumption.
Qed.

End Correctness.

Lemma run_correctness_and_samples_witness :
  exists L w1 r w' ss,
    Runner.run_prelude Demo.good_env 0 "build/vec.cubin" (Some Demo.args_n4)
      Runner.initial_world = (Ok L, w1) /\
    Runner.run Demo.good_env 0 "build/vec.cubin" (Some Demo.args_n4) None
      Runner.initial_world = (Ok r, w') /\
    Runner.success r = true /\
    length (expected_of L) = 4 /\
    Runner.samples r = Some ss /\ length ss = 4.
Proof.
  edestruct (run_correctness_and_samples Demo.good_env 0 "build/vec.cubin"
               (Some Demo.args_n4) None Runner.initial_world)
    as (_ & _ & Hlen & _ & c & t & dev & ss & _ & _ & _ & _ & Hss & Hlss & _).
  - vm_compute. reflexivity.
  - vm_compute. reflexivity.
  - reflexivity.
  - eexists _, _, _, _, ss.
    split; [vm_compute; reflexivity |].
    split; [vm_compute; reflexivity |].
    split; [reflexivity |].
    split; [exact Hlen |]. split; [exact Hss | exact Hlss].
Defined.

(** ** Device buffers and failures of a run *)

Section Resources.

Import Pathlib Runner.

Variable E : Env.

(** The [finally] clause when its three calls succeed. *)
Lemma run_finally_ok (L : Locals) (w : World) :
  fails E (tick w) = None ->
  fails E (S (tick w)) = None ->
  fails E (S (S (tick w))) = None ->
  exists w',
    run_finally E L w = (Ok tt, w') /\
    trace w' = trace w ++ free_events L /\
    tick w' = 3 + tick w /\
    (forall h, h ∈ live w' <->
               h ∈ live w /\ h <> a_gpu L /\ h <> b_gpu L /\ h <> c_gpu L).
Proof.
  intros F0 F1 F2. unfold run_finally, free, bind, call.
  rewrite F0. simpl. rewrite F1. simpl. rewrite F2. simpl.
  eexists. split; [reflexivity |]. simpl.
  split; [now rewrite <- !app_assoc |]. split; [reflexivity |].
  intros h. rewrite !list_elem_of_In, !filter_In.
  rewrite !negb_true_iff, !Nat.eqb_neq. tauto.
Qed.

(** X7.  Once the [try] statement is entered and the three releases succeed,
    [run] returns normally and none of its buffers is live any more. *)
Lemma run_releases_after_try worker cubin_file args_str compare_with
  w L w1 tres r2 w2 :
  run_prelude E worker cubin_file args_str w = (Ok L, w1) ->
  run_try E (run_inner E worker) L args_str compare_with (initial_results L, w1)
  = (tres, (r2, w2)) ->
  fails E (tick w2) = None ->
  fails E (S (tick w2)) = None ->
  fails E (S (S (tick w2))) = None ->
  exists w3,
    run E worker cubin_file args_str compare_with w = (Ok (final_results tres r2), w3) /\
    trace w3 = trace w2 ++ free_events L /\
    (a_gpu L ∉ live w3) /\ (b_gpu L ∉ live w3) /\ (c_gpu L ∉ live w3).
Proof.
  intros Hpre Htry F0 F1 F2.
  destruct (run_finally_ok L w2 F0 F1 F2) as (w3 & Hfin & Htr & _ & Hlive).
  exists w3. unfold run.
  rewrite (run_open_eq E _ _ _ _ _ _ _ _ _ _ _ _ _ Hpre Htry Hfin).
  split; [reflexivity |]. split; [exact Htr |].
  repeat split; intros Hin; apply Hlive in Hin; tauto.
Qed.

End Resources.

(** C3.  The buffers are allocated and filled before the [try]
    statement.  When the second allocation fails, [run] raises and the
    first buffer is still allocated; when the first host-to-device copy
    fails, [run] raises and all three buffers are still allocated.  In
    neither case is any buffer released. *)
Theorem run_leaks_buffers_before_try :
  (let out := Runner.run Demo.oom_env 0 "build/vec.cubin" None None
                Runner.initial_world in
   fst out = Raise (mkExc CudaMemoryError "cuMemAlloc failed: out of memory") /\
   Runner.live (snd out) = [0] /\
   count_events is_free (Runner.trace (snd out)) = 0) /\
  (let out := Runner.run Demo.htod_fails_env 0 "build/vec.cubin" None None
                Runner.initial_world in
   fst out = Raise (mkExc CudaLogicError "cuMemcpyHtoD failed: invalid argument") /\
   Runner.live (snd out) = [2; 1; 0] /\
   count_events is_free (Runner.trace (snd out)) = 0).
Proof. vm_compute. repeat split. Qed.

Section Failures.

Import Pathlib Runner.

Variable E : Env.

(** A binary that does not load makes [run] raise. *)
Lemma run_load_failure_propagates :
  fst (run Demo.bad_cubin_env 0 "build/vec.cubin" None None initial_world)
  = Raise (mkExc CudaLogicError
             "cuModuleLoadDataEx failed: device kernel image is invalid").
Proof. vm_compute. reflexivity. Qed.

(** C4 (amended).  A failure inside the [try] statement (warmup and timed
    launches, barriers, the copy back, the correctness computation, the
    comparison run) is captured: when the three releases succeed, [run]
    returns a result with [success = False] and [error = str(e)]; this
    holds in particular when the warmup launch raises, be it in the
    conversion of its size argument or in the driver.  A failure of
    [_load_cubin] is re-raised and leaves [run] as an exception. *)
Theorem run_captures_guarded_failures worker cubin_file args_str compare_with w :
  (forall L w1 e r2 w2 w3,
     run_prelude E worker cubin_file args_str w = (Ok L, w1) ->
     run_try E (run_inner E worker) L args_str compare_with (initial_results L, w1)
     = (Raise e, (r2, w2)) ->
     run_finally E L w2 = (Ok tt, w3) ->
     exists r,
       run E worker cubin_file args_str compare_with w = (Ok r, w3) /\
       success r = false /\ error r = Some (str_exc e)) /\
  (forall L w1 e wl,
     run_prelude E worker cubin_file args_str w = (Ok L, w1) ->
     launch E L w1 = (Raise e, wl) ->
     fails E (tick wl) = None ->
     fails E (1 + tick wl) = None ->
     fails E (2 + tick wl) = None ->
     exists r w3,
       run E worker cubin_file args_str compare_with w = (Ok r, w3) /\
       success r = false /\ error r = Some (str_exc e)) /\
  (forall w0 j e w1,
     _ensure_cuda_context E worker w = (Ok tt, w0) ->
     json_loads E (args_or_default args_str) = Ok j ->
     _load_cubin E (of_string cubin_file)
       (snd (print ("Loading CUBIN: " +:+ to_string (of_string cubin_file)) w0))
     = (Raise e, w1) ->
     run E worker cubin_file args_str compare_with w = (Raise e, w1)).
Proof.
  assert (Hcapture : forall L w1 e r2 w2 w3,
     run_prelude E worker cubin_file args_str w = (Ok L, w1) ->
     run_try E (run_inner E worker) L args_str compare_with (initial_results L, w1)
     = (Raise e, (r2, w2)) ->
     run_finally E L w2 = (Ok tt, w3) ->
     exists r,
       run E worker cubin_file args_str compare_with w = (Ok r, w3) /\
       success r = false /\ error r = Some (str_exc e)).
  { intros L w1 e r2 w2 w3 Hpre Htry Hfin. unfold run.
    rewrite (run_open_eq E _ _ _ _ _ _ _ _ _ _ _ _ _ Hpre Htry Hfin).
    eexists. split; [reflexivity |]. split; reflexivity. }
  split; [exact Hcapture | split].
  - intros L w1 e wl Hpre Hfail F1 F2 F3.
    assert (Htry : run_try E (run_inner E worker) L args_str compare_with
                     (initial_results L, w1)
                   = (Raise e, (initial_results L, wl))).
    { unfold run_try, bind at 1, in_world at 1. cbn [fst snd].
      rewrite Hfail. reflexivity. }
    destruct (run_finally_ok E L wl F1 F2 F3) as (w3 & Hfin & _).
    destruct (Hcapture _ _ _ _ _ _ Hpre Htry Hfin) as (r & Hr). eauto.
  - intros w0 j e w1 Hens Hjson Hload.
    unfold run. apply run_open_prelude_raise.
    unfold run_prelude, parse_kernel_args, bind. rewrite Hens.
    unfold lift_res. rewrite Hjson.
    destruct (print _ w0) as [[[] | e'] wp] eqn:Hp.
    + simpl in Hload. rewrite Hload. reflexivity.
    + unfold print, modify in Hp. discriminate.
Qed.

End Failures.

Lemma run_captures_guarded_failures_witness :
  (exists r w3,
     Runner.run Demo.launch_fails_env 0 "build/vec.cubin" (Some Demo.args_n4) None
       Runner.initial_world = (Ok r, w3) /\
     Runner.success r = false /\
     Runner.error r = Some "cuLaunchKernel failed: launch failed") /\
  (exists w1,
     Runner.run Demo.bad_cubin_env 0 "build/vec.cubin" (Some Demo.args_n4) None
       Runner.initial_world
     = (Raise (mkExc CudaLogicError
                 "cuModuleLoadDataEx failed: device kernel image is invalid"), w1)).
Proof.
  split.
  - edestruct (proj1 (proj2 (run_captures_guarded_failures Demo.launch_fails_env 0
                 "build/vec.cubin" (Some Demo.args_n4) None Runner.initial_world)))
      as (r & w3 & Hrun & Hs & He).
    + vm_compute. reflexivity.
    + vm_compute. reflexivity.
    + vm_compute. reflexivity.
    + vm_compute. reflexivity.
    + vm_compute. reflexivity.
    + exists r, w3. auto.
  - eexists.
    eapply (proj2 (proj2 (run_captures_guarded_failures Demo.bad_cubin_env 0
              "build/vec.cubin" (Some Demo.args_n4) None Runner.initial_world))).
    + vm_compute. reflexivity.
    + vm_compute. reflexivity.
    + vm_compute. reflexivity.
Defined.
(** ** The benchmark protocol *)

Section Protocol.

Import Pathlib Runner.

Variable E : Env.

Lemma advance_nil (w : World) : advance [] w = w.
Proof. destruct w. unfold advance. simpl. now rewrite app_nil_r. Qed.

Lemma called_advance (ev : Event) (evs : list Event) (w : World) :
  called ev (advance evs w) = advance (evs ++ [ev]) w.
Proof.
  unfold called, advance. simpl. rewrite length_app, <- app_assoc. simpl.
  f_equal. lia.
Qed.

Lemma timed_events_length (L : Locals) (m : Z) (k : nat) :
  length (timed_events L m k) = 4 * k.
Proof. induction k as [| k IH]; simpl; [reflexivity | rewrite IH; lia]. Qed.

Lemma recorded_times_length (t k : nat) : length (recorded_times E t k) = k.
Proof. revert t. induction k as [| k IH]; intros t; simpl; [| rewrite IH]; reflexivity. Qed.

Lemma extends_refl (w : World) : extends_trace w w.
Proof. exists []. now rewrite app_nil_r. Qed.

Lemma extends_trans (w1 w2 w3 : World) :
  extends_trace w1 w2 -> extends_trace w2 w3 -> extends_trace w1 w3.
Proof.
  intros [e1 H1] [e2 H2]. exists (e1 ++ e2). now rewrite H2, H1, app_assoc.
Qed.

Lemma extends_called ev w : extends_trace w (called ev w).
Proof. now exists [ev]. Qed.

Lemma extends_set_allocs nxt l w : extends_trace w (set_allocs nxt l w).
Proof. exists []. simpl. now rewrite app_nil_r. Qed.

Lemma extends_print s w : extends_trace w (snd (print s w)).
Proof. exists []. simpl. now rewrite app_nil_r. Qed.

Lemma extends_ensure worker : respects extends_trace (_ensure_cuda_context E worker).
Proof.
  intros w. destruct (ensure_frame E worker w) as (_ & _ & evs & Hevs & _).
  now exists evs.
Qed.

Lemma extends_run_inner worker cubin_file args_str :
  respects extends_trace (run_inner E worker cubin_file args_str).
Proof.
  apply (respects_run_inner E extends_trace extends_refl extends_trans
           extends_called extends_set_allocs extends_print extends_ensure).
Qed.

Lemma context_events_no_launch (evs : list Event) :
  forallb is_context_event evs = true ->
  count_events is_launch evs = 0 /\ count_events is_dtoh evs = 0 /\
  count_events is_htod evs = 0.
Proof.
  unfold count_events. induction evs as [| ev evs IH]; simpl; [auto |].
  intros H. apply andb_true_iff in H as [Hev H].
  destruct ev; try discriminate; simpl; now apply IH.
Qed.

Lemma count_events_app p (l1 l2 : list Event) :
  count_events p (l1 ++ l2) = count_events p l1 + count_events p l2.
Proof. unfold count_events. now rewrite List.filter_app, length_app. Qed.

Lemma count_events_prefix p (l1 l2 : list Event) :
  l1 `prefix_of` l2 -> count_events p l1 <= count_events p l2.
Proof. intros [k ->]. rewrite count_events_app. lia. Qed.

Lemma timed_events_counts (L : Locals) (m : Z) (k : nat) :
  count_events is_launch (timed_events L m k) = k /\
  count_events is_dtoh (timed_events L m k) = 0.
Proof.
  induction k as [| k [IH1 IH2]]; [now split |].
  cbn [timed_events]. rewrite !count_events_app, IH1, IH2. now split.
Qed.

Lemma kernel_events_counts (L : Locals) (m : Z) :
  count_events is_launch (kernel_events L m) = 101 /\
  count_events is_dtoh (kernel_events L m) = 0.
Proof.
  unfold kernel_events. rewrite !count_events_app.
  destruct (timed_events_counts L m 100) as [-> ->]. now split.
Qed.

Lemma protocol_events_counts (L : Locals) (m : Z) :
  count_events is_launch (protocol_events L m) = 101 /\
  count_events is_dtoh (protocol_events L m) = 1.
Proof.
  unfold protocol_events. rewrite !count_events_app.
  destruct (kernel_events_counts L m) as [-> ->]. now split.
Qed.

Lemma trace_advance (evs : list Event) (w : World) :
  trace (advance evs w) = trace w ++ evs.
Proof. reflexivity. Qed.

Lemma tick_advance (evs : list Event) (w : World) :
  tick (advance evs w) = length evs + tick w.
Proof. reflexivity. Qed.

(** *** Before the [try] statement *)

Lemma quiet_ret {A} (x : A) : quiet (ret x).
Proof.
  intros w res w' [= <- <-]. exists []. now rewrite app_nil_r.
Qed.

Lemma quiet_raise {A} (e : PyExc) : quiet (@raise World A e).
Proof.
  intros w res w' [= <- <-]. exists []. now rewrite app_nil_r.
Qed.

Lemma quiet_lift_res {A} (r : Res A) : quiet (lift_res r).
Proof.
  intros w res w' [= <- <-]. exists []. now rewrite app_nil_r.
Qed.

Lemma quiet_print (s : string) : quiet (print s).
Proof.
  intros w res w' [= <- <-]. exists []. cbn. now rewrite app_nil_r.
Qed.

Lemma quiet_bind {A B} (c : M World A) (k : A -> M World B) :
  quiet c -> (forall x, quiet (k x)) -> quiet (bind c k).
Proof.
  intros Hc Hk w res w' H. unfold bind in H.
  destruct (c w) as [[x | e] wa] eqn:Hcw;
    destruct (Hc _ _ _ Hcw) as (e1 & Ht1 & Hl1 & Hd1).
  - destruct (Hk x _ _ _ H) as (e2 & Ht2 & Hl2 & Hd2).
    exists (e1 ++ e2). rewrite Ht2, Ht1, <- app_assoc, !count_events_app.
    split; [reflexivity | lia].
  - injection H as <- <-. exists e1. auto.
Qed.

Lemma quiet_try_except {A} (c : M World A) (h : PyExc -> M World A) :
  quiet c -> (forall e, quiet (h e)) -> quiet (try_except c h).
Proof.
  intros Hc Hh w res w' H. unfold try_except in H.
  destruct (c w) as [[x | e] wa] eqn:Hcw;
    destruct (Hc _ _ _ Hcw) as (e1 & Ht1 & Hl1 & Hd1).
  - injection H as <- <-. exists e1. auto.
  - destruct (Hh e _ _ _ H) as (e2 & Ht2 & Hl2 & Hd2).
    exists (e1 ++ e2). rewrite Ht2, Ht1, <- app_assoc, !count_events_app.
    split; [reflexivity | lia].
Qed.

Lemma quiet_call {A} ev (k : nat -> World -> A * World) :
  is_launch ev = false -> is_dtoh ev = false ->
  (forall t w, trace (snd (k t w)) = trace w) ->
  quiet (call E ev k).
Proof.
  intros Hl Hd Hk w res w' H. unfold call in H.
  exists [ev]. unfold count_events. cbn. rewrite Hl, Hd.
  destruct (fails E (tick w)).
  - injection H as <- <-. auto.
  - specialize (Hk (tick w) (called ev w)).
    destruct (k (tick w) (called ev w)) as [x wk]. injection H as <- <-. auto.
Qed.

Lemma quiet_ensure worker : quiet (_ensure_cuda_context E worker).
Proof.
  intros w res w' H.
  destruct (ensure_frame E worker w) as (_ & _ & evs & Hevs & Hctx).
  rewrite H in Hevs. exists evs.
  destruct (context_events_no_launch evs Hctx) as (Hl & Hd & _). auto.
Qed.

Ltac quiet_call_tac := apply quiet_call; [reflexivity | reflexivity | reflexivity].

(** Nothing is launched and nothing is copied back before the [try]
    statement, also when the prelude raises. *)
Lemma quiet_prelude worker cubin_file args_str :
  quiet (run_prelude E worker cubin_file args_str).
Proof.
  unfold run_prelude.
  apply quiet_bind; [apply quiet_ensure | intros _].
  apply quiet_bind; [apply quiet_lift_res | intros args].
  apply quiet_bind; [apply quiet_print | intros _].
  apply quiet_bind; [| intros module].
  { unfold _load_cubin.
    apply quiet_bind; [apply quiet_print | intros _].
    apply quiet_bind; [quiet_call_tac | intros _].
    apply quiet_try_except.
    - apply quiet_bind; [quiet_call_tac | intros _]. apply quiet_print.
    - intros e. apply quiet_bind; [apply quiet_print | intros _]. apply quiet_raise. }
  apply quiet_bind; [apply quiet_print | intros _].
  apply quiet_bind; [quiet_call_tac | intros _].
  apply quiet_bind; [apply quiet_lift_res | intros nv].
  apply quiet_bind; [apply quiet_lift_res | intros nz].
  assert (Hrand : quiet (random_rand32 E nz)).
  { unfold random_rand32. destruct (nz <? 0)%Z; [apply quiet_raise | quiet_call_tac]. }
  apply quiet_bind; [exact Hrand | intros va].
  apply quiet_bind; [exact Hrand | intros vb].
  apply quiet_bind; [quiet_call_tac | intros ha].
  apply quiet_bind; [quiet_call_tac | intros hb].
  apply quiet_bind; [quiet_call_tac | intros hc].
  apply quiet_bind; [quiet_call_tac | intros _].
  apply quiet_bind; [quiet_call_tac | intros _].
  apply quiet_ret.
Qed.

(** *** Computations that only make calls *)

Lemma emits_bind {A B} (c : M World A) (k : A -> M World B) e1 e2
  (P : World -> A -> Prop) (Q : A -> World -> B -> Prop) :
  emits c e1 P ->
  (forall x, emits (k x) e2 (Q x)) ->
  emits (bind c k) (e1 ++ e2)
    (fun w y => exists x, P w x /\ Q x (advance e1 w) y).
Proof.
  intros Hc Hk w res w' H. unfold bind in H.
  destruct (c w) as [[x | e] wa] eqn:Hcw;
    destruct (Hc _ _ _ Hcw) as (own1 & -> & Hp1 & Hok1).
  - destruct (Hok1 x eq_refl) as [-> HP].
    destruct (Hk x _ _ _ H) as (own2 & -> & Hp2 & Hok2).
    exists (e1 ++ own2). split; [apply advance_advance |].
    split; [now apply prefix_app |].
    intros y Hy. destruct (Hok2 y Hy) as [-> HQ]. eauto.
  - injection H as <- <-. exists own1. split; [reflexivity |].
    split; [now apply prefix_app_r | discriminate].
Qed.

Lemma emits_conseq {A} (c : M World A) evs (P Q : World -> A -> Prop) :
  emits c evs P -> (forall w x, P w x -> Q w x) -> emits c evs Q.
Proof.
  intros Hc HPQ w res w' H. destruct (Hc _ _ _ H) as (own & Hw & Hp & Hok).
  exists own. split; [exact Hw | split; [exact Hp |]].
  intros x Hx. destruct (Hok x Hx). auto.
Qed.

(** A call of the driver or of the clock that changes nothing but the
    log: the call is logged whether it fails or not. *)
Lemma call_logged {A} ev (v : nat -> A) (w : World) res w' :
  call E ev (fun t w => (v t, w)) w = (res, w') ->
  w' = advance [ev] w /\ ((exists e, res = Raise e) \/ res = Ok (v (tick w))).
Proof.
  unfold call. destruct (fails E (tick w)) as [e |]; intros [= <- <-];
    (split; [reflexivity | eauto]).
Qed.

Lemma emits_call {A} ev (v : nat -> A) :
  emits (call E ev (fun t w => (v t, w))) [ev] (fun w x => x = v (tick w)).
Proof.
  intros w res w' H. apply call_logged in H as [-> Hres].
  exists [ev]. split; [reflexivity | split; [reflexivity |]].
  intros x ->. destruct Hres as [[e [=]] | [= ->]]. auto.
Qed.

Section Launch.

Variable L : Locals.
Variable m : Z.
Hypothesis int32_of_n : forall m', np_int32 E (n L) = Ok m' -> m' = m.

(** A launch converts the size and then calls the kernel: it makes no
    call when the conversion raises. *)
Lemma emits_launch :
  emits (launch E L) [launch_event L m] (fun _ _ => np_int32 E (n L) = Ok m).
Proof.
  intros w res w' H. unfold launch, bind, lift_res in H.
  destruct (np_int32 E (n L)) as [m' |] eqn:Hm.
  - rewrite (int32_of_n m' eq_refl) in *. unfold call_ in H.
    apply call_logged in H as [-> Hres].
    exists [launch_event L m]. split; [reflexivity | split; [reflexivity |]].
    intros x _. auto.
  - injection H as <- <-. exists []. split; [now rewrite advance_nil |].
    split; [apply prefix_nil | discriminate].
Qed.

(** The timed loop: [k] iterations of four calls each, and the elapsed
    time of each iteration appended to [times]. *)
Lemma emits_benchmark (k : nat) (times : list float) :
  emits (benchmark E L k times) (timed_events L m k)
    (fun w ts => ts = times ++ recorded_times E (tick w) k).
Proof.
  revert times. induction k as [| k IH]; intros times.
  - intros w res w' H. cbn [benchmark] in H. unfold ret in H.
    injection H as <- <-. exists []. split; [now rewrite advance_nil |].
    split; [reflexivity |]. intros x [= <-]. cbn. now rewrite app_nil_r.
  - cbn [benchmark timed_events].
    change (timed_iteration L m ++ timed_events L m k)
      with ([EvPerfCounter] ++ [launch_event L m] ++ [EvSynchronize]
            ++ [EvPerfCounter] ++ timed_events L m k).
    eapply emits_conseq.
    + eapply emits_bind; [apply emits_call | intros start].
      eapply emits_bind; [apply emits_launch | intros u1].
      eapply emits_bind;
        [apply (emits_call EvSynchronize (fun _ => tt)) | intros u2].
      eapply emits_bind; [apply emits_call | intros stop].
      apply IH.
    + cbv beta. intros w ts (start & -> & u1 & _ & u2 & _ & stop & -> & ->).
      rewrite !advance_advance, !tick_advance. cbn [length app recorded_times].
      rewrite <- app_assoc. reflexivity.
Qed.

(** The [finally] clause: its calls are an initial part of the three
    releases, and all three when it returns. *)
Lemma run_finally_inv (w2 w3 : World) (fres : Res unit) :
  run_finally E L w2 = (fres, w3) ->
  exists fin,
    trace w3 = trace w2 ++ fin /\ fin `prefix_of` free_events L /\
    (fres = Ok tt -> fin = free_events L).
Proof.
  unfold run_finally, free, bind, call, free_events.
  destruct (fails E (tick w2)); cbn.
  { intros [= <- <-]. exists [EvFree (a_gpu L)].
    split; [reflexivity | split; [now eexists | discriminate]]. }
  destruct (fails E (S (tick w2))); cbn.
  { intros [= <- <-]. exists [EvFree (a_gpu L); EvFree (b_gpu L)]. cbn.
    split; [now rewrite <- ?app_assoc | split; [now eexists | discriminate]]. }
  destruct (fails E (S (S (tick w2)))); cbn.
  { intros [= <- <-]. exists [EvFree (a_gpu L); EvFree (b_gpu L); EvFree (c_gpu L)].
    cbn. split; [now rewrite <- ?app_assoc | split; [reflexivity | discriminate]]. }
  intros [= <- <-]. exists [EvFree (a_gpu L); EvFree (b_gpu L); EvFree (c_gpu L)].
  cbn. split; [now rewrite <- ?app_assoc | split; reflexivity].
Qed.

Opaque recorded_times timed_events.

(** The [try] block, whatever fails: its calls are an initial part of
    warmup, barrier and 100 timed iterations, or all of these and the copy
    back; the results are touched only after the copy back, and the
    timing stored then is computed from the 100 elapsed times of the
    timed loop, whose first clock reading is the third call of the
    block. *)
Lemma run_try_protocol self_run args_str compare_with r0 w1 tres r2 w2 :
  (forall f a, respects extends_trace (self_run f a)) ->
  run_try E self_run L args_str compare_with (r0, w1) = (tres, (r2, w2)) ->
  exists own rest,
    trace w2 = trace w1 ++ own ++ rest /\
    (truthy compare_with = None -> rest = []) /\
    ((own `prefix_of` kernel_events L m /\ rest = [] /\ r2 = r0 /\
      exists e, tres = Raise e) \/
     (own = protocol_events L m /\
      ((rest = [] /\ r2 = r0 /\ exists e, tres = Raise e) \/
       (success r2 = true /\
        exists tmin tmax,
          np_min (recorded_times E (S (S (tick w1))) 100) = Ok tmin /\
          np_max (recorded_times E (S (S (tick w1))) 100) = Ok tmax /\
          timing r2
          = Some (mkTiming
                    (f64_mul (np_mean E (recorded_times E (S (S (tick w1))) 100))
                       (f64_of_Z 1000))
                    (f64_mul (np_std E (recorded_times E (S (S (tick w1))) 100))
                       (f64_of_Z 1000))
                    (f64_mul tmin (f64_of_Z 1000))
                    (f64_mul tmax (f64_of_Z 1000))))))).
Proof.
  intros Hself H. unfold run_try in H.
  (* warmup *)
  apply bind_inv in H as [(e & Hm & ->) | (y & [r w] & Hm & H)];
    apply in_world_inv in Hm as [-> Hm];
    destruct (emits_launch _ _ _ Hm) as (own1 & -> & Hp1 & Hok1).
  { exists own1, []. rewrite app_nil_r.
    split; [reflexivity | split; [reflexivity |]]. left.
    split; [| eauto].
    transitivity [launch_event L m]; [exact Hp1 |].
    now exists (EvSynchronize :: timed_events L m 100). }
  destruct (Hok1 y eq_refl) as [-> _]. clear Hok1 Hp1.
  (* barrier *)
  apply bind_inv in H as [(e & Hm' & ->) | (y' & [r w] & Hm' & H)];
    apply in_world_inv in Hm' as [-> Hm'];
    unfold synchronize, call_ in Hm'; apply call_logged in Hm' as [-> _];
    rewrite advance_advance in *.
  { eexists _, []. rewrite app_nil_r.
    split; [reflexivity | split; [reflexivity |]]. left.
    split; [| eauto]. now exists (timed_events L m 100). }
  (* timed loop *)
  apply bind_inv in H as [(e & Hb & ->) | (times & [r w] & Hb & H)];
    apply in_world_inv in Hb as [-> Hb];
    destruct (emits_benchmark _ _ _ _ _ Hb) as (own3 & -> & Hp3 & Hok3);
    rewrite advance_advance in *.
  { eexists _, []. rewrite app_nil_r.
    split; [reflexivity | split; [reflexivity |]]. left.
    split; [| eauto]. now apply prefix_app. }
  destruct (Hok3 times eq_refl) as [-> Hts]. clear Hok3 Hp3.
  rewrite tick_advance in Hts. cbn [length app Nat.add] in Hts.
  (* copy back *)
  apply bind_inv in H as [(e & Hd & ->) | (c & [r w] & Hd & H)];
    apply in_world_inv in Hd as [-> Hd];
    unfold memcpy_dtoh in Hd; apply call_logged in Hd as [-> _];
    rewrite advance_advance in *;
    change (([launch_event L m] ++ [EvSynchronize]) ++ timed_events L m 100)
      with (kernel_events L m) in *;
    change (kernel_events L m ++ [EvMemcpyDtoH (c_gpu L)])
      with (protocol_events L m) in *.
  { exists (protocol_events L m), []. rewrite app_nil_r.
    split; [reflexivity | split; [reflexivity |]]. right.
    split; [reflexivity |]. left. eauto. }
  remember (recorded_times E (S (S (tick w1))) 100) as ts eqn:Ets.
  remember (advance (protocol_events L m) w1) as wd eqn:Ewd.
  assert (Htr : trace wd = trace w1 ++ protocol_events L m ++ [])
    by (now rewrite Ewd, trace_advance, app_nil_r).
  assert (Hstop : forall e,
            exists own rest,
              trace wd = trace w1 ++ own ++ rest /\
              (truthy compare_with = None -> rest = []) /\
              ((own `prefix_of` kernel_events L m /\ rest = [] /\ r0 = r0 /\
                exists e', Raise e = @Raise unit e') \/
               (own = protocol_events L m /\
                ((rest = [] /\ r0 = r0 /\ exists e', Raise e = @Raise unit e') \/
                 (success r0 = true /\
                  exists tmin tmax,
                    np_min ts = Ok tmin /\ np_max ts = Ok tmax /\
                    timing r0
                    = Some (mkTiming (f64_mul (np_mean E ts) (f64_of_Z 1000))
                              (f64_mul (np_std E ts) (f64_of_Z 1000))
                              (f64_mul tmin (f64_of_Z 1000))
                              (f64_mul tmax (f64_of_Z 1000)))))))).
  { intros e. exists (protocol_events L m), [].
    split; [exact Htr | split; [reflexivity |]]. right.
    split; [reflexivity |]. left. eauto. }
  simpl in Hts. subst times.
  apply bind_inv in H as [(e & Hm' & ->) | (mx & [r w] & Hm' & H)];
    apply lift_res_inv in Hm' as [_ Hs]; injection Hs as -> ->;
    [apply Hstop |].
  apply bind_inv in H as [(e & Hm' & ->) | (ss & [r w] & Hm' & H)];
    apply lift_res_inv in Hm' as [_ Hs]; injection Hs as -> ->;
    [apply Hstop |].
  apply bind_inv in H as [(e & Hm' & ->) | (tmin & [r w] & Hm' & H)];
    apply lift_res_inv in Hm' as [Hmin Hs]; injection Hs as -> ->;
    [apply Hstop |].
  apply bind_inv in H as [(e & Hm' & ->) | (tmax & [r w] & Hm' & H)];
    apply lift_res_inv in Hm' as [Hmax Hs]; injection Hs as -> ->;
    [apply Hstop |].
  clear Hstop.
  apply bind_inv in H as [(e & Hm' & _) | (u & [r w] & Hm' & H)];
    [discriminate Hm' |].
  unfold update, modify in Hm'. cbv beta iota delta [fst snd] in Hm'.
  injection Hm' as _ <- <-.
  assert (Hdone : forall rr rest,
            success rr = true ->
            timing rr
            = Some (mkTiming (f64_mul (np_mean E ts) (f64_of_Z 1000))
                      (f64_mul (np_std E ts) (f64_of_Z 1000))
                      (f64_mul tmin (f64_of_Z 1000))
                      (f64_mul tmax (f64_of_Z 1000))) ->
            (truthy compare_with = None -> rest = []) ->
            forall wz, trace wz = trace wd ++ rest ->
            exists own rest',
              trace wz = trace w1 ++ own ++ rest' /\
              (truthy compare_with = None -> rest' = []) /\
              ((own `prefix_of` kernel_events L m /\ rest' = [] /\ rr = r0 /\
                exists e, tres = Raise e) \/
               (own = protocol_events L m /\
                ((rest' = [] /\ rr = r0 /\ exists e, tres = Raise e) \/
                 (success rr = true /\
                  exists tmin tmax,
                    np_min ts = Ok tmin /\ np_max ts = Ok tmax /\
                    timing rr
                    = Some (mkTiming (f64_mul (np_mean E ts) (f64_of_Z 1000))
                              (f64_mul (np_std E ts) (f64_of_Z 1000))
                              (f64_mul tmin (f64_of_Z 1000))
                              (f64_mul tmax (f64_of_Z 1000)))))))).
  { intros rr rest Hsucc Htim Hrest wz Hwz.
    exists (protocol_events L m), rest.
    split; [rewrite Hwz, Htr, app_nil_r, <- app_assoc; reflexivity |].
    split; [exact Hrest |]. right. split; [reflexivity |]. right.
    split; [exact Hsucc |]. exists tmin, tmax.
    split; [symmetry; exact Hmin | split; [symmetry; exact Hmax | exact Htim]]. }
  destruct (truthy compare_with) as [other |].
  - apply bind_inv in H as [(e & Hm' & _) | (cr & [rc wc] & Hm' & H)];
      apply in_world_inv in Hm' as [-> Hm'];
      pose proof (Hself other args_str) as Hext;
      match type of Hm' with
      | self_run _ _ ?x = _ => destruct (Hext x) as [rest Hrest]
      end;
      rewrite Hm' in Hrest; cbv beta iota delta [snd] in Hrest.
    { apply (Hdone _ rest); [reflexivity | reflexivity | discriminate | exact Hrest]. }
    apply bind_inv in H as [(e & Hg & _) | (rs & [rg wg] & Hg & H)];
      [discriminate Hg |].
    unfold gets in Hg. cbv beta iota delta [fst snd] in Hg.
    injection Hg as <- <- <-.
    apply bind_inv in H as [(e & Hm'' & _) | (cv & [rl wl] & Hm'' & H)];
      apply lift_res_inv in Hm'' as [_ Hs]; injection Hs as -> ->.
    { apply (Hdone _ rest); [reflexivity | reflexivity | discriminate | exact Hrest]. }
    unfold update, modify in H. cbv beta iota delta [fst snd] in H.
    injection H as _ <- <-.
    apply (Hdone _ rest); [reflexivity | reflexivity | discriminate | exact Hrest].
  - unfold ret in H. injection H as _ <- <-.
    apply (Hdone _ []); [reflexivity | reflexivity | reflexivity |].
    now rewrite app_nil_r.
Qed.

Transparent recorded_times timed_events.

End Launch.

(** The size argument of the launches of a run. *)
Lemma int32_argument (L : Locals) :
  exists m,
    (forall m', np_int32 E (n L) = Ok m' -> m' = m) /\
    ((-2147483648 <= n L < 2147483648)%Z -> m = n L).
Proof.
  destruct (np_int32 E (n L)) as [m |] eqn:Hm.
  - exists m. split; [now intros m' [= ->] |].
    intros [Hlo Hhi]. unfold np_int32 in Hm.
    apply Z.leb_le in Hlo. apply Z.ltb_lt in Hhi. rewrite Hlo, Hhi in Hm.
    now injection Hm.
  - exists (n L). split; [discriminate | reflexivity].
Qed.


End Protocol.


Lemma good_run_succeeds :
  exists r w',
    Runner.run Demo.good_env 0 "build/vec.cubin" (Some Demo.args_n4) None
      Runner.initial_world = (Ok r, w') /\
    Runner.success r = true.
Proof. eexists _, _. vm_compute. split; reflexivity. Qed.


(** * Further properties of the runner *)

Section RunResults.

Import Pathlib Runner.

Variable E : Env.

(** A run that returns went through its prelude, its [try] statement and
    its [finally] clause. *)
Lemma run_ok_inv worker cubin_file args_str compare_with w r w' :
  run E worker cubin_file args_str compare_with w = (Ok r, w') ->
  exists L w1 tres r2 w2,
    run_prelude E worker cubin_file args_str w = (Ok L, w1) /\
    run_try E (run_inner E worker) L args_str compare_with (initial_results L, w1)
    = (tres, (r2, w2)) /\
    run_finally E L w2 = (Ok tt, w') /\
    r = final_results tres r2.
Proof.
  intros Hrun.
  destruct (run_prelude E worker cubin_file args_str w) as [[L | e] w1] eqn:Hpre.
  - destruct (run_try E (run_inner E worker) L args_str compare_with
                (initial_results L, w1)) as [tres [r2 w2]] eqn:Htry.
    destruct (run_finally E L w2) as [fres w3] eqn:Hfin.
    unfold run in Hrun.
    rewrite (run_open_eq E _ _ _ _ _ _ _ _ _ _ _ _ _ Hpre Htry Hfin) in Hrun.
    destruct fres as [[] | e]; [| discriminate].
    injection Hrun as <- <-.
    exists L, w1, tres, r2, w2. auto.
  - unfold run in Hrun.
    rewrite (run_open_prelude_raise E _ _ _ _ _ _ _ _ Hpre) in Hrun. discriminate.
Qed.

(** X1.  The result of a run carries an error message exactly when it reports
    failure. *)
Theorem run_error_iff_failure worker cubin_file args_str compare_with w r w' :
  run E worker cubin_file args_str compare_with w = (Ok r, w') ->
  (success r = true <-> error r = None) /\
  (success r = false <-> exists msg, error r = Some msg).
Proof.
  intros Hrun.
  destruct (run_ok_inv _ _ _ _ _ _ _ Hrun)
    as (L & w1 & tres & r2 & w2 & _ & Htry & _ & ->).
  destruct tres as [[] | e]; simpl.
  - apply run_try_inv in Htry as [(e & [=] & _) | (c & t & r1 & _ & Hm & Hr2)].
    destruct Hm as (ts & m & ss & tmin & tmax & _ & _ & _ & _ & ->).
    destruct Hr2 as [-> | [cv ->]]; simpl.
    + split; [split; reflexivity |].
      split; [discriminate | intros [msg Hmsg]; discriminate].
    + split; [split; reflexivity |].
      split; [discriminate | intros [msg Hmsg]; discriminate].
  - split; [split; discriminate |].
    split; [eauto | reflexivity].
Qed.

End RunResults.

Lemma run_error_iff_failure_witness :
  exists r w',
    Runner.run Demo.launch_fails_env 0 "build/vec.cubin" (Some Demo.args_n4) None
      Runner.initial_world = (Ok r, w') /\
    Runner.success r = false /\
    exists msg, Runner.error r = Some msg.
Proof.
  edestruct (run_error_iff_failure Demo.launch_fails_env 0 "build/vec.cubin"
               (Some Demo.args_n4) None Runner.initial_world)
    as [_ [Hfail _]].
  - vm_compute. reflexivity.
  - eexists _, _. split; [vm_compute; reflexivity |].
    split; [reflexivity |]. apply Hfail. reflexivity.
Defined.

Section RunnerExtras.

Import Pathlib Runner.

Variable E : Env.

(** X2.  Comparing the results of any two runs never raises: the keys that
    [_compare_results] reads are present whenever both report success. *)
Theorem compare_results_total_on_runs (E' : Env)
  worker cubin_file args_str compare_with w
  worker' cubin_file' args_str' compare_with' v r w' r' v' :
  run E worker cubin_file args_str compare_with w = (Ok r, w') ->
  run E' worker' cubin_file' args_str' compare_with' v = (Ok r', v') ->
  exists c, _compare_results r r' = Ok c.
Proof.
  intros Hrun Hrun'.
  destruct (success r) eqn:Hs; [destruct (success r') eqn:Hs' |].
  - destruct (run_success_populated E _ _ _ _ _ _ _ Hrun Hs) as [[t Ht] [c Hc]].
    destruct (run_success_populated E' _ _ _ _ _ _ _ Hrun' Hs') as [[t' Ht'] [c' Hc']].
    eexists. now apply (compare_results_populated r r' t t' c c').
  - exists (CmpError "One or both kernels failed").
    unfold _compare_results. rewrite Hs, Hs'. reflexivity.
  - exists (CmpError "One or both kernels failed").
    unfold _compare_results. rewrite Hs. reflexivity.
Qed.

(** X3.  The launch geometry of a run that reaches its [try] statement: the
    problem size is not negative, blocks have 256 threads, and the grid is
    the least number of blocks that covers all [n] elements; both inputs
    have [n] elements, and the three buffers are distinct. *)
Theorem run_prelude_geometry worker cubin_file args_str w L w1 :
  run_prelude E worker cubin_file args_str w = (Ok L, w1) ->
  (0 <= n L)%Z /\
  block_size L = 256%Z /\
  (n L <= grid_size L * block_size L)%Z /\
  (grid_size L * block_size L < n L + block_size L)%Z /\
  length (a L) = Z.to_nat (n L) /\
  length (b L) = Z.to_nat (n L) /\
  a_gpu L <> b_gpu L /\ b_gpu L <> c_gpu L /\ a_gpu L <> c_gpu L.
Proof.
  intros Hpre.
  destruct (run_prelude_inv E _ _ _ _ _ _ Hpre)
    as (w0 & items & _ & _ & _ & Hn & HL & _).
  split; [exact Hn |].
  rewrite HL. cbn [block_size grid_size a b a_gpu b_gpu c_gpu n].
  rewrite !length_map, !length_seq.
  split; [reflexivity |].
  pose proof (Z.div_mod (n L + 256 - 1) 256 ltac:(lia)) as Hdiv.
  pose proof (Z.mod_pos_bound (n L + 256 - 1) 256 ltac:(lia)) as Hmod.
  repeat split; try lia.
Qed.

(** X4.  Without arguments the string that is parsed is ['{"n": 1024}'], and
    when the parsed object has no member [n], or 1024 as its member [n],
    the problem size is 1024, on a grid of 4 blocks. *)
Theorem run_default_problem_size worker cubin_file args_str w L w1 items :
  run_prelude E worker cubin_file args_str w = (Ok L, w1) ->
  json_loads E (args_or_default args_str) = Ok (JObject items) ->
  (forall v, (("n", v) : string * JsonValue) ∈ items -> v = JInt 1024) ->
  args_or_default None = default_args /\
  args_or_default (Some "") = default_args /\
  n L = 1024%Z /\ grid_size L = 4%Z /\ length (a L) = 1024.
Proof.
  intros Hpre Hjson Hitems.
  destruct (run_prelude_inv E _ _ _ _ _ _ Hpre)
    as (w0 & items' & _ & Hjson' & Hget & _ & HL & _).
  rewrite Hjson in Hjson'. injection Hjson' as <-.
  assert (Hdef : dict_get items "n" (JInt 1024) = JInt 1024).
  { clear -Hitems. induction items as [| [k v] rest IH]; [reflexivity |].
    simpl. destruct (String.eqb_spec k "n") as [-> | _].
    - apply Hitems. left.
    - apply IH. intros v' Hv'. apply Hitems. now right. }
  rewrite Hdef in Hget. injection Hget as Hn.
  split; [reflexivity | split; [reflexivity |]].
  split; [now symmetry |].
  rewrite HL. cbn [grid_size a n]. rewrite <- Hn.
  rewrite length_map, length_seq. split; reflexivity.
Qed.

(** X8.  A failed acquisition registers nothing: when [_ensure_cuda_context]
    raises, the worker map and the cleanup list are as they were, so the
    next call on that worker starts afresh. *)
Theorem ensure_failure_registers_nothing (worker : nat) (w w' : World) (e : PyExc) :
  _ensure_cuda_context E worker w = (Raise e, w') ->
  thread_local w' = thread_local w /\
  contexts_to_cleanup w' = contexts_to_cleanup w /\
  next_ctx w' = next_ctx w.
Proof.
  unfold _ensure_cuda_context, bind, gets. simpl.
  destruct (thread_local w !! worker) as [ctx |].
  - unfold try_except, call_, call.
    destruct (fails E (tick w)) as [e' |]; simpl;
      [destruct (exc_kind e') |]; simpl; intros [= _ <-]; auto.
  - unfold call_, call, make_context, call, modify. simpl.
    destruct (fails E (tick w)); simpl; [intros [= _ <-]; auto |].
    destruct (fails E (S (tick w))); simpl; [intros [= _ <-]; auto |].
    destruct (fails E (S (S (tick w)))); simpl; [intros [= _ <-]; auto |].
    discriminate.
Qed.

(** X9.  In every reachable state no context is shared between two workers,
    every worker's context is on the cleanup list, and the exit handler
    is registered at most once: exactly once as soon as a runner has been
    created. *)
Theorem contexts_isolated_and_handler_registered_once (w : World) :
  reachable E w ->
  (forall wk1 wk2 c,
     thread_local w !! wk1 = Some c -> thread_local w !! wk2 = Some c -> wk1 = wk2) /\
  (forall wk c, thread_local w !! wk = Some c -> c ∈ contexts_to_cleanup w) /\
  atexit_handlers w <= 1 /\
  (cleanup_registered w = true -> atexit_handlers w = 1) /\
  (forall w2, __init__ w = (Ok tt, w2) -> cleanup_registered w = true ->
              atexit_handlers w2 = atexit_handlers w).
Proof.
  intros Hreach. pose proof (reachable_ctx_inv E w Hreach) as Hinv.
  split; [apply (inv_not_shared w Hinv) |].
  split; [apply (inv_worker_registered w Hinv) |].
  pose proof (inv_atexit w Hinv) as Hat.
  split; [destruct (cleanup_registered w); lia |].
  split; [intros Hreg; now rewrite Hreg in Hat |].
  intros w2 Hinit Hreg. unfold __init__ in Hinit. rewrite Hreg in Hinit.
  simpl in Hinit. now injection Hinit as <-.
Qed.

End RunnerExtras.

Lemma compare_results_total_on_runs_witness :
  exists r w' r' v' c,
    Runner.run Demo.launch_fails_env 0 "build/vec.cubin" (Some Demo.args_n4) None
      Runner.initial_world = (Ok r, w') /\
    Runner.run Demo.good_env 0 "build/vec.cubin" (Some Demo.args_n4) None
      Runner.initial_world = (Ok r', v') /\
    Runner._compare_results r r' = Ok c.
Proof.
  edestruct (compare_results_total_on_runs Demo.launch_fails_env Demo.good_env
               0 "build/vec.cubin" (Some Demo.args_n4) None Runner.initial_world
               0 "build/vec.cubin" (Some Demo.args_n4) None Runner.initial_world)
    as [c Hc].
  - vm_compute. reflexivity.
  - vm_compute. reflexivity.
  - eexists _, _, _, _, c.
    split; [vm_compute; reflexivity |]. split; [vm_compute; reflexivity |].
    exact Hc.
Defined.

Lemma run_prelude_geometry_witness :
  exists L w1,
    Runner.run_prelude Demo.good_env 0 "build/vec.cubin" None Runner.initial_world
    = (Ok L, w1) /\
    Runner.n L = 1024%Z /\ Runner.grid_size L = 4%Z /\
    (Runner.n L <= Runner.grid_size L * Runner.block_size L)%Z.
Proof.
  edestruct (run_prelude_geometry Demo.good_env 0 "build/vec.cubin" None
               Runner.initial_world) as (_ & _ & Hcover & _).
  - vm_compute. reflexivity.
  - eexists _, _. split; [vm_compute; reflexivity |].
    split; [reflexivity | split; [reflexivity | exact Hcover]].
Defined.

Lemma run_default_problem_size_witness :
  exists L w1,
    Runner.run_prelude Demo.odd_sizes_env 0 "build/vec.cubin" (Some Demo.args_extra)
      Runner.initial_world = (Ok L, w1) /\
    Runner.n L = 1024%Z /\ Runner.grid_size L = 4%Z.
Proof.
  edestruct (run_default_problem_size Demo.odd_sizes_env 0 "build/vec.cubin"
               (Some Demo.args_extra) Runner.initial_world)
    as (_ & _ & Hn & Hg & _).
  - vm_compute. reflexivity.
  - vm_compute. reflexivity.
  - intros v Hv. apply list_elem_of_In in Hv.
    destruct Hv as [Hv | [Hv | []]]; [discriminate Hv | now injection Hv].
  - eexists _, _. split; [vm_compute; reflexivity |].
    split; [exact Hn | exact Hg].
Defined.

Lemma ensure_failure_registers_nothing_witness :
  exists w',
    Runner._ensure_cuda_context
      (Demo.env_failing_at 2 (mkExc CudaError "cuCtxCreate failed: out of memory"))
      0 Runner.initial_world
    = (Raise (mkExc CudaError "cuCtxCreate failed: out of memory"), w') /\
    Runner.contexts_to_cleanup w' = [] /\
    Runner.thread_local w' !! 0 = None.
Proof.
  eexists. split; [vm_compute; reflexivity |].
  edestruct (ensure_failure_registers_nothing
               (Demo.env_failing_at 2
                  (mkExc CudaError "cuCtxCreate failed: out of memory"))
               0 Runner.initial_world) as (Htl & Hcs & _).
  - vm_compute. reflexivity.
  - split; [exact Hcs |]. rewrite Htl. reflexivity.
Defined.

Lemma contexts_isolated_and_handler_registered_once_witness :
  reachable Demo.pop_fails_env Demo.two_workers /\
  Runner.atexit_handlers Demo.two_workers = 1 /\
  Runner.thread_local Demo.two_workers !! 0 = Some 0 /\
  Runner.thread_local Demo.two_workers !! 1 = Some 1.
Proof.
  split; [exact two_workers_reachable |].
  destruct (contexts_isolated_and_handler_registered_once Demo.pop_fails_env
              Demo.two_workers two_workers_reachable) as (_ & _ & _ & Hone & _).
  split; [apply Hone; vm_compute; reflexivity |].
  split; vm_compute; reflexivity.
Defined.

Section Comparison.

Import Pathlib Runner.

Variable E : Env.

(** The recursive call is a run without comparison. *)
Lemma run_inner_is_run worker cubin_file args_str :
  run_inner E worker cubin_file args_str = run E worker cubin_file args_str None.
Proof. reflexivity. Qed.

Ltac through_world H Hm :=
  let e := fresh "e" in
  let y := fresh "y" in
  let r := fresh "r" in
  let w := fresh "w" in
  apply bind_inv in H as [(e & Hm & ?) | (y & [r w] & Hm & H)];
  [ discriminate | apply in_world_inv in Hm as [-> Hm] ].

Ltac through_pure H Hm :=
  let e := fresh "e" in
  let y := fresh "y" in
  let r := fresh "r" in
  let w := fresh "w" in
  apply bind_inv in H as [(e & Hm & ?) | (y & [r w] & Hm & H)];
  [ discriminate | apply lift_res_inv in Hm as [Hm [= -> ->]] ].

(** A [try] block that ends normally with a comparison requested: the
    other binary was run, and what is stored is the comparison of the
    fresh measurements with the result of that run. *)
Lemma run_try_comparison_inv self_run L args_str compare_with other r0 w1 r2 w2 :
  run_try E self_run L args_str compare_with (r0, w1) = (Ok tt, (r2, w2)) ->
  truthy compare_with = Some other ->
  exists c r1 wd rb cv,
    measured E L c r0 r1 /\
    self_run other args_str wd = (Ok rb, w2) /\
    _compare_results r1 rb = Ok cv /\
    r2 = set_comparison cv r1.
Proof.
  unfold run_try. intros H Hcmp. rewrite Hcmp in H.
  through_world H Hlaunch. through_world H Hsync.
  through_world H Hbench. through_world H Hdtoh.
  through_pure H Hmax. through_pure H Hsamples.
  through_pure H Hmin. through_pure H Htmax.
  apply bind_inv in H as [(ex & Hupd & _) | (u & [ru wu] & Hupd & H)];
    [discriminate Hupd |].
  unfold update, modify in Hupd. cbv beta iota delta [fst snd] in Hupd.
  injection Hupd as _ <- <-.
  apply bind_inv in H as [(ex & _ & Hex) | (rb & [rc wc] & Hm & H)];
    [discriminate Hex |].
  apply in_world_inv in Hm as [-> Hm].
  apply bind_inv in H as [(ex & Hg & _) | (rs & [rg wg] & Hg & H)];
    [discriminate Hg |].
  unfold gets in Hg. cbv beta iota delta [fst snd] in Hg.
  injection Hg as <- <- <-.
  apply bind_inv in H as [(ex & _ & Hex) | (cv & [rl wl] & Hcv & H)];
    [discriminate Hex |].
  apply lift_res_inv in Hcv as [Hcv Hs]. injection Hs as -> ->.
  unfold update, modify in H. cbv beta iota delta [fst snd] in H.
  injection H as <- <-.
  eexists _, _, _, rb, cv.
  split; [| split; [exact Hm | split; [symmetry; exact Hcv | reflexivity]]].
  unfold measured, expected_of. eexists _, _, _, _, _.
  split; [symmetry; exact Hmax |]. split; [symmetry; exact Hsamples |].
  split; [symmetry; exact Hmin |]. split; [symmetry; exact Htmax | reflexivity].
Qed.


End Comparison.


Lemma run_releases_after_try_witness :
  exists L w1 r w3,
    Runner.run_prelude Demo.launch_fails_env 0 "build/vec.cubin" (Some Demo.args_n4)
      Runner.initial_world = (Ok L, w1) /\
    Runner.live w1 = [2; 1; 0] /\
    Runner.run Demo.launch_fails_env 0 "build/vec.cubin" (Some Demo.args_n4) None
      Runner.initial_world = (Ok r, w3) /\
    Runner.live w3 = [].
Proof.
  edestruct (run_releases_after_try Demo.launch_fails_env 0 "build/vec.cubin"
               (Some Demo.args_n4) None Runner.initial_world)
    as (w3 & Hrun & _ & Ha & Hb & Hc).
  - vm_compute. reflexivity.
  - vm_compute. reflexivity.
  - vm_compute. reflexivity.
  - vm_compute. reflexivity.
  - vm_compute. reflexivity.
  - eexists _, _, _, w3.
    split; [vm_compute; reflexivity |]. split; [reflexivity |].
    split; [exact Hrun |].
    assert (Hw : snd (Runner.run Demo.launch_fails_env 0 "build/vec.cubin"
                        (Some Demo.args_n4) None Runner.initial_world) = w3)
      by (rewrite Hrun; reflexivity).
    rewrite <- Hw. vm_compute. reflexivity.
Defined.

(** * Further properties of the pipeline stages *)

(** ** Paths of the artefacts *)

Section Paths.

Import Pathlib.

Lemma append_cons (c : ascii) (s t : string) :
  String c s +:+ t = String c (s +:+ t).
Proof. reflexivity. Qed.

Lemma append_empty_l (t : string) : "" +:+ t = t.
Proof. reflexivity. Qed.

Lemma has_slash_app (s1 s2 : string) :
  has_slash (s1 +:+ s2) = has_slash s1 || has_slash s2.
Proof.
  induction s1 as [| c s1 IH]; [reflexivity |].
  rewrite append_cons. simpl. rewrite <- orb_assoc. f_equal. exact IH.
Qed.

Lemma has_slash_substring (n m : nat) (s : string) :
  has_slash s = false -> has_slash (String.substring n m s) = false.
Proof.
  revert n m. induction s as [| c s IH]; intros n m H.
  - destruct n, m; reflexivity.
  - simpl in H. apply orb_false_iff in H as [Hc Hs].
    destruct n as [| n]; simpl.
    + destruct m as [| m]; simpl; [reflexivity |].
      rewrite Hc. simpl. now apply IH.
    + now apply IH.
Qed.

Lemma split_slash_components (s cur : string) :
  has_slash cur = false ->
  Forall (fun c => has_slash c = false) (split_slash s cur).
Proof.
  revert cur. induction s as [| c s IH]; intros cur Hcur; simpl.
  - now constructor.
  - destruct (Ascii.eqb c "/") eqn:Hc.
    + constructor; [exact Hcur | now apply IH].
    + apply IH. rewrite has_slash_app, Hcur. simpl. now rewrite Hc.
Qed.

Lemma append_empty_r (s : string) : s +:+ "" = s.
Proof.
  induction s as [| c s IH]; [reflexivity |]. rewrite append_cons. congruence.
Qed.

Lemma append_snoc (cur s : string) (c : ascii) :
  (cur +:+ String c EmptyString) +:+ s = cur +:+ String c s.
Proof.
  induction cur as [| d cur IH]; [reflexivity |].
  rewrite !append_cons. congruence.
Qed.

Lemma append_length (s t : string) :
  String.length (s +:+ t) = String.length s + String.length t.
Proof.
  induction s as [| c s IH]; [reflexivity |].
  rewrite append_cons. simpl. congruence.
Qed.

Lemma split_slash_single (s cur : string) :
  has_slash s = false -> split_slash s cur = [cur +:+ s].
Proof.
  revert cur. induction s as [| c s IH]; intros cur H; simpl.
  - now rewrite append_empty_r.
  - simpl in H. apply orb_false_iff in H as [Hc Hs]. rewrite Hc.
    rewrite IH by exact Hs. now rewrite append_snoc.
Qed.

Lemma name_no_slash (s : string) : has_slash (name (of_string s)) = false.
Proof.
  unfold name, of_string. simpl.
  assert (H : Forall (fun c => has_slash c = false)
                (List.filter keep_component (split_slash s EmptyString))).
  { apply Forall_forall. intros c Hc.
    apply list_elem_of_In, filter_In in Hc as [Hc _].
    pose proof (split_slash_components s EmptyString eq_refl) as Hall.
    rewrite Forall_forall in Hall. apply Hall. now apply list_elem_of_In. }
  induction H as [| c l Hc Hl IH]; [reflexivity |].
  destruct l as [| c' l']; [exact Hc | exact IH].
Qed.

Lemma stem_no_slash (s : string) : has_slash (stem (of_string s)) = false.
Proof.
  unfold stem. pose proof (name_no_slash s) as Hn.
  destruct (rfind_dot _ 0 None) as [i |]; [| exact Hn].
  destruct (_ && _); [| exact Hn].
  now apply has_slash_substring.
Qed.

(** A stem followed by an extension of two characters or more is one
    path component. *)
Lemma stem_ext_component (s ext : string) :
  has_slash ext = false -> 2 <= String.length ext ->
  is_component (stem (of_string s) +:+ ext).
Proof.
  intros Hext Hlen. unfold is_component.
  rewrite has_slash_app, stem_no_slash, Hext.
  split; [reflexivity |].
  split; intros Heq; apply (f_equal String.length) in Heq;
    rewrite append_length in Heq; simpl in Heq; lia.
Qed.

Lemma of_string_component (c : string) :
  is_component c -> of_string c = mkPath false [c].
Proof.
  intros (Hs & Hne & Hdot). unfold of_string.
  rewrite (split_slash_single c EmptyString Hs), append_empty_l.
  cbn [List.filter].
  assert (Hkeep : keep_component c = true).
  { unfold keep_component.
    destruct (String.eqb_spec c ""); [contradiction |].
    destruct (String.eqb_spec c "."); [contradiction | reflexivity]. }
  rewrite Hkeep. f_equal.
  destruct c as [| a c]; [reflexivity |]. simpl in Hs |- *.
  now apply orb_false_iff in Hs as [-> _].
Qed.

(** Joining a directory and one component: the component is the name and
    the directory is the parent. *)
Lemma joinpath_component (d : Path) (c : string) :
  is_component c ->
  joinpath d c = mkPath (is_abs d) (parts d ++ [c]) /\
  name (joinpath d c) = c /\
  parent (joinpath d c) = d.
Proof.
  intros Hc. unfold joinpath. rewrite (of_string_component c Hc). simpl.
  split; [reflexivity |]. unfold name, parent. simpl.
  rewrite last_last, removelast_last. split; [reflexivity | now destruct d].
Qed.

End Paths.

Section PathStrings.

Import Pathlib.

Lemma append_assoc (a b c : string) : (a +:+ b) +:+ c = a +:+ (b +:+ c).
Proof.
  induction a as [| x a IH]; [reflexivity |]. rewrite !append_cons. congruence.
Qed.

Lemma join_slash_snoc (l : list string) (c : string) :
  l <> [] -> join_slash (l ++ [c]) = join_slash l +:+ "/" +:+ c.
Proof.
  induction l as [| x l IH]; intros Hne; [contradiction |].
  destruct l as [| y l'].
  - reflexivity.
  - change (join_slash ((x :: y :: l') ++ [c]))
      with (x +:+ "/" +:+ join_slash ((y :: l') ++ [c])).
    rewrite IH by discriminate.
    change (join_slash (x :: y :: l')) with (x +:+ "/" +:+ join_slash (y :: l')).
    now rewrite !append_assoc.
Qed.

Lemma to_string_nonempty (p : Path) :
  parts p <> [] ->
  to_string p = (if is_abs p then "/" else "") +:+ join_slash (parts p).
Proof. unfold to_string. now destruct (parts p). Qed.

(** The string of a path inside a directory is longer than the string of
    the directory: they are different keys of the file system. *)
Lemma to_string_joinpath_neq (d : Path) (c : string) :
  is_component c -> parts d <> [] ->
  to_string (joinpath d c) <> to_string d.
Proof.
  intros Hc Hne Heq.
  destruct (joinpath_component d c Hc) as (Hj & _ & _). rewrite Hj in Heq.
  rewrite (to_string_nonempty d Hne) in Heq.
  rewrite to_string_nonempty in Heq by (simpl; now destruct (parts d)).
  cbn [parts is_abs] in Heq.
  rewrite join_slash_snoc in Heq by exact Hne.
  apply (f_equal String.length) in Heq.
  rewrite !append_length in Heq. simpl in Heq. lia.
Qed.

End PathStrings.

(** ** Directories *)

Section Directories.

Import Pathlib OS Utils.

Variable T : Tools.

(** X11.  [ensure_dir] that succeeds returns the path it was given; the path is
    a directory afterwards; no entry of the file system was changed or
    removed and only directories were added; and calling it again changes
    nothing. *)
Theorem ensure_dir_creates_and_keeps (path : string) (w w1 : World) (d : Path) :
  ensure_dir T path w = (Ok d, w1) ->
  d = of_string path /\
  (parts d <> [] -> fs w1 !! to_string d = Some Dir) /\
  (forall k v, fs w !! k = Some v -> fs w1 !! k = Some v) /\
  (forall k, fs w !! k = None -> fs w1 !! k = None \/ fs w1 !! k = Some Dir) /\
  stdout w1 = stdout w /\
  ensure_dir T path w1 = (Ok d, w1).
Proof.
  intros H.
  destruct (ensure_dir_ok T _ _ _ _ H) as (Hd & Hout & [Hkeep Hadd] & Hdir & Hagain).
  auto 10.
Qed.

Lemma walk_file_in_the_way (f : gmap string Entry) (dirs : list Path) :
  walk f dirs = ParentNotDir ->
  exists q content, In q dirs /\ f !! to_string q = Some (File content).
Proof.
  induction dirs as [| q rest IH]; [discriminate |]. simpl.
  destruct (f !! to_string q) as [[| content] |] eqn:Hq; try discriminate.
  - intros H. destruct (IH H) as (q' & c & Hin & Hc). exists q', c. auto.
  - intros _. exists q, content. auto.
Qed.

Lemma walk_not_already (f : gmap string Entry) (dirs : list Path) :
  walk f dirs <> AlreadyThere.
Proof.
  induction dirs as [| q rest IH]; [discriminate |]. simpl.
  destruct (f !! to_string q) as [[| content] |]; [exact IH | discriminate ..].
Qed.

(** X12.  [ensure_dir] that raises has printed nothing, has changed or removed
    no entry, and has added directories only (it may leave part of the
    chain of parents behind).  When the system answers the first
    [os.mkdir] from the tree of entries and no parent is missing, nothing
    was made at all, and the exception is [FileExistsError] for a regular
    file at the path or [NotADirectoryError] for a regular file above
    it, either of them naming the path. *)
Theorem ensure_dir_failure (path : string) (w w1 : World) (e : PyExc) :
  ensure_dir T path w = (Raise e, w1) ->
  let p := of_string path in
  stdout w1 = stdout w /\
  (forall k v, fs w !! k = Some v -> fs w1 !! k = Some v) /\
  (forall k, fs w !! k = None -> fs w1 !! k = None \/ fs w1 !! k = Some Dir) /\
  (mkdir_rejects T (to_string p) = None ->
   mkdir_refuses T (to_string p) (find (fs w) p) = None ->
   find (fs w) p <> ParentMissing ->
   w1 = w /\
   ((e = mkExc FileExistsError ("[Errno 17] File exists: '" +:+ to_string p +:+ "'") /\
     exists content, fs w !! to_string p = Some (File content)) \/
    (e = mkExc NotADirectoryError ("[Errno 20] Not a directory: '" +:+ to_string p +:+ "'") /\
     exists q content,
       In q (ancestors p) /\ fs w !! to_string q = Some (File content)))).
Proof.
  intros H p.
  destruct (ensure_dir_frame T _ _ _ _ H) as (Hout & Hkeep & Hadd).
  split; [exact Hout | split; [exact Hkeep | split; [exact Hadd |]]].
  intros Hrej Href Hfind. revert H.
  unfold ensure_dir, bind, mkdir_parents_exist_ok. fold p.
  rewrite mkdir_parents_eq. unfold try_except, os_mkdir.
  rewrite Hrej, Href.
  destruct (find (fs w) p) eqn:Hf; [| contradiction | |].
  - unfold ret. discriminate.
  - change (isinstance (mkExc NotADirectoryError _) FileNotFoundError) with false.
    cbv iota. unfold unless_is_dir.
    change (isinstance (mkExc NotADirectoryError _) OSError) with true.
    cbv iota. unfold bind, is_dir, gets, is_dir_in.
    unfold find in Hf.
    destruct (parts p) as [| c l]; [discriminate Hf |].
    destruct (walk (fs w) (ancestors p)) eqn:Hwalk; try discriminate Hf.
    + destruct (fs w !! to_string p); discriminate Hf.
    + unfold raise. intros [= <- <-]. split; [reflexivity |]. right.
      split; [reflexivity |]. now apply walk_file_in_the_way.
  - change (isinstance (mkExc FileExistsError _) FileNotFoundError) with false.
    cbv iota. unfold unless_is_dir.
    change (isinstance (mkExc FileExistsError _) OSError) with true.
    cbv iota. unfold bind, is_dir, gets, is_dir_in.
    unfold find in Hf.
    destruct (parts p) as [| c l]; [unfold ret; discriminate |].
    destruct (walk (fs w) (ancestors p)) eqn:Hwalk; try discriminate Hf;
      [| now destruct (walk_not_already (fs w) (ancestors p))].
    destruct (fs w !! to_string p) as [[| content] |] eqn:Hp;
      [unfold ret; discriminate | | discriminate Hf].
    unfold raise. cbn. intros [= <- <-]. split; [reflexivity |]. left.
    split; [reflexivity |]. now exists content.
Qed.

End Directories.

Lemma ensure_dir_creates_and_keeps_witness :
  exists w1,
    Utils.ensure_dir Demo.demo_tools "out/sass" Demo.demo_os
    = (Ok (Pathlib.of_string "out/sass"), w1) /\
    OS.fs w1 !! "out/sass" = Some OS.Dir /\
    OS.fs w1 !! "out" = Some OS.Dir /\
    OS.fs w1 !! "notes.txt" = Some (OS.File "hello") /\
    Utils.ensure_dir Demo.demo_tools "out/sass" w1
    = (Ok (Pathlib.of_string "out/sass"), w1).
Proof.
  edestruct (ensure_dir_creates_and_keeps Demo.demo_tools "out/sass" Demo.demo_os)
    as (_ & Hdir & Hkeep & _ & _ & Hidem).
  - vm_compute. reflexivity.
  - eexists. split; [vm_compute; reflexivity |].
    split; [apply Hdir; discriminate |].
    split; [vm_compute; reflexivity |].
    split; [apply Hkeep; vm_compute; reflexivity | exact Hidem].
Defined.

Lemma ensure_dir_failure_witness :
  (exists w1,
     Utils.ensure_dir Demo.demo_tools "notes.txt/out" Demo.demo_os
     = (Raise (mkExc NotADirectoryError "[Errno 20] Not a directory: 'notes.txt/out'"),
        w1) /\
     w1 = Demo.demo_os) /\
  (exists e w1,
     Utils.ensure_dir Demo.short_names_tools "out/sub/a_very_long_name" Demo.demo_os
     = (Raise e, w1) /\
     exc_kind e = OSError /\
     OS.fs w1 !! "out/sub" = Some OS.Dir /\
     OS.fs w1 !! "notes.txt" = Some (OS.File "hello")).
Proof.
  split.
  - eexists. split; [vm_compute; reflexivity |].
    edestruct (ensure_dir_failure Demo.demo_tools "notes.txt/out" Demo.demo_os)
      as (_ & _ & _ & H).
    + vm_compute. reflexivity.
    + destruct H as [H _]; [reflexivity | reflexivity | discriminate | exact H].
  - eexists _, _. split; [vm_compute; reflexivity |].
    split; [reflexivity |]. split; [vm_compute; reflexivity |].
    edestruct (ensure_dir_failure Demo.short_names_tools "out/sub/a_very_long_name"
                 Demo.demo_os) as (_ & Hkeep & _).
    + vm_compute. reflexivity.
    + apply Hkeep. vm_compute. reflexivity.
Defined.

(** ** The stages *)

Section Stages.

Import Pathlib OS Utils Compiler Assembler Disassembler.

Variable T : Tools.

Lemma ensure_dir_ok_dir (path : string) (w w1 : World) (d : Path) :
  ensure_dir T path w = (Ok d, w1) ->
  d = of_string path /\ (parts d <> [] -> fs w1 !! to_string d = Some Dir).
Proof.
  intros H. destruct (ensure_dir_ok T _ _ _ _ H) as (Hd & _ & _ & Hdir & _). auto.
Qed.

Lemma run_command_exit (cmd : list string) (w : World) rc out err f :
  exec T None cmd (fs w) = (Exited rc out err, f) ->
  run_command T cmd None w
  = (if (rc =? 0)%Z then Ok (out, err)
     else Raise (mkExc RuntimeError (command_failed_message rc err)),
     set_fs f w).
Proof.
  intros H. unfold run_command, subprocess_run. rewrite H.
  now destruct (rc =? 0)%Z.
Qed.

(** X13.  [check_cuda_installation] answers [True] when [nvcc --version] exits
    with status zero and [False] when it exits otherwise.  When the
    process cannot be started, it answers [False] for [FileNotFoundError]
    and for [RuntimeError] and its subclasses [NotImplementedError] and
    [RecursionError]; an exception of any other class leaves it. *)
Theorem check_cuda_installation_outcomes (w : World) :
  (forall rc out err f,
     exec T None ["nvcc"; "--version"] (fs w) = (Exited rc out err, f) ->
     check_cuda_installation T w = (Ok (rc =? 0)%Z, set_fs f w)) /\
  (forall e f,
     exec T None ["nvcc"; "--version"] (fs w) = (SpawnFailed e, f) ->
     In (exc_kind e)
       [FileNotFoundError; RuntimeError; NotImplementedError; RecursionError] ->
     check_cuda_installation T w = (Ok false, set_fs f w)) /\
  (forall e f,
     exec T None ["nvcc"; "--version"] (fs w) = (SpawnFailed e, f) ->
     ~ In (exc_kind e)
         [FileNotFoundError; RuntimeError; NotImplementedError; RecursionError] ->
     check_cuda_installation T w = (Raise e, set_fs f w)).
Proof.
  unfold check_cuda_installation, try_except, bind.
  split; [| split].
  - intros rc out err f H. rewrite (run_command_exit _ _ _ _ _ _ H).
    now destruct (rc =? 0)%Z.
  - intros e f H Hk. unfold run_command, subprocess_run. rewrite H.
    destruct e as [k msg]. cbn [exc_kind] in Hk.
    destruct Hk as [<- | [<- | [<- | [<- | []]]]]; reflexivity.
  - intros e f H Hk. unfold run_command, subprocess_run. rewrite H.
    destruct e as [k msg]. cbn [exc_kind In] in Hk.
    destruct k; try reflexivity; exfalso; apply Hk; auto.
Qed.

(** X14.  [compile] succeeds for [.cu] inputs only, and the two paths it
    returns lie in the output directory and are named after the stem of
    the input. *)
Theorem compile_success_artifacts (input_file output_dir : string) (w w' : World)
  (ptx cubin : Path) :
  compile T input_file output_dir w = (Ok (ptx, cubin), w') ->
  suffix (of_string input_file) = ".cu" /\
  parent ptx = of_string output_dir /\
  name ptx = stem (of_string input_file) +:+ ".ptx" /\
  parent cubin = of_string output_dir /\
  name cubin = stem (of_string input_file) +:+ ".cubin".
Proof.
  unfold compile. intros H.
  apply bind_ok_inv in H as (d & w1 & Hdir & H).
  apply ensure_dir_ok_dir in Hdir as [-> _].
  apply bind_ok_inv in H as (u1 & w2 & _ & H).
  apply bind_ok_inv in H as (u2 & w3 & _ & H).
  destruct (String.eqb_spec (suffix (of_string input_file)) ".cu") as [Hcu | _].
  - split; [exact Hcu |].
    unfold _compile_cuda in H.
    apply bind_ok_inv in H as (o1 & w4 & _ & H).
    apply bind_ok_inv in H as (o2 & w5 & _ & H).
    unfold ret in H. injection H as <- <- _.
    destruct (joinpath_component (of_string output_dir)
                (stem (of_string input_file) +:+ ".ptx"))
      as (_ & Hn1 & Hp1); [apply stem_ext_component; [reflexivity | simpl; lia] |].
    destruct (joinpath_component (of_string output_dir)
                (stem (of_string input_file) +:+ ".cubin"))
      as (_ & Hn2 & Hp2); [apply stem_ext_component; [reflexivity | simpl; lia] |].
    auto.
  - destruct (String.eqb (suffix (of_string input_file)) ".py"); discriminate.
Qed.

(** X15.  Called after [ensure_dir] has made the output directory, as the
    command-line front end does, [compile] raises [ValueError] for every
    unsupported suffix: its own [ensure_dir] cannot fail any more. *)
Theorem compile_after_ensure_dir (input_file output_dir : string) (w w1 : World)
  (d : Path) :
  ensure_dir T output_dir w = (Ok d, w1) ->
  suffix (of_string input_file) <> ".cu" ->
  suffix (of_string input_file) <> ".py" ->
  (ensure_dir T output_dir ;; compile T input_file output_dir)%py w
  = (Raise (mkExc ValueError
              ("Unsupported file type: " +:+ suffix (of_string input_file))),
     mkWorld (fs w1) (stdout w ++ ["firass"; to_string (of_string input_file)])).
Proof.
  intros Hdir Hcu Hpy.
  destruct (ensure_dir_ok T _ _ _ _ Hdir) as (_ & Hout & _ & _ & Hagain).
  unfold bind at 1. rewrite Hdir. unfold compile, bind. rewrite Hagain.
  unfold print, modify. cbn [fs stdout].
  destruct (String.eqb_spec (suffix (of_string input_file)) ".cu"); [contradiction |].
  destruct (String.eqb_spec (suffix (of_string input_file)) ".py"); [contradiction |].
  unfold raise. rewrite Hout, <- app_assoc. reflexivity.
Qed.

(** X16.  [assemble] whose input is there runs [cuasm --asm2bin] once and
    returns the path [<stem>_new.cubin] in the output directory when the
    tool exits with status zero; otherwise it raises the tool's failure. *)
Theorem assemble_existing_input (cuasm_file output_dir : string) (w w1 : World)
  (d : Path) (entry : Entry) rc out err f :
  ensure_dir T output_dir w = (Ok d, w1) ->
  fs w1 !! to_string (of_string cuasm_file) = Some entry ->
  exec T None
    ["cuasm"; "--asm2bin"; to_string (of_string cuasm_file); "-o";
     to_string (joinpath d (stem (of_string cuasm_file) +:+ "_new.cubin"))] (fs w1)
  = (Exited rc out err, f) ->
  assemble T cuasm_file output_dir w
  = (if (rc =? 0)%Z
     then Ok (joinpath d (stem (of_string cuasm_file) +:+ "_new.cubin"))
     else Raise (mkExc RuntimeError (command_failed_message rc err)),
     set_fs f w1) /\
  parent (joinpath d (stem (of_string cuasm_file) +:+ "_new.cubin"))
  = of_string output_dir /\
  name (joinpath d (stem (of_string cuasm_file) +:+ "_new.cubin"))
  = stem (of_string cuasm_file) +:+ "_new.cubin".
Proof.
  intros Hdir Hin Hexec. split.
  - unfold assemble, bind. rewrite Hdir. unfold exists_, gets. rewrite Hin.
    rewrite bool_decide_eq_true_2 by eauto. cbn [negb].
    rewrite (run_command_exit _ _ _ _ _ _ Hexec).
    now destruct (rc =? 0)%Z.
  - apply ensure_dir_ok_dir in Hdir as [-> _].
    destruct (joinpath_component (of_string output_dir)
                (stem (of_string cuasm_file) +:+ "_new.cubin"))
      as (_ & Hn & Hp); [apply stem_ext_component; [reflexivity | simpl; lia] | auto].
Qed.

End Stages.

Section Disassembly.

Import Pathlib OS Utils Disassembler.

Variable T : Tools.

(** Writing inside the directory that [ensure_dir] made. *)
Lemma parent_is_dir_joinpath (f : gmap string Entry) (d : Path) (c : string) :
  is_component c ->
  (parts d <> [] -> f !! to_string d = Some Dir) ->
  parent_is_dir f (joinpath d c) = true.
Proof.
  intros Hc Hd. unfold parent_is_dir.
  destruct (joinpath_component d c Hc) as (_ & _ & ->).
  destruct (parts d) as [| x l] eqn:Hp; [reflexivity |].
  rewrite Hd by discriminate. reflexivity.
Qed.

(** X19.  [disassemble] step by step, for an input that is there and a listing
    tool that only reads: the listing and the backup copy of the input are
    written before [cuasm] runs, so [cuasm] sees both, and when [cuasm]
    then fails they are not taken back.  The outcome is the path
    [<stem>.cuasm] in the output directory when [cuasm] exits with status
    zero and the tool's failure otherwise. *)
Theorem disassemble_steps (cubin_file output_dir : string) (w w1 : World) (d : Path)
  (listing err content : string) rc out2 err2 f3 :
  let cubin_path := of_string cubin_file in
  let sass_file := joinpath d (stem cubin_path +:+ ".sass") in
  let backup := joinpath d (stem cubin_path +:+ ".original.cubin") in
  let cuasm_file := joinpath d (stem cubin_path +:+ ".cuasm") in
  let f2 := <[to_string backup := File content]>
              (<[to_string sass_file := File listing]> (fs w1)) in
  ensure_dir T output_dir w = (Ok d, w1) ->
  exec T None ["nvdisasm"; "-g"; "-c"; to_string cubin_path] (fs w1)
  = (Exited 0 listing err, fs w1) ->
  fs w1 !! to_string cubin_path = Some (File content) ->
  fs w1 !! to_string sass_file <> Some Dir ->
  fs w1 !! to_string backup <> Some Dir ->
  to_string sass_file <> to_string cubin_path ->
  exec T None
    ["cuasm"; "--bin2asm"; to_string cubin_path; "-o"; to_string cuasm_file] f2
  = (Exited rc out2 err2, f3) ->
  disassemble T cubin_file output_dir w
  = (if (rc =? 0)%Z then Ok cuasm_file
     else Raise (mkExc RuntimeError (command_failed_message rc err2)),
     set_fs f3 w1) /\
  (exists text, f2 !! to_string sass_file = Some (File text)) /\
  f2 !! to_string backup = Some (File content) /\
  name cuasm_file = stem cubin_path +:+ ".cuasm" /\
  parent cuasm_file = of_string output_dir.
Proof.
  intros cubin_path sass_file backup cuasm_file f2 Hdir Hnv Hin Hsd Hbd Hne Hcu.
  destruct (ensure_dir_ok_dir T _ _ _ _ Hdir) as [Hd Hdd].
  assert (Cs : is_component (stem cubin_path +:+ ".sass"))
    by (apply stem_ext_component; [reflexivity | simpl; lia]).
  assert (Cb : is_component (stem cubin_path +:+ ".original.cubin"))
    by (apply stem_ext_component; [reflexivity | simpl; lia]).
  assert (Cc : is_component (stem cubin_path +:+ ".cuasm"))
    by (apply stem_ext_component; [reflexivity | simpl; lia]).
  assert (Hnd : forall o, o <> Some Dir -> is_dir_entry o = false).
  { intros [[| c] |] Ho; try reflexivity. now destruct Ho. }
  assert (Hb2 : is_dir_entry
                  (<[to_string sass_file := File listing]> (fs w1)
                     !! to_string backup) = false).
  { apply Hnd. destruct (decide (to_string sass_file = to_string backup)) as [-> | Hn].
    - rewrite lookup_insert_eq. discriminate.
    - rewrite lookup_insert_ne by exact Hn. exact Hbd. }
  assert (Hpd : parent_is_dir (<[to_string sass_file := File listing]> (fs w1))
                  backup = true).
  { apply parent_is_dir_joinpath; [exact Cb |]. intros Hne'.
    rewrite lookup_insert_ne; [now apply Hdd |].
    now apply to_string_joinpath_neq. }
  assert (Hps : parent_is_dir (fs w1) sass_file = true)
    by (now apply parent_is_dir_joinpath).
  assert (Hs2 : is_dir_entry (fs w1 !! to_string sass_file) = false)
    by (now apply Hnd).
  assert (Hin2 : <[to_string sass_file := File listing]> (fs w1)
                   !! to_string cubin_path = Some (File content))
    by (now rewrite lookup_insert_ne).
  split; [| split; [| split; [| split]]].
  - assert (Es : sass_file = joinpath d (stem cubin_path +:+ ".sass")) by reflexivity.
    assert (Eb : backup = joinpath d (stem cubin_path +:+ ".original.cubin"))
      by reflexivity.
    assert (Ec : cuasm_file = joinpath d (stem cubin_path +:+ ".cuasm"))
      by reflexivity.
    assert (Ef : f2 = <[to_string backup := File content]>
                        (<[to_string sass_file := File listing]> (fs w1)))
      by reflexivity.
    clearbody f2. clearbody sass_file backup cuasm_file.
    unfold disassemble, bind. rewrite Hdir.
    fold cubin_path. rewrite <- Es, <- Eb, <- Ec.
    rewrite (run_command_exit T _ _ _ _ _ _ Hnv). cbn [Z.eqb fst].
    unfold write_text at 1. cbn [fs set_fs stdout].
    rewrite Hps, Hs2. cbn [negb].
    unfold copy2. cbn [fs set_fs stdout].
    rewrite Hin2, Hb2.
    unfold write_text. cbn [fs set_fs stdout].
    rewrite Hpd, Hb2. cbn [negb]. rewrite <- Ef.
    change (set_fs f2 (set_fs (<[to_string sass_file := File listing]> (fs w1))
                         (set_fs (fs w1) w1)))
      with (set_fs f2 w1).
    rewrite (run_command_exit T _ (set_fs f2 w1) _ _ _ _ Hcu).
    destruct (rc =? 0)%Z; reflexivity.
  - unfold f2. destruct (decide (to_string backup = to_string sass_file)) as [-> | Hn].
    + exists content. apply lookup_insert_eq.
    + exists listing. rewrite lookup_insert_ne by exact Hn. apply lookup_insert_eq.
  - apply lookup_insert_eq.
  - now destruct (joinpath_component d _ Cc) as (_ & Hn & _).
  - destruct (joinpath_component d _ Cc) as (_ & _ & Hp).
    unfold cuasm_file. rewrite Hp. exact Hd.
Qed.

End Disassembly.

Lemma check_cuda_installation_outcomes_witness :
  Utils.check_cuda_installation Demo.toolkit Demo.demo_os = (Ok true, Demo.demo_os) /\
  Utils.check_cuda_installation Demo.demo_tools Demo.demo_os = (Ok false, Demo.demo_os) /\
  Utils.check_cuda_installation Demo.locked_tools Demo.demo_os
  = (Raise (mkExc PermissionError "[Errno 13] Permission denied: 'nvcc'"), Demo.demo_os).
Proof.
  split; [| split].
  - apply (proj1 (check_cuda_installation_outcomes Demo.toolkit Demo.demo_os)
             0%Z "nvcc: NVIDIA (R) Cuda compiler driver" "").
    vm_compute. reflexivity.
  - apply (proj1 (proj2 (check_cuda_installation_outcomes Demo.demo_tools
                           Demo.demo_os))
             (mkExc FileNotFoundError "[Errno 2] No such file or directory: 'nvcc'")).
    + vm_compute. reflexivity.
    + left. reflexivity.
  - apply (proj2 (proj2 (check_cuda_installation_outcomes Demo.locked_tools
                           Demo.demo_os))
             (mkExc PermissionError "[Errno 13] Permission denied: 'nvcc'")).
    + vm_compute. reflexivity.
    + cbn. intros [H | [H | [H | [H | []]]]]; discriminate H.
Defined.

Lemma compile_success_artifacts_witness :
  exists ptx cubin w',
    Compiler.compile Demo.toolkit "vector_add.cu" "build" Demo.source_os
    = (Ok (ptx, cubin), w') /\
    Pathlib.name ptx = Pathlib.stem (Pathlib.of_string "vector_add.cu") +:+ ".ptx" /\
    Pathlib.to_string ptx = "build/vector_add.ptx" /\
    Pathlib.to_string cubin = "build/vector_add.cubin".
Proof.
  edestruct (compile_success_artifacts Demo.toolkit "vector_add.cu" "build"
               Demo.source_os) as (_ & _ & Hn & _).
  - vm_compute. reflexivity.
  - eexists _, _, _. split; [vm_compute; reflexivity |].
    split; [exact Hn |]. split; vm_compute; reflexivity.
Defined.

Lemma compile_after_ensure_dir_witness :
  fst ((Utils.ensure_dir Demo.demo_tools "out" ;; Compiler.compile Demo.demo_tools "notes.txt" "out")%py
         Demo.demo_os)
  = Raise (mkExc ValueError "Unsupported file type: .txt").
Proof.
  erewrite (compile_after_ensure_dir Demo.demo_tools "notes.txt" "out" Demo.demo_os).
  - reflexivity.
  - vm_compute. reflexivity.
  - discriminate.
  - discriminate.
Defined.

Lemma assemble_existing_input_witness :
  exists w',
    Assembler.assemble Demo.demo_tools "build/vec.cuasm" "build" Demo.source_os
    = (Ok (Pathlib.of_string "build/vec_new.cubin"), w') /\
    OS.fs w' !! "build/vec_new.cubin" = Some (OS.File "cubin").
Proof.
  edestruct (assemble_existing_input Demo.demo_tools "build/vec.cuasm" "build"
               Demo.source_os) as (Hrun & _ & _).
  - vm_compute. reflexivity.
  - vm_compute. reflexivity.
  - vm_compute. reflexivity.
  - eexists. split; [exact Hrun | vm_compute; reflexivity].
Defined.

Lemma assemble_missing_input_witness :
  Assembler.assemble Demo.demo_tools "build/gone.cuasm" "build" Demo.demo_os
  = (Raise (mkExc FileNotFoundError
       "Could not find build/gone.cuasm. Please run disassemble first."),
     Demo.demo_os).
Proof.
  apply (assemble_missing_input Demo.demo_tools "build/gone.cuasm" "build"
           Demo.demo_os Demo.demo_os (Pathlib.of_string "build")).
  - vm_compute. reflexivity.
  - vm_compute. reflexivity.
Defined.

Lemma disassemble_tool_failure_witness :
  Disassembler.disassemble Demo.demo_tools "build/gone.cubin" "build" Demo.demo_os
  = (Raise (mkExc RuntimeError
       (Utils.command_failed_message 1
          "nvdisasm fatal   : Could not open input file 'build/gone.cubin'")),
     Demo.demo_os).
Proof.
  apply (disassemble_tool_failure Demo.demo_tools "build/gone.cubin" "build"
           Demo.demo_os Demo.demo_os (Pathlib.of_string "build") 1%Z ""
           "nvdisasm fatal   : Could not open input file 'build/gone.cubin'"
           Demo.demo_fs).
  - vm_compute. reflexivity.
  - vm_compute. reflexivity.
  - discriminate.
Defined.

Lemma disassemble_steps_witness :
  exists w',
    Disassembler.disassemble Demo.cuasm_fails_tools "build/vec.cubin" "build"
      Demo.demo_os
    = (Raise (mkExc RuntimeError
         (Utils.command_failed_message 2 "cuasm: unsupported SM version")), w') /\
    OS.fs w' !! "build/vec.sass"
    = Some (OS.File "        /*0000*/  MOV R1, c[0x0][0x28] ;") /\
    OS.fs w' !! "build/vec.original.cubin" = Some (OS.File "cubin").
Proof.
  edestruct (disassemble_steps Demo.cuasm_fails_tools "build/vec.cubin" "build"
               Demo.demo_os Demo.demo_os (Pathlib.of_string "build")
               "        /*0000*/  MOV R1, c[0x0][0x28] ;" "" "cubin"
               2%Z "" "cuasm: unsupported SM version") as (Hrun & _).
  - vm_compute. reflexivity.
  - vm_compute. reflexivity.
  - vm_compute. reflexivity.
  - vm_compute. discriminate.
  - vm_compute. discriminate.
  - vm_compute. discriminate.
  - vm_compute. reflexivity.
  - eexists. split; [exact Hrun |]. split; vm_compute; reflexivity.
Defined.

Section BadArguments.

Import Py Pathlib Runner.

Variable E : Env.

Lemma run_prelude_bad_size worker cubin_file args_str
  (w w0 : World) (items : list (string * JsonValue)) :
  _ensure_cuda_context E worker w = (Ok tt, w0) ->
  json_loads E (args_or_default args_str) = Ok (JObject items) ->
  fails E (tick w0) = None ->
  fails E (S (tick w0)) = None ->
  fails E (S (S (tick w0))) = None ->
  exists w',
    live w' = live w0 /\
    trace w' = trace w0 ++
      [EvOpenRead (to_string (of_string cubin_file)); EvModuleFromBuffer;
       EvGetFunction "vector_add"] /\
    forall e,
      (match dict_get items "n" (JInt 1024) with
       | JNotInt => as_int JNotInt = Raise e
       | JInt z => (z < 0)%Z /\ e = mkExc ValueError "negative dimensions are not allowed"
       end) ->
      run_prelude E worker cubin_file args_str w = (Raise e, w').
Proof.
  intros Hens Hjson F0 F1 F2.
  eexists. split; [| split]; cycle 2.
  - intros e He.
    unfold run_prelude, bind. rewrite Hens.
    unfold parse_kernel_args, lift_res at 1. rewrite Hjson.
    unfold print, modify. cbv beta iota.
    unfold _load_cubin, bind, print, modify. cbv beta iota.
    unfold call_ at 1. rewrite call_ok by exact F0. cbn [fst snd].
    unfold try_except, bind, call_ at 1. rewrite call_ok by exact F1. cbn [fst snd].
    unfold _get_first_kernel_name.
    unfold call_ at 1. rewrite call_ok by exact F2. cbn [fst snd].
    unfold args_get_n, lift_res at 1.
    match goal with |- context [lift_res _ ?W] => set (wl := W) end.
    destruct (dict_get items "n" (JInt 1024)) as [z |].
    + destruct He as [Hneg ->]. unfold as_int, lift_res at 1.
      unfold random_rand32. apply Z.ltb_lt in Hneg. rewrite Hneg.
      subst wl. reflexivity.
    + unfold lift_res. rewrite He. subst wl. reflexivity.
  - reflexivity.
  - cbn [trace called]. now rewrite <- !app_assoc.
Qed.

(** X5.  A problem size that is negative or not an integer is not reported
    through the result: once the kernel is loaded, [run] raises
    [ValueError], respectively [TypeError], and it has asked for no device
    buffer. *)
Theorem run_rejects_bad_problem_size worker cubin_file args_str compare_with
  (w w0 : World) (items : list (string * JsonValue)) :
  _ensure_cuda_context E worker w = (Ok tt, w0) ->
  json_loads E (args_or_default args_str) = Ok (JObject items) ->
  fails E (tick w0) = None ->
  fails E (S (tick w0)) = None ->
  fails E (S (S (tick w0))) = None ->
  (dict_get items "n" (JInt 1024) = JNotInt \/
   exists z, dict_get items "n" (JInt 1024) = JInt z /\ (z < 0)%Z) ->
  exists e w',
    run E worker cubin_file args_str compare_with w = (Raise e, w') /\
    exc_kind e = match dict_get items "n" (JInt 1024) with
                 | JNotInt => TypeError
                 | JInt _ => ValueError
                 end /\
    live w' = live w /\
    count_events is_alloc (new_events w w') = 0.
Proof.
  intros Hens Hjson F0 F1 F2 Hbad.
  destruct (run_prelude_bad_size worker cubin_file args_str w w0 items
              Hens Hjson F0 F1 F2) as (w' & Hlive & Htr & Hrun).
  destruct (ensure_frame E worker w) as (Hl0 & _ & evs & Hevs & Hctx).
  rewrite Hens in Hl0, Hevs. cbn [snd] in Hl0, Hevs.
  assert (Hcount : count_events is_alloc (new_events w w') = 0).
  { unfold new_events, count_events. rewrite Htr, Hevs, <- app_assoc.
    rewrite drop_app_length, List.filter_app. cbn.
    rewrite app_nil_r. apply length_zero_iff_nil.
    clear -Hctx. induction evs as [| ev evs IH]; [reflexivity |].
    cbn in Hctx |- *. apply andb_true_iff in Hctx as [Hev Hctx].
    destruct ev; try discriminate Hev; now apply IH. }
  destruct Hbad as [Hni | (z & Hz & Hneg)].
  - exists (mkExc TypeError "object cannot be interpreted as an integer"), w'.
    split; [| split; [now rewrite Hni | split; [congruence | exact Hcount]]].
    unfold run. apply run_open_prelude_raise, Hrun. now rewrite Hni.
  - exists (mkExc ValueError "negative dimensions are not allowed"), w'.
    split; [| split; [now rewrite Hz | split; [congruence | exact Hcount]]].
    unfold run. apply run_open_prelude_raise, Hrun. now rewrite Hz.
Qed.

End BadArguments.

Lemma run_rejects_bad_problem_size_witness :
  exists e w',
    Runner.run Demo.odd_sizes_env 0 "build/vec.cubin" (Some Demo.args_negative) None
      Runner.initial_world = (Raise e, w') /\
    exc_kind e = ValueError /\ Runner.live w' = [].
Proof.
  edestruct (run_rejects_bad_problem_size Demo.odd_sizes_env 0 "build/vec.cubin"
               (Some Demo.args_negative) None Runner.initial_world)
    as (e & w' & Hrun & Hk & Hl & _).
  - vm_compute. reflexivity.
  - vm_compute. reflexivity.
  - reflexivity.
  - reflexivity.
  - reflexivity.
  - right. exists (-4)%Z. split; [reflexivity | lia].
  - exists e, w'. split; [exact Hrun | split; [exact Hk | exact Hl]].
Defined.


Section StaleHandles.

Import Py Runner.

Variable E : Env.

(** X10.  The clean-up empties the registry but not the per-thread handles: a
    second clean-up calls nothing and changes nothing, and a thread that
    held a context pushes that same context again afterwards, creating
    and registering none. *)
Theorem cleanup_keeps_thread_handles (w : World) (worker ctx : nat) :
  thread_local w !! worker = Some ctx ->
  let w1 := snd (_cleanup_all_contexts E w) in
  let w2 := snd (_ensure_cuda_context E worker w1) in
  _cleanup_all_contexts E w1 = (Ok tt, w1) /\
  thread_local w1 !! worker = Some ctx /\
  new_events w1 w2 = [EvCtxPush ctx] /\
  contexts_to_cleanup w2 = [].
Proof.
  intros Hctx. cbv zeta.
  rewrite (cleanup_all_contexts_spec E w). cbn [snd].
  set (w1 := set_contexts _ _ _ _).
  assert (Htl : thread_local w1 !! worker = Some ctx) by exact Hctx.
  split; [| split; [exact Htl |]].
  - rewrite (cleanup_all_contexts_spec E w1). f_equal.
    unfold w1, set_contexts, advance. cbn. now rewrite !app_nil_r.
  - unfold _ensure_cuda_context, bind, gets. cbn [fst snd]. rewrite Htl.
    unfold try_except, call_, call, new_events.
    destruct (fails E (tick w1)) as [e |]; cbn;
      [destruct (exc_kind e); cbn |]; split;
      (apply drop_app_length || reflexivity).
Qed.

End StaleHandles.

Lemma cleanup_keeps_thread_handles_witness :
  let w1 := snd (Runner._cleanup_all_contexts Demo.pop_fails_env Demo.two_workers) in
  Runner._cleanup_all_contexts Demo.pop_fails_env w1 = (Ok tt, w1) /\
  Runner.contexts_to_cleanup
    (snd (Runner._ensure_cuda_context Demo.pop_fails_env 1 w1)) = [].
Proof.
  destruct (cleanup_keeps_thread_handles Demo.pop_fails_env Demo.two_workers 1 1)
    as (H1 & _ & _ & H2).
  - vm_compute. reflexivity.
  - split; [exact H1 | exact H2].
Defined.

(** * The command-line front end *)

Section CliRun.

Import Py Pathlib Runner.

Variable E : Env.
Variable on_disk : string -> bool.
Variable render : Results -> string.

(** X21.  The exit status of the [run] command tells whether the run could be
    set up, not whether the kernel worked: a failure before the [try]
    statement aborts the command with the error message as its last line,
    while a run that gets to its [try] statement and frees its buffers
    ends the command with status 0 and prints the result, whose [success]
    is false when the guarded block raised. *)
Theorem cli_run_exit_status (cubin_file : string) (args compare_with : option string)
  (w : World) :
  on_disk cubin_file = true ->
  match compare_with with Some c => on_disk c | None => true end = true ->
  (forall e w1,
     run_prelude E 0 cubin_file args (snd (__init__ w)) = (Raise e, w1) ->
     exists w',
       Main.run E on_disk render cubin_file args compare_with w = (Main.Aborted, w') /\
       stdout w' = stdout w1 ++
         ["[red]Error during kernel execution:[/red] " +:+ str_exc e]) /\
  (forall L w1 tres r2 w2 w3,
     run_prelude E 0 cubin_file args (snd (__init__ w)) = (Ok L, w1) ->
     run_try E (run_inner E 0) L args compare_with (initial_results L, w1)
     = (tres, (r2, w2)) ->
     run_finally E L w2 = (Ok tt, w3) ->
     exists r w',
       Main.run E on_disk render cubin_file args compare_with w = (Main.Completed, w') /\
       Main.exit_status Main.Completed = 0%Z /\
       stdout w' = stdout w3 ++ ["[green]Kernel execution results:[/green]"; render r] /\
       r = final_results tres r2 /\
       success r = match tres with Ok _ => true | Raise _ => false end).
Proof.
  intros Hdisk Hcmp.
  assert (Hinit : forall w, __init__ w = (Ok tt, snd (__init__ w))).
  { intros v. unfold __init__. now destruct (negb (cleanup_registered v)). }
  split.
  - intros e w1 Hpre. eexists. split.
    + unfold Main.run. rewrite Hdisk, Hcmp. cbn [negb].
      unfold bind at 1. rewrite Hinit.
      unfold bind at 1, run.
      rewrite (run_open_prelude_raise E _ _ _ _ _ _ _ _ Hpre). reflexivity.
    + unfold print, modify. reflexivity.
  - intros L w1 tres r2 w2 w3 Hpre Htry Hfin.
    exists (final_results tres r2). eexists. split; [| split; [reflexivity | split; [| split]]].
    + unfold Main.run. rewrite Hdisk, Hcmp. cbn [negb].
      unfold bind at 1. rewrite Hinit.
      unfold bind at 1, run.
      rewrite (run_open_eq E _ _ _ _ _ _ _ _ _ _ _ _ _ Hpre Htry Hfin).
      unfold bind, print, modify. reflexivity.
    + cbn [stdout]. now rewrite <- app_assoc.
    + reflexivity.
    + destruct tres as [[] | e]; [| reflexivity]. cbn [final_results].
      apply (run_try_inv E) in Htry
        as [(e & [=] & _) | (c & t & r1 & _ & Hm & Hr2)].
      destruct Hm as (ts & m & ss & tmin & tmax & _ & _ & _ & _ & ->).
      now destruct Hr2 as [-> | [cv ->]].
Qed.

End CliRun.

Section CliTools.

Import Py Pathlib OS Utils.

Variable T : Tools.

Lemma ensure_dir_again (path : string) (w w1 : World) (d : Path) :
  ensure_dir T path w = (Ok d, w1) ->
  ensure_dir T path w1 = (Ok d, w1) /\
  stdout w1 = stdout w /\
  (forall k v, fs w !! k = Some v -> fs w1 !! k = Some v).
Proof.
  intros H. destruct (ensure_dir_ok T _ _ _ _ H) as (_ & Hout & [Hkeep _] & _ & Hagain).
  auto.
Qed.

(** X22.  Through the command line the assembler's own check for a missing
    listing never fires: [click] has seen the file, making the output
    directory removes nothing, and so [cuasm --asm2bin] is always run
    once the directory is there; the command completes when the tool
    does and aborts with the tool's failure otherwise. *)
Theorem cli_assemble_runs_cuasm (sass_file output_dir : string) (w w1 : World)
  (d : Path) :
  Main.path_exists sass_file w = true ->
  ensure_dir T output_dir w = (Ok d, w1) ->
  let cubin_file := joinpath d (stem (of_string sass_file) +:+ "_new.cubin") in
  Main.assemble T sass_file output_dir w
  = match run_command T
            ["cuasm"; "--asm2bin"; to_string (of_string sass_file); "-o";
             to_string cubin_file] None w1 with
    | (Ok _, w2) =>
        (Main.Completed,
         mkWorld (fs w2)
           (stdout w2 ++ ["[green]Successfully assembled to CUBIN:[/green] "
                          +:+ to_string cubin_file]))
    | (Raise e, w2) =>
        (Main.Aborted,
         mkWorld (fs w2)
           (stdout w2 ++ ["[red]Error during assembly:[/red] " +:+ str_exc e]))
    end.
Proof.
  intros Hthere Hdir cubin_file.
  destruct (ensure_dir_again _ _ _ _ Hdir) as (Hagain & _ & Hkeep).
  unfold Main.path_exists, exists_, gets in Hthere.
  apply bool_decide_eq_true_1 in Hthere as [entry Hentry].
  unfold Main.assemble, Main.path_exists, exists_, gets.
  rewrite bool_decide_eq_true_2 by eauto. cbn [negb].
  unfold bind at 1. rewrite Hdir.
  unfold bind at 1, Assembler.assemble, bind at 1. rewrite Hagain.
  unfold bind at 1, exists_, gets.
  rewrite bool_decide_eq_true_2 by eauto using Hkeep. cbn [negb].
  unfold bind at 1. fold cubin_file.
  destruct (run_command T _ None w1) as [[so | e] w2]; reflexivity.
Qed.

End CliTools.

Lemma cli_run_exit_status_witness :
  exists r w',
    Main.run Demo.launch_fails_env (fun _ => true) Runner.kernel
      "build/vec.cubin" (Some Demo.args_n4) None Runner.initial_world
    = (Main.Completed, w') /\
    Runner.success r = false /\
    List.last (Runner.stdout w') "" = Runner.kernel r.
Proof.
  destruct (cli_run_exit_status Demo.launch_fails_env (fun _ => true) Runner.kernel
              "build/vec.cubin" (Some Demo.args_n4) None Runner.initial_world
              eq_refl eq_refl) as [_ Hdone].
  edestruct Hdone as (r & w' & Hrun & _ & Hout & _ & Hs).
  - vm_compute. reflexivity.
  - vm_compute. reflexivity.
  - vm_compute. reflexivity.
  - exists r, w'. split; [exact Hrun | split; [exact Hs |]].
    rewrite Hout. reflexivity.
Defined.

Lemma cli_assemble_runs_cuasm_witness :
  exists w',
    Main.assemble Demo.demo_tools "build/vec.cuasm" "out" Demo.source_os
    = (Main.Completed, w') /\
    OS.fs w' !! "out/vec_new.cubin" = Some (OS.File "cubin").
Proof.
  edestruct (cli_assemble_runs_cuasm Demo.demo_tools "build/vec.cuasm" "out"
               Demo.source_os) as [].
  - vm_compute. reflexivity.
  - vm_compute. reflexivity.
  - eexists. split; [vm_compute; reflexivity | vm_compute; reflexivity].
Defined.

(** * From a listing back to a binary *)

Section PathRoundTrip.

Import Pathlib.

Lemma keep_component_true (c : string) : is_component c -> keep_component c = true.
Proof.
  intros (_ & Hne & Hdot). unfold keep_component.
  destruct (String.eqb_spec c ""); [contradiction |].
  destruct (String.eqb_spec c "."); [contradiction | reflexivity].
Qed.

Lemma of_string_parts_components (s : string) :
  Forall is_component (parts (of_string s)).
Proof.
  unfold of_string. cbn [parts].
  pose proof (split_slash_components s EmptyString eq_refl) as H.
  induction H as [| c l Hc _ IH]; [constructor |].
  cbn [List.filter]. destruct (keep_component c) eqn:Hk; [| exact IH].
  constructor; [| exact IH]. split; [exact Hc |].
  unfold keep_component in Hk.
  destruct (String.eqb_spec c ""); [discriminate |].
  destruct (String.eqb_spec c "."); [discriminate | auto].
Qed.

Lemma split_slash_app_noslash (a b cur : string) :
  has_slash a = false -> split_slash (a +:+ b) cur = split_slash b (cur +:+ a).
Proof.
  revert cur. induction a as [| x a IH]; intros cur H.
  - now rewrite append_empty_l, append_empty_r.
  - rewrite append_cons. simpl in H |- *.
    apply orb_false_iff in H as [Hx Ha]. rewrite Hx, (IH _ Ha).
    now rewrite append_snoc.
Qed.

Lemma split_slash_join (c : string) (l : list string) (cur : string) :
  Forall (fun c => has_slash c = false) (c :: l) ->
  split_slash (join_slash (c :: l)) cur = (cur +:+ c) :: l.
Proof.
  revert c cur. induction l as [| d l IH]; intros c cur H.
  - apply split_slash_single. now inversion H.
  - inversion H as [| ? ? Hc Hl]; subst.
    change (join_slash (c :: d :: l)) with (c +:+ "/" +:+ join_slash (d :: l)).
    rewrite (split_slash_app_noslash _ _ _ Hc).
    change ("/" +:+ join_slash (d :: l)) with (String "/" (join_slash (d :: l))).
    cbn [split_slash]. change (Ascii.eqb "/" "/") with true. cbv iota.
    now rewrite (IH _ _ Hl), append_empty_l.
Qed.

Lemma filter_keep_components (l : list string) :
  Forall is_component l -> List.filter keep_component l = l.
Proof.
  induction 1 as [| c l Hc _ IH]; [reflexivity |].
  cbn [List.filter]. now rewrite (keep_component_true c Hc), IH.
Qed.

Lemma components_no_slash (l : list string) :
  Forall is_component l -> Forall (fun c => has_slash c = false) l.
Proof. induction 1 as [| c l [Hc _] _ IH]; constructor; assumption. Qed.

(** [Path(str(p)) == p] *)
Lemma of_string_to_string (p : Path) :
  Forall is_component (parts p) -> of_string (to_string p) = p.
Proof.
  destruct p as [abs [| c l]]; intros H; cbn [parts] in H.
  - destruct abs; reflexivity.
  - unfold to_string, of_string. cbn [parts is_abs].
    pose proof (components_no_slash _ H) as Hns.
    destruct abs.
    + change ("/" +:+ join_slash (c :: l)) with (String "/" (join_slash (c :: l))).
      cbn [starts_with_slash split_slash].
      change (Ascii.eqb "/" "/") with true. cbv iota.
      rewrite (split_slash_join c l EmptyString Hns), append_empty_l.
      change (List.filter keep_component (EmptyString :: c :: l))
        with (List.filter keep_component (c :: l)).
      now rewrite (filter_keep_components _ H).
    + rewrite append_empty_l.
      rewrite (split_slash_join c l EmptyString Hns), append_empty_l.
      rewrite (filter_keep_components _ H). f_equal.
      inversion H as [| ? ? (Hc & Hne & _) _]; subst.
      destruct c as [| x c]; [contradiction |].
      destruct l as [| d l].
      * cbn. simpl in Hc. now apply orb_false_iff in Hc as [-> _].
      * change (join_slash (String x c :: d :: l))
          with (String x c +:+ "/" +:+ join_slash (d :: l)).
        rewrite append_cons. cbn [starts_with_slash].
        simpl in Hc. now apply orb_false_iff in Hc as [-> _].
Qed.

Lemma rfind_dot_app (s t : string) (i : nat) (acc : option nat) :
  rfind_dot (s +:+ t) i acc = rfind_dot t (String.length s + i) (rfind_dot s i acc).
Proof.
  revert i acc. induction s as [| c s IH]; intros i acc; [reflexivity |].
  rewrite append_cons. cbn [rfind_dot String.length]. rewrite IH.
  f_equal. lia.
Qed.

Lemma substring_prefix (s t : string) :
  String.substring 0 (String.length s) (s +:+ t) = s.
Proof.
  induction s as [| c s IH].
  - cbn. now destruct t.
  - rewrite append_cons. cbn. now rewrite IH.
Qed.

(** The stem of [<s>.cuasm] is [s], unless [s] is empty. *)
Lemma stem_cuasm (d : Path) (x : string) :
  stem (of_string x) <> "" ->
  stem (joinpath d (stem (of_string x) +:+ ".cuasm")) = stem (of_string x).
Proof.
  set (s := stem (of_string x)). intros Hne.
  destruct (joinpath_component d (s +:+ ".cuasm")) as (_ & Hn & _);
    [apply stem_ext_component; [reflexivity | simpl; lia] |].
  unfold stem at 1. rewrite Hn, rfind_dot_app. cbn [rfind_dot].
  change (Ascii.eqb "." ".") with true.
  change (Ascii.eqb "c" ".") with false. change (Ascii.eqb "u" ".") with false.
  change (Ascii.eqb "a" ".") with false. change (Ascii.eqb "s" ".") with false.
  change (Ascii.eqb "m" ".") with false. cbv iota.
  rewrite Nat.add_0_r, append_length. cbn [String.length].
  assert (Hlen : 0 < String.length s) by (destruct s; [contradiction | simpl; lia]).
  replace (0 <? String.length s)%nat with true by (symmetry; now apply Nat.ltb_lt).
  replace (String.length s <? String.length s + 6 - 1)%nat with true
    by (symmetry; apply Nat.ltb_lt; lia).
  cbn [andb]. apply substring_prefix.
Qed.

End PathRoundTrip.

Section Pipeline.

Import Py Pathlib OS Utils.

Variable T : Tools.

(** X20.  The listing that [disassemble] returns can be handed to [assemble] as
    a string: the path survives the conversion, and the binary that
    [assemble] names is [<stem>_new.cubin] for the stem of the binary that
    was disassembled, in the output directory of [assemble]. *)
Theorem disassemble_then_assemble_name (cubin_file output_dir output_dir' : string)
  (w w2 w1 w3 : World) (p q : Path) :
  stem (of_string cubin_file) <> "" ->
  Disassembler.disassemble T cubin_file output_dir w = (Ok p, w1) ->
  Assembler.assemble T (to_string p) output_dir' w2 = (Ok q, w3) ->
  of_string (to_string p) = p /\
  name p = stem (of_string cubin_file) +:+ ".cuasm" /\
  parent p = of_string output_dir /\
  name q = stem (of_string cubin_file) +:+ "_new.cubin" /\
  parent q = of_string output_dir'.
Proof.
  intros Hstem Hdis Hasm.
  unfold Disassembler.disassemble in Hdis.
  apply bind_ok_inv in Hdis as (d & wa & Hd & Hdis).
  apply ensure_dir_ok_dir in Hd as [-> _].
  apply bind_ok_inv in Hdis as (so & wb & _ & Hdis).
  apply bind_ok_inv in Hdis as (u1 & wc & _ & Hdis).
  apply bind_ok_inv in Hdis as (u2 & wd & _ & Hdis).
  apply bind_ok_inv in Hdis as (u3 & we & _ & Hdis).
  unfold ret in Hdis. injection Hdis as <- _.
  set (s := stem (of_string cubin_file)) in *.
  destruct (joinpath_component (of_string output_dir) (s +:+ ".cuasm"))
    as (Hj & Hn & Hp); [apply stem_ext_component; [reflexivity | simpl; lia] |].
  assert (Hrt : of_string (to_string (joinpath (of_string output_dir) (s +:+ ".cuasm")))
                = joinpath (of_string output_dir) (s +:+ ".cuasm")).
  { apply of_string_to_string. rewrite Hj. cbn [parts].
    apply Forall_app. split; [apply of_string_parts_components |].
    constructor; [| constructor].
    apply stem_ext_component; [reflexivity | simpl; lia]. }
  split; [exact Hrt | split; [exact Hn | split; [exact Hp |]]].
  unfold Assembler.assemble in Hasm. rewrite Hrt in Hasm.
  apply bind_ok_inv in Hasm as (d' & wa' & Hd' & Hasm).
  apply ensure_dir_ok_dir in Hd' as [-> _].
  apply bind_ok_inv in Hasm as (found & wb' & _ & Hasm).
  destruct (negb found); [discriminate |].
  apply bind_ok_inv in Hasm as (so' & wc' & _ & Hasm).
  unfold ret in Hasm. injection Hasm as <- _.
  pose proof (stem_cuasm (of_string output_dir) cubin_file Hstem) as Hs.
  fold s in Hs. rewrite Hs.
  destruct (joinpath_component (of_string output_dir') (s +:+ "_new.cubin"))
    as (_ & Hn' & Hp'); [apply stem_ext_component; [reflexivity | simpl; lia] |].
  split; [exact Hn' | exact Hp'].
Qed.

End Pipeline.

Lemma disassemble_then_assemble_name_witness :
  exists p w1 q w3,
    Disassembler.disassemble Demo.demo_tools "build/vec.cubin" "build" Demo.demo_os
    = (Ok p, w1) /\
    Assembler.assemble Demo.demo_tools (Pathlib.to_string p) "build" w1 = (Ok q, w3) /\
    Pathlib.name q = "vec_new.cubin".
Proof.
  eexists _, _, _, _.
  split; [vm_compute; reflexivity |]. split; [vm_compute; reflexivity |].
  edestruct (disassemble_then_assemble_name Demo.demo_tools "build/vec.cubin"
               "build" "build" Demo.demo_os
               (snd (Disassembler.disassemble Demo.demo_tools "build/vec.cubin"
                       "build" Demo.demo_os)))
    as (_ & _ & _ & Hn & _).
  - vm_compute. discriminate.
  - vm_compute. reflexivity.
  - vm_compute. reflexivity.
  - exact Hn.
Defined.

Section UiAssemble.

Import Py Pathlib OS Utils.

Variable T : Tools.

(** X23.  The web front end assembles the text that was edited: once the
    listing is written and the build directory is there, the listing on
    disk holds the edited text, the assembler's check for a missing
    listing cannot fire, and [cuasm --asm2bin] is run; its outcome decides
    between the path of the new binary and an error line. *)
Theorem ui_assemble_uses_edited_text (cuasm_path_str cuasm_text : string)
  (w w0 w1 : World) (d : Path) :
  let cuasm_path := of_string cuasm_path_str in
  let cubin := joinpath d (stem cuasm_path +:+ "_new.cubin") in
  write_text cuasm_path cuasm_text w = (Ok tt, w0) ->
  ensure_dir T "build" w0 = (Ok d, w1) ->
  fs w1 !! to_string cuasm_path = Some (File cuasm_text) /\
  Ui.assemble_from_cuasm T cuasm_path_str cuasm_text w
  = match run_command T
            ["cuasm"; "--asm2bin"; to_string cuasm_path; "-o"; to_string cubin]
            None w1 with
    | (Ok _, w2) => ((to_string cubin, "Assembled successfully"), w2)
    | (Raise e, w2) => (("", "Assembly error: " +:+ str_exc e), w2)
    end.
Proof.
  intros cuasm_path cubin Hwrite Hdir.
  assert (Hfile : fs w0 !! to_string cuasm_path = Some (File cuasm_text)).
  { revert Hwrite. unfold write_text.
    destruct (negb (parent_is_dir (fs w) cuasm_path)); [discriminate |].
    destruct (is_dir_entry (fs w !! to_string cuasm_path)); [discriminate |].
    intros [= <-]. cbn [fs set_fs]. apply lookup_insert_eq. }
  destruct (ensure_dir_again T _ _ _ _ Hdir) as (Hagain & _ & Hkeep).
  pose proof (Hkeep _ _ Hfile) as Hfile1.
  split; [exact Hfile1 |].
  unfold Ui.assemble_from_cuasm. fold cuasm_path.
  unfold bind at 1. rewrite Hwrite.
  unfold Assembler.assemble.
  assert (Hrt : of_string (to_string cuasm_path) = cuasm_path)
    by apply of_string_to_string, of_string_parts_components.
  rewrite Hrt.
  change (to_string Ui.BUILD_DIR) with "build".
  unfold bind at 1. rewrite Hdir.
  unfold bind at 1, exists_, gets. rewrite Hfile1.
  rewrite bool_decide_eq_true_2 by eauto. cbn [negb].
  unfold bind at 1. fold cubin.
  destruct (run_command T _ None w1) as [[so | e] w2]; reflexivity.
Qed.

End UiAssemble.

Lemma ui_assemble_uses_edited_text_witness :
  exists w',
    Ui.assemble_from_cuasm Demo.demo_tools "build/vec.cuasm" "// edited twice"
      Demo.source_os
    = (("build/vec_new.cubin", "Assembled successfully"), w') /\
    OS.fs w' !! "build/vec.cuasm" = Some (OS.File "// edited twice").
Proof.
  edestruct (ui_assemble_uses_edited_text Demo.demo_tools "build/vec.cuasm"
               "// edited twice" Demo.source_os) as [_ Hrun].
  - vm_compute. reflexivity.
  - vm_compute. reflexivity.
  - eexists. split; [rewrite Hrun; vm_compute; reflexivity |].
    vm_compute. reflexivity.
Defined.
